(** * JWST level-2 associations: merge, prune, nod splitting, bulk add and diff

    A shallow embedding of
    - [jwst/associations/lib/diff.py] (the structural diff engine), and
    - [jwst/associations/lib/rules_level2_base.py] ([DMSLevel2bBase] and the
      level-2 [Utility] functions),
    followed by the properties of these functions.

    Conventions of the embedding.
    - Python [str] is [string]; a Python [set] of strings is a [gset string];
      a Python [list] is a [list]; an insertion-ordered [dict] whose iteration
      order is observable is an association list.
    - A function that may raise returns a [result]: [Ok v] or [Raise e].
    - Python lists of objects are embedded as lists of values.  The input
      lists are taken to hold separate objects (no association, product or
      member object is reachable twice); the one alias the code itself
      creates -- in [_merge_asns] the accumulator of a key *is* the first
      association seen for that key -- is embedded as it is, with indexed
      reads and writes on one product list. *)

From Stdlib Require Import Ascii String.
From stdpp Require Import base decidable option list gmap strings.


(** ** Exceptions *)

(** What an [AssertionError] of the diff engine reports. *)
Inductive diff_failure : Type :=
| DuplicateProducts (side : string) (dups : list string)
| NoCommonProducts (name_diff : gset string)
| TypeMismatch (left_type right_type : string)
| CandidateLevelMismatch (left_level right_level : ascii)
| NumProductsDiffer (left_len right_len : nat)
| MemberLengthDiffers (left_idx left_len right_idx right_len : nat)
| RoleMismatch (left_expname left_exptype right_expname right_exptype : string)
| NoCounterpart (left_expname left_exptype : string)
| Unaccounted (len_over : nat)
| LeftLeftOver (n_products : nat)
| RightLeftOver (n_products : nat)
| AsnMismatch (reason : diff_failure).

Inductive exn : Type :=
| AssertionError (f : diff_failure)
| IndexError
| KeyError (key : string)
| ValueError (msg : string).

Inductive result (A : Type) : Type :=
| Ok (v : A)
| Raise (e : exn).
Arguments Ok {A} v.
Arguments Raise {A} e.

Definition bind {A B} (r : result A) (k : A -> result B) : result B :=
  match r with
  | Ok v => k v
  | Raise e => Raise e
  end.

Notation "'let*' x ':=' r 'in' k" := (bind r (fun x => k))
  (at level 10, x pattern, r at level 100, k at level 200).

(** [assert cond, failure] *)
Definition py_assert (cond : bool) (f : diff_failure) : result unit :=
  if cond then Ok tt else Raise (AssertionError f).

(** Does the call complete without raising? *)
Definition passes {A} (r : result A) : bool :=
  match r with
  | Ok _ => true
  | Raise _ => false
  end.

(** ** Data model *)

(** A member: [{'expname': ..., 'exptype': ..., 'exposerr': ...}]. *)
Record member : Type := Member {
  expname : string;
  exptype : string;
  exposerr : option string
}.

(** A product: [{'name': ..., 'members': [...]}]. *)
Record product : Type := Product {
  name : string;
  members : list member
}.

(** The association candidate [ACID((id, type))]. *)
Record ACID : Type := MkACID {
  acid_id : string;
  acid_type : string
}.

(** An association: the keys of its data the code reads ([asn_type],
    [asn_id], [products]) and the candidate of a [DMSLevel2bBase]. *)
Record association : Type := Association {
  asn_type : string;
  asn_id : string;
  products : list product;
  acid : ACID
}.

#[global] Instance member_eq_dec : EqDecision member.
Proof. solve_decision. Defined.
#[global] Instance product_eq_dec : EqDecision product.
Proof. solve_decision. Defined.
#[global] Instance ACID_eq_dec : EqDecision ACID.
Proof. solve_decision. Defined.
#[global] Instance association_eq_dec : EqDecision association.
Proof. solve_decision. Defined.

Definition set_products (ps : list product) (asn : association) : association :=
  {| asn_type := asn_type asn; asn_id := asn_id asn;
     products := ps; acid := acid asn |}.

Definition expnames (ms : list member) : list string := expname <$> ms.

(** ** Python list primitives *)

(** [l.remove(x)]: drop the first item equal to [x] under the items' [==];
    [None] stands for the [ValueError] of a missing item. *)
Fixpoint list_remove {A} (eqb : A -> A -> bool) (x : A) (l : list A)
  : option (list A) :=
  match l with
  | [] => None
  | y :: l' =>
      if eqb y x then Some l'
      else cons y <$> list_remove eqb x l'
  end.

Definition remove_or_raise {A} (eqb : A -> A -> bool) (x : A) (l : list A)
  : result (list A) :=
  match list_remove eqb x l with
  | Some l' => Ok l'
  | None => Raise (ValueError "list.remove(x): x not in list")
  end.

(** [==] on plain mappings: equality of contents. *)
Definition dict_eq {A} `{EqDecision A} (a b : A) : bool := bool_decide (a = b).

(** [Counter(names).items()] : the distinct names in order of first
    occurrence, each with its number of occurrences. *)
Fixpoint counter_add (n : string) (c : list (string * nat))
  : list (string * nat) :=
  match c with
  | [] => [(n, 1)]
  | (k, v) :: c' =>
      if String.eqb k n then (k, S v) :: c' else (k, v) :: counter_add n c'
  end.

Definition Counter (names : list string) : list (string * nat) :=
  foldl (fun c n => counter_add n c) [] names.

(** ** diff.py *)

(** [re.split('[_-]', s)] *)
Definition is_sep (c : ascii) : bool :=
  Ascii.eqb c "_"%char || Ascii.eqb c "-"%char.

Fixpoint re_split (s : string) : list string :=
  match s with
  | EmptyString => [EmptyString]
  | String c s' =>
      if is_sep c then EmptyString :: re_split s'
      else match re_split s' with
           | tok :: toks => String c tok :: toks
           | [] => [String c EmptyString]
           end
  end.

(** [components(s)] *)
Definition components (s : string) : gset string :=
  list_to_set (re_split s).

(** [[asn['products'][0]['name'] for asn in asns]] *)
Fixpoint first_product_names (asns : list association) : result (list string) :=
  match asns with
  | [] => Ok []
  | asn :: asns' =>
      match products asn with
      | [] => Raise IndexError
      | p :: _ =>
          let* ns := first_product_names asns' in
          Ok (name p :: ns)
      end
  end.

(** [get_product_names(asns)] *)
Definition get_product_names (asns : list association)
  : result (gset string * list string) :=
  let* product_names := first_product_names asns in
  let dups :=
    fst <$> List.filter (fun nc => Nat.ltb 1 (snd nc)) (Counter product_names) in
  Ok (list_to_set product_names, dups).

(** The inner loop of [compare_membership]: one left member against the
    right members not yet consumed. *)
Definition match_member (left_member : member) (members_right : list member)
  : result (list member) :=
  match List.find (fun right_member =>
                     String.eqb (expname left_member) (expname right_member))
                  members_right with
  | Some right_member =>
      let* _ := py_assert
                  (String.eqb (exptype left_member) (exptype right_member))
                  (RoleMismatch (expname left_member) (exptype left_member)
                                (expname right_member) (exptype right_member)) in
      remove_or_raise dict_eq right_member members_right
  | None =>
      Raise (AssertionError
               (NoCounterpart (expname left_member) (exptype left_member)))
  end.

Fixpoint match_members (members_left members_right : list member)
  : result (list member) :=
  match members_left with
  | [] => Ok members_right
  | left_member :: rest =>
      let* members_right' := match_member left_member members_right in
      match_members rest members_right'
  end.

(** The body run for a left product and the right product it is paired
    with. *)
Definition compare_members (left_idx right_idx : nat)
    (left_product right_product : product) : result unit :=
  let* _ := py_assert
              (Nat.eqb (length (members right_product))
                       (length (members left_product)))
              (MemberLengthDiffers left_idx (length (members left_product))
                                   right_idx (length (members right_product))) in
  let* members_right :=
    match_members (members left_product) (members right_product) in
  py_assert (Nat.eqb (length members_right) 0) (Unaccounted (length members_right)).

(** [for right_idx, right_product in enumerate(products_right)]: the first
    right product whose components equal the left product's. *)
Fixpoint find_right_product (left_product_name : gset string) (right_idx : nat)
    (products_right : list product) : option (nat * product) :=
  match products_right with
  | [] => None
  | right_product :: rest =>
      if bool_decide (components (name right_product) = left_product_name)
      then Some (right_idx, right_product)
      else find_right_product left_product_name (S right_idx) rest
  end.

Fixpoint compare_products (n_left : nat) (left_idx : nat)
    (products_left products_right : list product) : result (list product) :=
  match products_left with
  | [] => Ok products_right
  | left_product :: rest =>
      match find_right_product (components (name left_product)) 0 products_right with
      | Some (right_idx, right_product) =>
          let* _ := compare_members left_idx right_idx left_product right_product in
          let* products_right' := remove_or_raise dict_eq right_product products_right in
          compare_products n_left (S left_idx) rest products_right'
      | None => Raise (AssertionError (LeftLeftOver n_left))
      end
  end.

(** [compare_membership(left, right)] *)
Definition compare_membership (left right : association) : result bool :=
  let products_left := products left in
  let products_right := products right in
  let* _ := py_assert
              (Nat.eqb (length products_left) (length products_right))
              (NumProductsDiffer (length products_left) (length products_right)) in
  let* products_right' :=
    compare_products (length products_left) 0 products_left products_right in
  let* _ := py_assert (Nat.eqb (length products_right') 0)
                      (RightLeftOver (length products_right')) in
  Ok true.

(** [s[0]] *)
Definition first_char (s : string) : result ascii :=
  match s with
  | EmptyString => Raise IndexError
  | String c _ => Ok c
  end.

(** [_compare_asns(left, right)] *)
Definition _compare_asns (left right : association) : result bool :=
  let* _ := py_assert (String.eqb (asn_type left) (asn_type right))
                      (TypeMismatch (asn_type left) (asn_type right)) in
  let* l := first_char (asn_id left) in
  let* r := first_char (asn_id right) in
  let* _ := py_assert (Ascii.eqb l r) (CandidateLevelMismatch l r) in
  compare_membership left right.

(** [compare_asns(left, right)]: an [AssertionError] is re-raised with the
    two associations attached; any other exception passes through. *)
Definition compare_asns (left right : association) : result bool :=
  match _compare_asns left right with
  | Raise (AssertionError reason) => Raise (AssertionError (AsnMismatch reason))
  | Raise e => Raise e
  | Ok _ => Ok true
  end.

(** [{asn['products'][0]['name']: asn for asn in asns}[product_name]]: the
    last association whose first product has that name. *)
Definition asn_by_product (asns : list association) (product_name : string)
  : result association :=
  match List.find (fun asn => match products asn with
                              | p :: _ => String.eqb (name p) product_name
                              | [] => false
                              end) (rev asns) with
  | Some asn => Ok asn
  | None => Raise (KeyError product_name)
  end.

Fixpoint compare_like_products (left_asns right_asns : list association)
    (product_names : list string) : result unit :=
  match product_names with
  | [] => Ok tt
  | product_name :: rest =>
      let* left_asn := asn_by_product left_asns product_name in
      let* right_asn := asn_by_product right_asns product_name in
      let* _ := compare_asns left_asn right_asn in
      compare_like_products left_asns right_asns rest
  end.

(** [compare_asn_lists(left_asns, right_asns)].  The last loop runs over a
    Python set, whose order of iteration is not specified: [set_order] is
    the order in which a set is visited. *)
Definition compare_asn_lists_in (set_order : gset string -> list string)
    (left_asns right_asns : list association) : result unit :=
  let* (left_product_names, left_duplicates) := get_product_names left_asns in
  let* (right_product_names, right_duplicates) := get_product_names right_asns in
  let* _ := py_assert (bool_decide (left_duplicates = []))
                      (DuplicateProducts "Left" left_duplicates) in
  let* _ := py_assert (bool_decide (right_duplicates = []))
                      (DuplicateProducts "Right" right_duplicates) in
  let name_diff := (left_product_names ∖ right_product_names)
                     ∪ (right_product_names ∖ left_product_names) in
  let* _ := py_assert (bool_decide (name_diff = ∅)) (NoCommonProducts name_diff) in
  compare_like_products left_asns right_asns (set_order left_product_names).

(** The comparison with the sets visited in the order of [elements]. *)
Definition compare_asn_lists : list association -> list association -> result unit :=
  compare_asn_lists_in elements.

(** [separate_products(asn)] *)
Definition separate_products (asn : association) : list association :=
  (fun p => set_products [p] asn) <$> products asn.

(** ** rules_level2_base.py: equality of level-2 associations *)

(** Modelled from the spec: [member_ids], a property of [DMSBaseMixin]
    (lib/dms_base.py is not among the sources).  A member is identified by
    its exposure name ([KEY = 'expname'], "Key that uniquely identfies
    items"); [member_ids] is the set of these keys over the members of all
    products of the association. *)
Definition member_ids (asn : association) : gset string :=
  list_to_set (mjoin ((fun p => expnames (members p)) <$> products asn)).

(** [DMSLevel2bBase.__eq__]: the [==] of level-2 associations, hence the
    test [list.remove] applies to them. *)
Definition asn_eq (self other : association) : bool :=
  String.eqb (asn_type self) (asn_type other)
  && bool_decide (member_ids self = member_ids other).

(** ** Utility.sort_by_candidate *)

(** [sorted(asns, key=lambda asn: asn['asn_id'])]: ascending in the order of
    [str], equal keys staying in their input order. *)
Fixpoint insert_by_key {A} (key : A -> string) (x : A) (l : list A) : list A :=
  match l with
  | [] => [x]
  | y :: l' =>
      if String.leb (key x) (key y) then x :: y :: l'
      else y :: insert_by_key key x l'
  end.

Definition sorted {A} (key : A -> string) (l : list A) : list A :=
  foldr (insert_by_key key) [] l.

Definition sort_by_candidate (asns : list association) : list association :=
  sorted asn_id asns.

(** ** Utility.prune_duplicate_products *)

(** [to_prune[product_name].append(asn)] on a [defaultdict(list)], kept in
    insertion order. *)
Fixpoint defaultdict_append {A} (k : string) (v : A) (d : list (string * list A))
  : list (string * list A) :=
  match d with
  | [] => [(k, [v])]
  | (k', vs) :: d' =>
      if String.eqb k' k then (k', vs ++ [v]) :: d'
      else (k', vs) :: defaultdict_append k v d'
  end.

(** [asn['products'][0]['name']] *)
Definition first_product_name (asn : association) : result string :=
  match products asn with
  | [] => Raise IndexError
  | p :: _ => Ok (name p)
  end.

Fixpoint collect_to_prune (dups : list string) (asns : list association)
    (to_prune : list (string * list association))
  : result (list (string * list association)) :=
  match asns with
  | [] => Ok to_prune
  | asn :: rest =>
      let* product_name := first_product_name asn in
      if bool_decide (product_name ∈ dups)
      then collect_to_prune dups rest (defaultdict_append product_name asn to_prune)
      else collect_to_prune dups rest to_prune
  end.

(** [for asn in asns_to_prune[1:]: pruned.remove(asn)] *)
Fixpoint remove_all (to_remove pruned : list association)
  : result (list association) :=
  match to_remove with
  | [] => Ok pruned
  | asn :: rest =>
      let* pruned' := remove_or_raise asn_eq asn pruned in
      remove_all rest pruned'
  end.

Fixpoint prune_groups (to_prune : list (string * list association))
    (pruned : list association) : result (list association) :=
  match to_prune with
  | [] => Ok pruned
  | (product_name, asns_to_prune) :: rest =>
      let asns_to_prune := sort_by_candidate asns_to_prune in
      let* pruned' := remove_all (tail asns_to_prune) pruned in
      prune_groups rest pruned'
  end.

Definition prune_duplicate_products (asns : list association)
  : result (list association) :=
  let* (product_names, dups) := get_product_names asns in
  match dups with
  | [] => Ok asns
  | _ =>
      let pruned := asns in
      let* to_prune := collect_to_prune dups asns [] in
      prune_groups to_prune pruned
  end.

(** ** Utility._merge_asns *)

(** The body of [if product['name'] == current_product['name']]: the
    members of [prod] (the incoming [product]) whose exposure name the current product lacks are
    appended to the current product. *)
Definition merge_members (prod current_product : product) : product :=
  let member_names : gset string := list_to_set (expnames (members prod)) in
  let current_member_names := expnames (members current_product) in
  let new_names := member_names ∖ list_to_set current_member_names in
  let new_members :=
    List.filter (fun m => bool_decide (expname m ∈ new_names)) (members prod) in
  {| name := name current_product;
     members := members current_product ++ new_members |}.

(** [for current_product in current_asn['products']], for an incoming
    product that is not one of the current products; the flag is
    [merge_occured]. *)
Fixpoint merge_into (prod : product) (current_products : list product)
  : list product * bool :=
  match current_products with
  | [] => ([], false)
  | current_product :: rest =>
      let '(rest', merge_occured) := merge_into prod rest in
      if String.eqb (name prod) (name current_product)
      then (merge_members prod current_product :: rest', true)
      else (current_product :: rest', merge_occured)
  end.

Definition merge_product (current_products : list product) (prod : product)
  : list product :=
  let '(current_products', merge_occured) := merge_into prod current_products in
  if merge_occured then current_products' else current_products' ++ [prod].

(** The same two loops when [current_asn] is [asn] itself (the first
    association of its key): both run over one list, read and written by
    position.  Every product meets itself, so [merge_occured] is always set
    and the list keeps its length. *)
Definition self_merge_step (i j : nat) (ps : list product) : list product :=
  match ps !! i, ps !! j with
  | Some prod, Some current_product =>
      if String.eqb (name prod) (name current_product)
      then <[j := merge_members prod current_product]> ps
      else ps
  | _, _ => ps
  end.

Definition self_merge (ps : list product) : list product :=
  foldl (fun ps i => foldl (fun ps j => self_merge_step i j ps) ps (seq 0 (length ps)))
        ps (seq 0 (length ps)).

(** [merged], a [dict] in insertion order. *)
Fixpoint dict_get {A} (k : string) (d : list (string * A)) : option A :=
  match d with
  | [] => None
  | (k', v) :: d' => if String.eqb k' k then Some v else dict_get k d'
  end.

Fixpoint dict_set {A} (k : string) (v : A) (d : list (string * A))
  : list (string * A) :=
  match d with
  | [] => [(k, v)]
  | (k', v') :: d' =>
      if String.eqb k' k then (k', v) :: d' else (k', v') :: dict_set k v d'
  end.

(** ['_'.join([asn['asn_type'], asn['asn_id']])] *)
Definition merge_idx (asn : association) : string :=
  asn_type asn +:+ "_" +:+ asn_id asn.

Definition merge_asn (merged : list (string * association)) (asn : association)
  : list (string * association) :=
  let idx := merge_idx asn in
  match dict_get idx merged with
  | Some current_asn =>
      dict_set idx
        (set_products (foldl merge_product (products current_asn) (products asn))
                      current_asn)
        merged
  | None =>
      dict_set idx (set_products (self_merge (products asn)) asn) merged
  end.

Definition _merge_asns (asns : list association) : list association :=
  snd <$> foldl merge_asn [] asns.

(** ** Utility.rename_to_level2a *)

(** What [.] of a Python regular expression matches: any character but the
    newline. *)
Definition is_dot (c : ascii) : bool := negb (Ascii.eqb c "010"%char).

(** [.*] at the head of [s], greedy: the longest run of [.] characters. *)
Fixpoint dot_star (s : string) : string :=
  match s with
  | EmptyString => EmptyString
  | String c s' => if is_dot c then String c (dot_star s') else EmptyString
  end.

Fixpoint strip_prefix (p s : string) : option string :=
  match p, s with
  | EmptyString, _ => Some s
  | String a p', String b s' => if Ascii.eqb a b then strip_prefix p' s' else None
  | String _ _, EmptyString => None
  end.

(** [(?P<type>_uncal)(?P<extension>\..+)] at the head of [s]; nothing
    follows the last group, so its greedy [.+] keeps the longest run. *)
Definition match_type_extension (s : string) : option (string * string) :=
  match strip_prefix "_uncal." s with
  | Some rest =>
      match dot_star rest with
      | EmptyString => None
      | e => Some ("_uncal", String "." e)
      end
  | None => None
  end.

(** [re.match(_LEVEL1B_REGEX, s)] with
    [_LEVEL1B_REGEX = '(?P<path>.+)(?P<type>_uncal)(?P<extension>\..+)']:
    the groups [(path, type, extension)] of the match at the start of [s],
    the greedy [path] tried longest first. *)
Fixpoint re_match_LEVEL1B (s : string) : option (string * string * string) :=
  match s with
  | EmptyString => None
  | String c s' =>
      if is_dot c then
        match re_match_LEVEL1B s' with
        | Some (path, type, extension) => Some (String c path, type, extension)
        | None =>
            match match_type_extension s' with
            | Some (type, extension) => Some (String c EmptyString, type, extension)
            | None => None
            end
        end
      else None
  end.

Definition rename_to_level2a (level1b_name : string) (use_integrations : bool)
  : string :=
  match re_match_LEVEL1B level1b_name with
  | None => level1b_name
  | Some (path, type, extension) =>
      if negb (String.eqb type "_uncal") then level1b_name
      else
        let suffix := if use_integrations then "rateints" else "rate" in
        path +:+ "_" +:+ suffix +:+ extension
  end.

(** ** DMSLevel2bBase *)

(** [str.lower()] on ASCII text. *)
Definition ascii_lower (c : ascii) : ascii :=
  let n := N_of_ascii c in
  if (65 <=? n)%N && (n <=? 90)%N then ascii_of_N (n + 32) else c.

Fixpoint lower (s : string) : string :=
  match s with
  | EmptyString => EmptyString
  | String c s' => String (ascii_lower c) (lower s')
  end.

(** Modelled from the spec: [current_product], a property of [DMSBaseMixin]
    (lib/dms_base.py is not among the sources): the product under
    construction, which is the one started last. *)
Definition current_product (self : association) : option product :=
  last (products self).

(** Modelled from the spec: [new_product] of [DMSBaseMixin] (not among the
    sources): starts a product of the given name, without members, after the
    products the association already has. *)
Definition new_product (product_name : string) (self : association)
  : association :=
  set_products (products self ++ [{| name := product_name; members := [] |}]) self.

(** Updates of the current product: [current_product['members'].append(m)]
    and [current_product['name'] = n]. *)
Definition update_current (f : product -> product) (self : association)
  : association :=
  match reverse (products self) with
  | [] => self
  | p :: before => set_products (reverse before ++ [f p]) self
  end.

Definition append_member (m : member) : association -> association :=
  update_current (fun p => {| name := name p; members := members p ++ [m] |}).

Definition set_current_name (n : string) : association -> association :=
  update_current (fun p => {| name := n; members := members p |}).

(** [members_by_type(member_type)] *)
Definition members_by_type (member_type : string) (self : association)
  : list member :=
  let member_type := lower member_type in
  match current_product self with
  | None => []
  | Some p =>
      List.filter (fun m => String.eqb member_type (lower (exptype m))) (members p)
  end.

(** [has_science()] *)
Definition has_science (self : association) : bool :=
  Nat.leb 1 (length (members_by_type "science" self)).

(** [validate_candidates(member)]; the member is ignored. *)
Definition validate_candidates (self : association) : bool :=
  if String.eqb (lower (acid_type (acid self))) "observation" then true
  else if String.eqb (lower (acid_type (acid self))) "background" then
    match current_product self with
    | None => false
    | Some p =>
        existsb (fun m => String.eqb (lower (exptype m)) "background") (members p)
    end
  else false.

(** Modelled from the spec: the validity predicate ([is_valid] and the
    bookkeeping of [validity] are in [Association] and [DMSBaseMixin], not
    among the sources): "hasScience (at least one science member) AND
    allowedCandidates (observation type always passes; background type
    passes only if at least one current member has background role)". *)
Definition is_valid_spec (self : association) : bool :=
  has_science self && validate_candidates self.

Section Level2.

(** Functions and constants from outside the sources:
    [os.path.splitext], [os.path.split], [jwst.lib.suffix.remove_suffix],
    [dms_base.PRODUCT_NAME_DEFAULT] and the property [is_valid]. *)
Variable splitext : string -> string * string.
Variable path_split : string -> string * string.
Variable remove_suffix : string -> string * string.
Variable PRODUCT_NAME_DEFAULT : string.
Variable is_valid : association -> bool.

(** [dms_product_name()] *)
Definition dms_product_name (self : association) : string :=
  match members_by_type "science" self with
  | [] => PRODUCT_NAME_DEFAULT
  | science :: _ =>
      let '(science_path, ext) := splitext (expname science) in
      let '(no_suffix_path, separator) := remove_suffix science_path in
      no_suffix_path
  end.

(** [update_asn()]: the part that is in the sources, the product name. *)
Definition update_asn (self : association) : association :=
  set_current_name (dms_product_name self) self.

(** *** make_nod_asns *)

(** [Member(other_science)] with [exptype] set to ['background']. *)
Definition now_background (other_science : member) : member :=
  {| expname := expname other_science;
     exptype := "background";
     exposerr := exposerr other_science |}.

(** [remove_suffix(splitext(split(science_exp['expname'])[1])[0])[0]] *)
Definition nod_product_name (science_exp : member) : string :=
  fst (remove_suffix (fst (splitext (snd (path_split (expname science_exp)))))).

(** The association built for one science exposure, before the validity
    test. *)
Definition nod_asn (self : association)
    (science_exps nonscience_exps : list member) (science_exp : member)
  : association :=
  let asn := set_products [] self in
  let product_name := nod_product_name science_exp in
  let asn := new_product product_name asn in
  let asn := append_member science_exp asn in
  let asn :=
    foldl (fun asn other_science =>
             if negb (String.eqb (expname other_science) (expname science_exp))
             then append_member (now_background other_science) asn
             else asn)
          asn science_exps in
  foldl (fun asn m => append_member m asn) asn nonscience_exps.

(** [make_nod_asns()]: the [return] sits inside the loop over the
    products, so only the first product is split; without any product the
    method falls off its end and yields [None]. *)
Definition make_nod_asns (self : association) : option (list association) :=
  match products self with
  | [] => None
  | prod :: _ =>
      let members := members prod in
      let science_exps :=
        List.filter (fun m => String.eqb (exptype m) "science") members in
      let nonscience_exps :=
        List.filter (fun m => negb (String.eqb (exptype m) "science")) members in
      Some (foldl (fun results science_exp =>
                     let asn := nod_asn self science_exps nonscience_exps science_exp in
                     if is_valid asn then results ++ [asn] else results)
                  [] science_exps)
  end.

(** *** _add_items *)

(** [self.data.update(meta)], on the keys of the data that are embedded. *)
Definition data_update (meta : list (string * string)) (self : association)
  : association :=
  foldl (fun asn kv =>
           if String.eqb (fst kv) "asn_type" then
             {| asn_type := snd kv; asn_id := asn_id asn;
                products := products asn; acid := acid asn |}
           else if String.eqb (fst kv) "asn_id" then
             {| asn_type := asn_type asn; asn_id := snd kv;
                products := products asn; acid := acid asn |}
           else asn)
        self meta.

Definition set_acid (a : ACID) (self : association) : association :=
  {| asn_type := asn_type self; asn_id := asn_id self;
     products := products self; acid := a |}.

(** One turn of [for idx, item in enumerate(items, start=1)].  A
    [product_name_func] that raises returns [None]. *)
Definition add_item (product_name_func : option (string -> nat -> option string))
    (self : association) (idx : nat) (item : string) : association :=
  let self := new_product PRODUCT_NAME_DEFAULT self in
  let m := {| expname := item; exptype := "science"; exposerr := None |} in
  let self := append_member m self in
  let self := update_asn self in
  match product_name_func with
  | Some f =>
      match f item idx with
      | Some product_name => set_current_name product_name self
      | None => self
      end
  | None => self
  end.

Fixpoint add_items_from (product_name_func : option (string -> nat -> option string))
    (idx : nat) (items : list string) (self : association) : association :=
  match items with
  | [] => self
  | item :: rest =>
      add_items_from product_name_func (S idx) rest
                     (add_item product_name_func self idx item)
  end.

(** [_add_items(items, meta, product_name_func, acid)]: the outcome of the
    call and the association it leaves. *)
Definition _add_items (items : list string) (meta : list (string * string))
    (product_name_func : option (string -> nat -> option string))
    (acid : string) (self : association) : result unit * association :=
  let ac_type :=
    if String.prefix "o" acid then Some "observation"
    else if String.prefix "c" acid then Some "background"
    else None in
  match ac_type with
  | None =>
      (Raise (ValueError ("Invalid association id specified: " +:+ acid)), self)
  | Some ac_type =>
      let self := set_acid {| acid_id := acid; acid_type := ac_type |} self in
      let self := add_items_from product_name_func 1 items self in
      (Ok tt, data_update meta self)
  end.

(** *** Reference definitions for the bulk-add path *)

(** The name derived from an item that is the science member of its
    product. *)
Definition derived_product_name (item : string) : string :=
  fst (remove_suffix (fst (splitext item))).

(** The product expected for the [idx]-th item: the item as single member,
    tagged science, under the name [product_name_func] returns, or the
    derived name where the function is absent or raises. *)
Definition bulk_product (product_name_func : option (string -> nat -> option string))
    (idx : nat) (item : string) : product :=
  {| name :=
       match product_name_func with
       | Some f =>
           match f item idx with
           | Some product_name => product_name
           | None => derived_product_name item
           end
       | None => derived_product_name item
       end;
     members := [ {| expname := item; exptype := "science"; exposerr := None |} ] |}.

End Level2.

(** ** Reference definitions for the properties *)

(** The roles, in list order, of the members carrying exposure name [e]. *)
Definition roles_at (e : string) (ms : list member) : list string :=
  exptype <$> List.filter (fun m => String.eqb (expname m) e) ms.

(** The matching of members as the specification words it: "for each left
    member, find an unconsumed right member with the same exposure name,
    assert equal role tag, then mark it consumed; a left member with no
    counterpart is a failure; any right members left unconsumed after
    processing all left members is a failure".  Right members carry a
    [consumed] mark. *)
Inductive match_failure : Type :=
| LeftWithoutCounterpart (left_member : member)
| RolesDiffer (left_member right_member : member)
| RightUnconsumed (right_members : list member).

Fixpoint consume (left_member : member) (marked : list (member * bool))
  : match_failure + list (member * bool) :=
  match marked with
  | [] => inl (LeftWithoutCounterpart left_member)
  | (right_member, consumed) :: rest =>
      if negb consumed && String.eqb (expname left_member) (expname right_member)
      then
        if String.eqb (exptype left_member) (exptype right_member)
        then inr ((right_member, true) :: rest)
        else inl (RolesDiffer left_member right_member)
      else
        match consume left_member rest with
        | inl failure => inl failure
        | inr rest' => inr ((right_member, consumed) :: rest')
        end
  end.

Fixpoint consume_all (members_left : list member) (marked : list (member * bool))
  : match_failure + list (member * bool) :=
  match members_left with
  | [] => inr marked
  | left_member :: rest =>
      match consume left_member marked with
      | inl failure => inl failure
      | inr marked' => consume_all rest marked'
      end
  end.

Definition unconsumed (marked : list (member * bool)) : list member :=
  fst <$> List.filter (fun mc => negb (snd mc)) marked.

(** [None]: every member is matched; otherwise the first failure. *)
Definition bijective_match (members_left members_right : list member)
  : option match_failure :=
  match consume_all members_left ((fun m => (m, false)) <$> members_right) with
  | inl failure => Some failure
  | inr marked =>
      match unconsumed marked with
      | [] => None
      | left_over => Some (RightUnconsumed left_over)
      end
  end.

(** What [compare_membership] reports for each failure of the matching. *)
Definition report (failure : match_failure) : diff_failure :=
  match failure with
  | LeftWithoutCounterpart l => NoCounterpart (expname l) (exptype l)
  | RolesDiffer l r => RoleMismatch (expname l) (exptype l) (expname r) (exptype r)
  | RightUnconsumed left_over => Unaccounted (length left_over)
  end.

(** An order of visit lists each element of the set once. *)
Definition visits_each_once (set_order : gset string -> list string) : Prop :=
  forall X : gset string, set_order X ≡ₚ elements X.

(** Exactly one product. *)
Definition single_product (asn : association) : Prop :=
  length (products asn) = 1.

(** The name of the first product, for an association that has one. *)
Definition first_name (asn : association) : string :=
  match products asn with
  | p :: _ => name p
  | [] => EmptyString
  end.

(** The names listed more than once, as [get_product_names] flags them. *)
Definition duplicates (names : list string) : list string :=
  fst <$> List.filter (fun nc => Nat.ltb 1 (snd nc)) (Counter names).

(** ** Sample associations *)

Definition o001 : ACID := {| acid_id := "o001"; acid_type := "observation" |}.

Definition exposure (e role : string) : member :=
  {| expname := e; exptype := role; exposerr := None |}.

(** The end-to-end sample of the diff engine: product "p" with members
    [a:science, b:background] on the left; the same members in the other
    order on the right; and the right side with [b] turned into science. *)
Definition diff_left : association :=
  {| asn_type := "image2"; asn_id := "o001"; acid := o001;
     products := [ {| name := "p";
                      members := [exposure "a" "science"; exposure "b" "background"] |} ] |}.

Definition diff_right : association :=
  {| asn_type := "image2"; asn_id := "o001"; acid := o001;
     products := [ {| name := "p";
                      members := [exposure "b" "background"; exposure "a" "science"] |} ] |}.

Definition diff_right_changed : association :=
  {| asn_type := "image2"; asn_id := "o001"; acid := o001;
     products := [ {| name := "p";
                      members := [exposure "b" "science"; exposure "a" "science"] |} ] |}.

(** An association with one product of the given name. *)
Definition product_called (product_name : string) : association :=
  {| asn_type := "image2"; asn_id := "o001"; acid := o001;
     products := [ {| name := product_name;
                      members := [exposure "a" "science"] |} ] |}.

(** ** The level-1b file name pattern, stated on the text *)

(** Every character is one a regular-expression dot matches. *)
Fixpoint all_dot (s : string) : bool :=
  match s with
  | EmptyString => true
  | String c s' => is_dot c && all_dot s'
  end.

(** A name matches ['<path>_uncal<extension>'] when it starts with a
    non-empty path, then ["_uncal"], then an extension made of a period and
    at least one more character (path and extension on one line); this is
    what [re.match] asks of the start of the name. *)
Definition level1b_pattern (s : string) : Prop :=
  exists path e tail,
    s = path +:+ "_uncal" +:+ "." +:+ e +:+ tail
    /\ path <> EmptyString /\ all_dot path = true
    /\ e <> EmptyString /\ all_dot e = true.

(** ** Reference definitions for the merge *)

(** [R] holds between every element and each later one. *)
Fixpoint pairwise {A} (R : A -> A -> bool) (l : list A) : bool :=
  match l with
  | [] => true
  | x :: l' => forallb (R x) l' && pairwise R l'
  end.

Definition same_key (a b : association) : bool :=
  String.eqb (asn_type a) (asn_type b) && String.eqb (asn_id a) (asn_id b).

(** No exposure name occurs in two associations of one (asn_type, asn_id)
    key. *)
Definition no_shared_exposure (asns : list association) : bool :=
  pairwise (fun a b => negb (same_key a b)
                       || bool_decide (member_ids a ∩ member_ids b = ∅)) asns.

(** The product has the given name. *)
Definition named (n : string) (p : product) : bool := String.eqb (name p) n.

(** The incoming members a product lacks, by exposure name. *)
Definition new_members (current incoming : list member) : list member :=
  List.filter (fun m => bool_decide (expname m ∉ expnames current)) incoming.

(** Samples: two associations of one key with different products, and two
    whose like-named products give exposure "y" different roles. *)
Definition merge_left : association :=
  {| asn_type := "image2"; asn_id := "o001"; acid := o001;
     products := [ {| name := "P"; members := [exposure "x" "science"] |} ] |}.

Definition merge_right : association :=
  {| asn_type := "image2"; asn_id := "o001"; acid := o001;
     products := [ {| name := "Q"; members := [exposure "y" "science"] |} ] |}.

Definition role_left : association :=
  {| asn_type := "image2"; asn_id := "o001"; acid := o001;
     products := [ {| name := "P";
                      members := [exposure "x" "science"; exposure "y" "science"] |} ] |}.

Definition role_right : association :=
  {| asn_type := "image2"; asn_id := "o001"; acid := o001;
     products := [ {| name := "P";
                      members := [exposure "y" "background"; exposure "z" "science"] |} ] |}.

(** ** Samples for pruning and nod splitting *)

Definition c002 : ACID := {| acid_id := "c002"; acid_type := "background" |}.

(** One product "P" made from the same exposures under the observation
    candidate "o001" and under the background candidate "c002". *)
Definition prune_o001 : association :=
  {| asn_type := "spec2"; asn_id := "o001"; acid := o001;
     products := [ {| name := "P";
                      members := [exposure "y" "science"; exposure "x" "background"] |} ] |}.

Definition prune_c002 : association :=
  {| asn_type := "spec2"; asn_id := "c002"; acid := c002;
     products := [ {| name := "P";
                      members := [exposure "y" "science"; exposure "x" "background"] |} ] |}.

(** The other nod of the same two exposures: product "Q", alone of its
    name. *)
Definition prune_other : association :=
  {| asn_type := "spec2"; asn_id := "o001"; acid := o001;
     products := [ {| name := "Q";
                      members := [exposure "x" "science"; exposure "y" "background"] |} ] |}.

(** Stand-ins for the path functions on names without directory, extension
    or known suffix. *)
Definition no_extension (s : string) : string * string := (s, EmptyString).
Definition no_directory (s : string) : string * string := (EmptyString, s).

(** A nodded sequence of three science exposures and a target
    acquisition. *)
Definition nod_sample : association :=
  {| asn_type := "spec2"; asn_id := "o001"; acid := o001;
     products := [ {| name := "jw001_nod1";
                      members := [exposure "jw001_nod1" "science";
                                  exposure "jw001_acq" "target_acquisition";
                                  exposure "jw001_nod2" "science";
                                  exposure "jw001_nod3" "science"] |} ] |}.

(** The association of "P" under "c002" when the background candidate
    also brings a background exposure of its own. *)
Definition prune_c002_more : association :=
  {| asn_type := "spec2"; asn_id := "c002"; acid := c002;
     products := [ {| name := "P";
                      members := [exposure "y" "science"; exposure "x" "background";
                                  exposure "b" "background"] |} ] |}.

(** An association holding two products of one name. *)
Definition merge_like_named : association :=
  {| asn_type := "image2"; asn_id := "o001"; acid := o001;
     products := [ {| name := "P"; members := [exposure "x" "science"] |};
                   {| name := "P"; members := [exposure "y" "science"] |} ] |}.

(** ** Further definitions *)

(** [DMSLevel2bBase.__ne__] *)
Definition asn_ne (self other : association) : bool := negb (asn_eq self other).

(** The number of occurrences of a name. *)
Definition occurrences (n : string) (names : list string) : nat :=
  length (List.filter (String.eqb n) names).

(** ['c'.join(toks)] for a one-character separator. *)
Fixpoint join (c : ascii) (toks : list string) : string :=
  match toks with
  | [] => EmptyString
  | [tok] => tok
  | tok :: rest => tok +:+ String c (join c rest)
  end.

(** No character of the token is a separator of [components]. *)
Fixpoint plain_token (s : string) : bool :=
  match s with
  | EmptyString => true
  | String c s' => negb (is_sep c) && plain_token s'
  end.

(** What the comparison of members looks at. *)
Definition name_and_role (m : member) : string * string := (expname m, exptype m).

(** The products whose name has the components [c], in order. *)
Definition class_at (c : gset string) (ps : list product) : list product :=
  List.filter (fun p => bool_decide (components (name p) = c)) ps.

(** The members of two products match. *)
Definition members_match (p q : product) : Prop :=
  match_members (members p) (members q) = Ok [].

(** Keys in ascending order of [str]: each is at most every later one. *)
Fixpoint ascending (keys : list string) : Prop :=
  match keys with
  | [] => True
  | k :: rest => Forall (fun k' => String.leb k k' = true) rest /\ ascending rest
  end.

(** The number of associations of the list that [==] holds equal to [c]. *)
Definition like_count (c : association) (l : list association) : nat :=
  length (List.filter (asn_eq c) l).

(** What [prune_duplicate_products] asks to remove: of every group, all
    but the first in candidate order. *)
Definition removals (to_prune : list (string * list association))
  : list association :=
  mjoin ((fun g => tail (sort_by_candidate (snd g))) <$> to_prune).

(** The first product name is one of [dups]. *)
Definition in_dups (dups : list string) (asn : association) : bool :=
  bool_decide (first_name asn ∈ dups).

(** The first product has the given name. *)
Definition first_named (n : string) (asn : association) : bool :=
  String.eqb (first_name asn) n.

(** No two associations of the list are equal under [==]. *)
Definition distinct_under_eq (asns : list association) : Prop :=
  forall i j a b,
    asns !! i = Some a -> asns !! j = Some b -> asn_eq a b = true -> i = j.

(** The text holds no underscore. *)
Fixpoint no_underscore (s : string) : bool :=
  match s with
  | EmptyString => true
  | String c s' => negb (Ascii.eqb c "_"%char) && no_underscore s'
  end.

(** The keys in order of first appearance, each once. *)
Definition first_seen (keys : list string) : list string :=
  foldl (fun seen k => if bool_decide (k ∈ seen) then seen else seen ++ [k]) [] keys.

(** The exposure is a member of one of the products. *)
Definition exposure_in (e : string) (ps : list product) : Prop :=
  exists p m, p ∈ ps /\ m ∈ members p /\ expname m = e.

(** The associations of key [k], in order. *)
Definition keyed (k : string) (asns : list association) : list association :=
  List.filter (fun a => String.eqb (merge_idx a) k) asns.

(** Like-named products hold the same exposure names. *)
Definition like_named_agree (ps : list product) : Prop :=
  forall p q, p ∈ ps -> q ∈ ps -> name p = name q ->
    forall e, e ∈ expnames (members p) <-> e ∈ expnames (members q).

(** The exposure is a member of the product at position [k]. *)
Definition exposure_at (ps : list product) (k : nat) (e : string) : Prop :=
  exists p, ps !! k = Some p /\ e ∈ expnames (members p).

(** The products at positions [i] and [k] have one name. *)
Definition like_at (ps : list product) (i k : nat) : Prop :=
  exists n, (name <$> ps) !! i = Some n /\ (name <$> ps) !! k = Some n.

(** * Properties *)

(** ** Python list primitives *)

Lemma dict_eq_refl {A} `{EqDecision A} (a : A) : dict_eq a a = true.
Proof. unfold dict_eq. by apply bool_decide_eq_true. Qed.

Lemma dict_eq_true {A} `{EqDecision A} (a b : A) : dict_eq a b = true <-> a = b.
Proof. unfold dict_eq. apply bool_decide_eq_true. Qed.

Lemma bind_Ok {A B} (r : result A) (k : A -> result B) (b : B) :
  bind r k = Ok b <-> exists a, r = Ok a /\ k a = Ok b.
Proof.
  destruct r as [a|e]; simpl; split.
  - intros H. by exists a.
  - by intros (a' & [= ->] & H).
  - done.
  - by intros (a' & [=] & _).
Qed.

Lemma py_assert_Ok cond f : py_assert cond f = Ok tt <-> cond = true.
Proof. unfold py_assert. destruct cond; split; congruence. Qed.

Lemma passes_true {A} (r : result A) : passes r = true <-> exists v, r = Ok v.
Proof.
  destruct r; simpl; split; eauto; try done.
  by intros [? [=]].
Qed.

(** ** diff.py: matching the members of two products *)

(** One step of the scan for the counterpart of a left member. *)
Lemma match_member_cons l x R :
  match_member l (x :: R) =
    if String.eqb (expname l) (expname x) then
      if String.eqb (exptype l) (exptype x) then Ok R
      else Raise (AssertionError
                    (RoleMismatch (expname l) (exptype l) (expname x) (exptype x)))
    else
      let* R' := match_member l R in Ok (x :: R').
Proof.
  unfold match_member at 1. simpl.
  destruct (String.eqb (expname l) (expname x)) eqn:He.
  - destruct (String.eqb (exptype l) (exptype x)); simpl; [|done].
    unfold remove_or_raise. simpl. by rewrite dict_eq_refl.
  - unfold match_member.
    destruct (find _ R) as [r|] eqn:Hf; [|done].
    destruct (String.eqb (exptype l) (exptype r)); simpl; [|done].
    unfold remove_or_raise. simpl.
    apply find_some in Hf as [_ Hr].
    destruct (dict_eq x r) eqn:Hx.
    + apply (proj1 (dict_eq_true x r)) in Hx. subst. simpl in Hr. congruence.
    + by destruct (list_remove dict_eq r R).
Qed.

Lemma match_member_nil l :
  match_member l [] = Raise (AssertionError (NoCounterpart (expname l) (exptype l))).
Proof. reflexivity. Qed.

Lemma roles_at_cons e x ms :
  roles_at e (x :: ms) =
    if String.eqb (expname x) e then exptype x :: roles_at e ms else roles_at e ms.
Proof. unfold roles_at. simpl. by destruct (String.eqb (expname x) e). Qed.

(** A consumed counterpart is the first right member with the left
    member's exposure name, and it has the left member's role. *)
Lemma match_member_roles l R R' e :
  match_member l R = Ok R' ->
  roles_at e R =
    if String.eqb (expname l) e then exptype l :: roles_at e R' else roles_at e R'.
Proof.
  revert R'. induction R as [|x R IH]; intros R'.
  - by rewrite match_member_nil.
  - rewrite match_member_cons.
    destruct (String.eqb (expname l) (expname x)) eqn:He.
    + destruct (String.eqb (exptype l) (exptype x)) eqn:Ht; [|done].
      intros [= <-]. apply String.eqb_eq in He, Ht.
      rewrite roles_at_cons, <- He, Ht. done.
    + intros (R1 & H1 & [= <-])%bind_Ok.
      rewrite !roles_at_cons, (IH _ H1).
      destruct (String.eqb (expname x) e) eqn:Hx, (String.eqb (expname l) e) eqn:Hl;
        try done.
      apply String.eqb_eq in Hx, Hl. apply String.eqb_neq in He. congruence.
Qed.

Lemma match_member_length l R R' :
  match_member l R = Ok R' -> length R = S (length R').
Proof.
  revert R'. induction R as [|x R IH]; intros R'.
  - by rewrite match_member_nil.
  - rewrite match_member_cons.
    destruct (String.eqb (expname l) (expname x)).
    + destruct (String.eqb (exptype l) (exptype x)); [|done].
      by intros [= <-].
    + intros (R1 & H1 & [= <-])%bind_Ok. simpl. by rewrite (IH _ H1).
Qed.

Lemma match_member_total l R t :
  roles_at (expname l) R = exptype l :: t ->
  exists R', match_member l R = Ok R'.
Proof.
  induction R as [|x R IH]; [done|].
  rewrite roles_at_cons, match_member_cons, (String.eqb_sym (expname l)).
  destruct (String.eqb (expname x) (expname l)).
  - intros [= -> _]. rewrite String.eqb_refl. eauto.
  - intros [R' ->]%IH. simpl. eauto.
Qed.

Lemma match_members_length L R R' :
  match_members L R = Ok R' -> length R = length L + length R'.
Proof.
  revert R. induction L as [|l L IH]; intros R; simpl.
  - by intros [= ->].
  - intros (R1 & H1 & H2)%bind_Ok.
    apply match_member_length in H1. apply IH in H2. lia.
Qed.

Lemma roles_at_nil_all R : (forall e, roles_at e R = []) -> R = [].
Proof.
  destruct R as [|x R]; [done|]. intros H. specialize (H (expname x)).
  by rewrite roles_at_cons, String.eqb_refl in H.
Qed.

(** All left members find their counterpart and no right member is left
    exactly when, exposure name by exposure name, both sides list the same
    roles in the same order. *)
Lemma match_members_roles L R :
  match_members L R = Ok [] <-> forall e, roles_at e L = roles_at e R.
Proof.
  revert R. induction L as [|l L IH]; intros R; simpl.
  - split.
    + by intros [= ->].
    + intros H. f_equal. apply roles_at_nil_all. intros e. by rewrite <- H.
  - split.
    + intros (R1 & H1 & H2)%bind_Ok e.
      rewrite roles_at_cons, (match_member_roles _ _ _ e H1).
      pose proof (proj1 (IH R1) H2) as H3. rewrite (H3 e). done.
    + intros H.
      destruct (match_member_total l R (roles_at (expname l) L)) as [R1 H1].
      { by rewrite <- H, roles_at_cons, String.eqb_refl. }
      rewrite H1. simpl. apply (proj2 (IH R1)). intros e.
      specialize (H e). rewrite roles_at_cons, (match_member_roles _ _ _ e H1) in H.
      destruct (String.eqb (expname l) e); congruence.
Qed.

Lemma match_members_sym L R :
  match_members L R = Ok [] <-> match_members R L = Ok [].
Proof. rewrite !match_members_roles. split; intros H e; by rewrite H. Qed.

Lemma compare_members_Ok li ri pl pr :
  compare_members li ri pl pr = Ok tt <->
  match_members (members pl) (members pr) = Ok [].
Proof.
  unfold compare_members. split.
  - intros (_ & _ & (R' & H1 & H2)%bind_Ok)%bind_Ok.
    apply py_assert_Ok, Nat.eqb_eq in H2.
    destruct R'; [done|discriminate].
  - intros H. pose proof (match_members_length _ _ _ H) as Hlen.
    simpl in Hlen. rewrite Nat.add_0_r in Hlen.
    rewrite Hlen, Nat.eqb_refl, H. done.
Qed.

Lemma compare_members_passes_sym li ri li' ri' pl pr :
  passes (compare_members li ri pl pr) = passes (compare_members li' ri' pr pl).
Proof.
  apply eq_true_iff_eq. rewrite !passes_true.
  split; intros [[] H]; exists tt; apply compare_members_Ok;
    apply compare_members_Ok in H; by apply match_members_sym.
Qed.

(** ** diff.py: the code's matching against the matching with marks *)

Lemma unconsumed_cons m c marked :
  unconsumed ((m, c) :: marked) =
    if c then unconsumed marked else m :: unconsumed marked.
Proof. unfold unconsumed. simpl. by destruct c. Qed.

Lemma unconsumed_fresh R : unconsumed ((fun m => (m, false)) <$> R) = R.
Proof.
  induction R as [|x R IH]; [done|].
  rewrite fmap_cons, unconsumed_cons. by f_equal.
Qed.

Lemma consume_match_member l marked :
  match_member l (unconsumed marked) =
    match consume l marked with
    | inl failure => Raise (AssertionError (report failure))
    | inr marked' => Ok (unconsumed marked')
    end.
Proof.
  induction marked as [|[r c] marked IH]; [done|].
  rewrite unconsumed_cons. simpl. destruct c; simpl.
  - rewrite IH. destruct (consume l marked) as [f|marked']; [done|].
    by rewrite unconsumed_cons.
  - rewrite match_member_cons.
    destruct (String.eqb (expname l) (expname r)).
    + destruct (String.eqb (exptype l) (exptype r)); [|done].
      by rewrite unconsumed_cons.
    + rewrite IH. destruct (consume l marked) as [f|marked']; [done|].
      by rewrite unconsumed_cons.
Qed.

Lemma consume_all_match_members L marked :
  match_members L (unconsumed marked) =
    match consume_all L marked with
    | inl failure => Raise (AssertionError (report failure))
    | inr marked' => Ok (unconsumed marked')
    end.
Proof.
  revert marked. induction L as [|l L IH]; intros marked; [done|].
  simpl. rewrite consume_match_member.
  destruct (consume l marked) as [f|marked']; [done|].
  simpl. apply IH.
Qed.

(** The length test ahead of the matching only changes which failure is
    reported: the comparison of two member lists succeeds exactly when the
    matching with marks does, and with lists of one length it reports the
    failure of that matching. *)
Lemma compare_members_bijective li ri pl pr :
  compare_members li ri pl pr =
    match bijective_match (members pl) (members pr) with
    | None => Ok tt
    | Some failure =>
        Raise (AssertionError
                 (if Nat.eqb (length (members pr)) (length (members pl))
                  then report failure
                  else MemberLengthDiffers li (length (members pl))
                                           ri (length (members pr))))
    end.
Proof.
  unfold bijective_match.
  pose proof (consume_all_match_members (members pl)
                ((fun m => (m, false)) <$> members pr)) as Hsim.
  rewrite unconsumed_fresh in Hsim.
  destruct (consume_all _ _) as [f|marked'] eqn:Hc.
  - unfold compare_members. rewrite Hsim.
    by destruct (Nat.eqb _ _).
  - destruct (unconsumed marked') as [|x rest] eqn:Hu.
    + by apply compare_members_Ok.
    + unfold compare_members. rewrite Hsim.
      by destruct (Nat.eqb _ _).
Qed.

(** ** diff.py: associations with a single product *)

Lemma compare_membership_single left right pl pr :
  products left = [pl] -> products right = [pr] ->
  compare_membership left right =
    if bool_decide (components (name pr) = components (name pl))
    then let* _ := compare_members 0 0 pl pr in Ok true
    else Raise (AssertionError (LeftLeftOver 1)).
Proof.
  intros Hl Hr. unfold compare_membership. rewrite Hl, Hr. simpl.
  case_bool_decide; [|done].
  destruct (compare_members 0 0 pl pr) as [[]|e]; [|done].
  simpl. unfold remove_or_raise. simpl. by rewrite dict_eq_refl.
Qed.

Lemma single_product_inv asn :
  single_product asn -> exists p, products asn = [p].
Proof.
  unfold single_product. destruct (products asn) as [|p [|q ps]]; try done.
  by exists p.
Qed.

Lemma first_product_names_single asns :
  Forall single_product asns ->
  first_product_names asns = Ok (first_name <$> asns).
Proof.
  induction 1 as [|asn asns [p Hp]%single_product_inv _ IH]; [done|].
  simpl. unfold first_name at 1. rewrite Hp, IH. done.
Qed.

Lemma get_product_names_single asns :
  Forall single_product asns ->
  get_product_names asns =
    Ok (list_to_set (first_name <$> asns), duplicates (first_name <$> asns)).
Proof.
  intros H. unfold get_product_names. by rewrite first_product_names_single.
Qed.

Lemma passes_compare_asns left right :
  passes (compare_asns left right) = passes (_compare_asns left right).
Proof.
  unfold compare_asns. by destruct (_compare_asns left right) as [|[]].
Qed.

Lemma passes_bind {A B} (r : result A) (k : A -> result B) :
  passes (bind r k) =
    match r with
    | Ok v => passes (k v)
    | Raise _ => false
    end.
Proof. by destruct r. Qed.

Lemma passes_py_assert cond f : passes (py_assert cond f) = cond.
Proof. by destruct cond. Qed.

Lemma passes_assert_bind {B} cond f (k : unit -> result B) :
  passes (bind (py_assert cond f) k) = cond && passes (k tt).
Proof. by destruct cond. Qed.

(** Two single-product associations compare the same way in both orders. *)
Lemma compare_asns_passes_sym a b :
  single_product a -> single_product b ->
  passes (compare_asns a b) = passes (compare_asns b a).
Proof.
  intros [pa Ha]%single_product_inv [pb Hb]%single_product_inv.
  rewrite !passes_compare_asns. unfold _compare_asns.
  rewrite (String.eqb_sym (asn_type a)).
  destruct (String.eqb (asn_type b) (asn_type a)); [|done]. simpl.
  destruct (asn_id a) as [|ca ida], (asn_id b) as [|cb idb]; try done. simpl.
  rewrite (Ascii.eqb_sym ca).
  destruct (Ascii.eqb cb ca); [|done]. simpl.
  rewrite (compare_membership_single a b pa pb), (compare_membership_single b a pb pa)
    by done.
  rewrite (bool_decide_ext (components (name pb) = components (name pa))
                           (components (name pa) = components (name pb)))
    by (split; congruence).
  case_bool_decide; [|done].
  rewrite !passes_bind.
  pose proof (compare_members_passes_sym 0 0 0 0 pa pb) as Hs.
  by destruct (compare_members 0 0 pa pb), (compare_members 0 0 pb pa).
Qed.

Lemma asn_by_product_In asns n a :
  asn_by_product asns n = Ok a -> a ∈ asns.
Proof.
  unfold asn_by_product.
  destruct (find _ _) as [x|] eqn:Hf; [|done].
  intros [= <-]. apply find_some in Hf as [Hin _].
  apply list_elem_of_In. by apply in_rev.
Qed.

(** The loop over the product names passes when every name has its
    association on either side and the two compare equal; the order of the
    names does not matter. *)
Lemma passes_compare_like_products A B ns :
  passes (compare_like_products A B ns) = true <->
  Forall (fun n => exists a b,
            asn_by_product A n = Ok a /\ asn_by_product B n = Ok b
            /\ passes (compare_asns a b) = true) ns.
Proof.
  induction ns as [|n ns IH]; simpl.
  - split; [by intros _; apply Forall_nil_2|done].
  - rewrite Forall_cons, <- IH. clear IH.
    destruct (asn_by_product A n) as [a|ea]; simpl.
    2: { split; [done|]. by intros [(? & ? & [=] & _) _]. }
    destruct (asn_by_product B n) as [b|eb]; simpl.
    2: { split; [done|]. by intros [(? & ? & _ & [=] & _) _]. }
    destruct (compare_asns a b) as [v|e] eqn:Hc; simpl.
    + split; [|tauto]. intros H. split; [|done].
      exists a, b. repeat split. by rewrite Hc.
    + split; [done|]. intros [(a' & b' & [= <-] & [= <-] & Hp) _].
      by rewrite Hc in Hp.
Qed.

Lemma compare_like_products_sym A B ns ns' :
  Forall single_product A -> Forall single_product B -> ns ≡ₚ ns' ->
  passes (compare_like_products A B ns) = true <->
  passes (compare_like_products B A ns') = true.
Proof.
  intros HA HB Hperm. rewrite !passes_compare_like_products, Hperm.
  apply Forall_iff. intros n. split.
  - intros (a & b & Ha & Hb & Hp). exists b, a. repeat split; try done.
    rewrite <- compare_asns_passes_sym; [done| |].
    + eapply Forall_forall; [exact HA|]. by eapply asn_by_product_In.
    + eapply Forall_forall; [exact HB|]. by eapply asn_by_product_In.
  - intros (b & a & Hb & Ha & Hp). exists a, b. repeat split; try done.
    rewrite compare_asns_passes_sym; [done| |].
    + eapply Forall_forall; [exact HA|]. by eapply asn_by_product_In.
    + eapply Forall_forall; [exact HB|]. by eapply asn_by_product_In.
Qed.

Lemma name_diff_sym (X Y : gset string) :
  (X ∖ Y) ∪ (Y ∖ X) = (Y ∖ X) ∪ (X ∖ Y).
Proof. apply union_comm_L. Qed.

Lemma name_diff_empty (X Y : gset string) :
  (X ∖ Y) ∪ (Y ∖ X) = ∅ <-> X = Y.
Proof.
  split.
  - intros H. apply set_eq. intros x.
    assert (x ∉ (X ∖ Y) ∪ (Y ∖ X)) as Hx.
    { rewrite H. apply not_elem_of_empty. }
    rewrite elem_of_union, !elem_of_difference in Hx.
    destruct (decide (x ∈ X)), (decide (x ∈ Y)); tauto.
  - intros ->. apply set_eq. intros x.
    rewrite elem_of_union, !elem_of_difference, elem_of_empty. tauto.
Qed.

(** C5.  The comparison of two lists of single-product associations
    completes without raising in one order exactly when it does in the
    other: [compare_asn_lists(A, B)] and [compare_asn_lists(B, A)] agree on
    pass or fail, in whatever order the two calls visit their set of
    product names. *)
Theorem compare_asn_lists_symmetric
    (set_order set_order' : gset string -> list string) (A B : list association) :
  visits_each_once set_order -> visits_each_once set_order' ->
  Forall single_product A -> Forall single_product B ->
  passes (compare_asn_lists_in set_order A B) = true <->
  passes (compare_asn_lists_in set_order' B A) = true.
Proof.
  intros Ho Ho' HA HB.
  unfold compare_asn_lists_in.
  rewrite (get_product_names_single A HA), (get_product_names_single B HB).
  cbn [bind]. rewrite !passes_assert_bind.
  rewrite (name_diff_sym (list_to_set (first_name <$> B))).
  destruct (bool_decide (duplicates (first_name <$> A) = [])),
           (bool_decide (duplicates (first_name <$> B) = []));
    cbn [andb]; try done.
  case_bool_decide as Hd; cbn [andb]; [|done].
  apply (proj1 (name_diff_empty _ _)) in Hd. rewrite <- Hd.
  apply compare_like_products_sym; [done|done|].
  by rewrite (Ho _), (Ho' _).
Qed.

(** A set of one name is visited in one way. *)
Lemma set_order_singleton set_order (n : string) :
  visits_each_once set_order -> set_order (list_to_set [n]) = [n].
Proof.
  intros Ho. apply Permutation_singleton_r.
  rewrite (Ho _). simpl. by rewrite (right_id_L ∅ (∪)), elements_singleton.
Qed.

(** Two lists of one association each, the products of one name: the
    comparison of the lists is the comparison of the two associations. *)
Lemma compare_asn_lists_in_single set_order a b pa pb :
  visits_each_once set_order ->
  products a = [pa] -> products b = [pb] -> name pa = name pb ->
  compare_asn_lists_in set_order [a] [b] = let* _ := compare_asns a b in Ok tt.
Proof.
  intros Ho Ha Hb Hn. unfold compare_asn_lists_in, get_product_names. simpl.
  rewrite Ha, Hb. simpl. rewrite <- Hn.
  rewrite (bool_decide_eq_true_2 _ (proj2 (name_diff_empty _ _) eq_refl)). simpl.
  change ({[name pa]} ∪ ∅ : gset string) with (list_to_set [name pa] : gset string).
  rewrite (set_order_singleton set_order (name pa) Ho). simpl.
  unfold asn_by_product. simpl. rewrite Ha, Hb, <- Hn, String.eqb_refl. simpl.
  by destruct (compare_asns a b).
Qed.

(** C6.  For two associations with one product each, the products alike in
    name, [compare_membership] matches the members one to one by exposure
    name: it succeeds exactly when the matching with consumption marks
    succeeds, and raises when that matching finds a left member without
    unconsumed counterpart, a matched pair of different roles, or right
    members left unconsumed (with member lists of different lengths it is
    the length test ahead of the matching that reports).  On the sample,
    left [a:science, b:background] against right [b:background, a:science]
    succeeds, and with [b] turned into science on the right the comparison
    raises the role mismatch of [b]. *)
Theorem compare_membership_bijective :
  (forall (left right : association) (pl pr : product),
      products left = [pl] -> products right = [pr] ->
      components (name pl) = components (name pr) ->
      compare_membership left right =
        match bijective_match (members pl) (members pr) with
        | None => Ok true
        | Some failure =>
            Raise (AssertionError
                     (if Nat.eqb (length (members pr)) (length (members pl))
                      then report failure
                      else MemberLengthDiffers 0 (length (members pl))
                                               0 (length (members pr))))
        end)
  /\ (forall set_order, visits_each_once set_order ->
       compare_asn_lists_in set_order [diff_left] [diff_right] = Ok tt)
  /\ (forall set_order, visits_each_once set_order ->
       compare_asn_lists_in set_order [diff_left] [diff_right_changed] =
         Raise (AssertionError
                  (AsnMismatch (RoleMismatch "b" "background" "b" "science")))).
Proof.
  split; [|split].
  - intros left right pl pr Hl Hr Hc.
    rewrite (compare_membership_single left right pl pr Hl Hr).
    rewrite bool_decide_eq_true_2 by done.
    rewrite compare_members_bijective.
    by destruct (bijective_match (members pl) (members pr)).
  - intros set_order Ho.
    by rewrite (compare_asn_lists_in_single set_order diff_left diff_right _ _ Ho
                  eq_refl eq_refl eq_refl).
  - intros set_order Ho.
    by rewrite (compare_asn_lists_in_single set_order diff_left diff_right_changed
                  _ _ Ho eq_refl eq_refl eq_refl).
Qed.

Lemma compare_membership_bijective_witness :
  compare_membership diff_left diff_right_changed =
    Raise (AssertionError (RoleMismatch "b" "background" "b" "science")).
Proof.
  exact (proj1 compare_membership_bijective diff_left diff_right_changed
           _ _ eq_refl eq_refl eq_refl).
Defined.

(** The list-level comparison first demands the very same product names on
    both sides. *)
Lemma compare_asn_lists_same_names set_order A B :
  Forall single_product A -> Forall single_product B ->
  passes (compare_asn_lists_in set_order A B) = true ->
  list_to_set (first_name <$> A) =@{gset string} list_to_set (first_name <$> B).
Proof.
  intros HA HB. unfold compare_asn_lists_in.
  rewrite (get_product_names_single A HA), (get_product_names_single B HB).
  cbn [bind]. rewrite !passes_assert_bind.
  intros H.
  apply andb_true_iff in H as [_ H].
  apply andb_true_iff in H as [_ H].
  apply andb_true_iff in H as [Hd _].
  apply bool_decide_eq_true in Hd. by apply name_diff_empty.
Qed.

Lemma passes_compare_asns_single left right pl pr c idl idr :
  products left = [pl] -> products right = [pr] ->
  asn_type left = asn_type right ->
  asn_id left = String c idl -> asn_id right = String c idr ->
  passes (compare_asns left right) = true <->
  components (name pl) = components (name pr)
  /\ bijective_match (members pl) (members pr) = None.
Proof.
  intros Hl Hr Ht Hil Hir.
  rewrite passes_compare_asns. unfold _compare_asns.
  rewrite Ht, String.eqb_refl, Hil, Hir. cbn [bind py_assert first_char].
  rewrite Ascii.eqb_refl. cbn [bind py_assert].
  rewrite (compare_membership_single left right pl pr Hl Hr).
  case_bool_decide as Hc.
  - rewrite compare_members_bijective.
    destruct (bijective_match (members pl) (members pr)); simpl.
    + split; [done|]. by intros [_ [=]].
    + split; [|done]. by intros _.
  - simpl. split; [done|]. intros [Hc' _]. by rewrite Hc' in Hc.
Qed.

(** C7, as stated, fails at the entry point for lists: two lists whose
    product names have the same tokens in another order do not compare
    equal, the names "jw00001_nrs_cal" and "jw00001_cal_nrs" being reported
    as products the two sides do not share. *)
Lemma token_sets_at_list_level_counterexample :
  components "jw00001_nrs_cal" = components "jw00001_cal_nrs"
  /\ compare_asn_lists [product_called "jw00001_nrs_cal"] [product_called "jw00001_cal_nrs"] =
       Raise (AssertionError
                (NoCommonProducts
                   (list_to_set ["jw00001_nrs_cal"; "jw00001_cal_nrs"]))).
Proof. split; vm_compute; reflexivity. Qed.

(** C7, amended.  [compare_asns] and [compare_membership] compare product
    names by token set: for two single-product associations of one type and
    one candidate level, the comparison succeeds exactly when the sets of
    tokens of the two product names (split on '_' and '-') are equal and the
    members match; so "jw00001_nrs_cal" and "jw00001_cal_nrs" compare equal
    under [compare_asns] and "jw00001_nrs_cal" and "jw00001_mir_cal" do
    not.  [compare_asn_lists] passes only lists that carry the very same
    product names. *)
Theorem compare_asns_by_token_set :
  (forall (left right : association) (pl pr : product) (c : ascii) (idl idr : string),
      products left = [pl] -> products right = [pr] ->
      asn_type left = asn_type right ->
      asn_id left = String c idl -> asn_id right = String c idr ->
      passes (compare_asns left right) = true <->
      components (name pl) = components (name pr)
      /\ bijective_match (members pl) (members pr) = None)
  /\ compare_asns (product_called "jw00001_nrs_cal") (product_called "jw00001_cal_nrs") = Ok true
  /\ compare_asns (product_called "jw00001_nrs_cal") (product_called "jw00001_mir_cal") =
       Raise (AssertionError (AsnMismatch (LeftLeftOver 1)))
  /\ (forall (set_order : gset string -> list string) (A B : list association),
         Forall single_product A -> Forall single_product B ->
         passes (compare_asn_lists_in set_order A B) = true ->
         list_to_set (first_name <$> A) =@{gset string} list_to_set (first_name <$> B)).
Proof.
  split; [|split; [|split]].
  - apply passes_compare_asns_single.
  - vm_compute. reflexivity.
  - vm_compute. reflexivity.
  - apply compare_asn_lists_same_names.
Qed.

Lemma compare_asns_by_token_set_witness :
  passes (compare_asns (product_called "jw00001_nrs_cal") (product_called "jw00001_cal_nrs")) = true <->
  components "jw00001_nrs_cal" = components "jw00001_cal_nrs"
  /\ bijective_match [exposure "a" "science"] [exposure "a" "science"] = None.
Proof.
  exact (proj1 compare_asns_by_token_set
           (product_called "jw00001_nrs_cal") (product_called "jw00001_cal_nrs")
           _ _ "o"%char "001" "001" eq_refl eq_refl eq_refl eq_refl eq_refl).
Defined.

Lemma compare_asn_lists_symmetric_witness :
  passes (compare_asn_lists [diff_left] [diff_right]) = true <->
  passes (compare_asn_lists [diff_right] [diff_left]) = true.
Proof.
  apply (compare_asn_lists_symmetric elements elements [diff_left] [diff_right]).
  - intros X. reflexivity.
  - intros X. reflexivity.
  - apply Forall_cons_2; [reflexivity|apply Forall_nil_2].
  - apply Forall_cons_2; [reflexivity|apply Forall_nil_2].
Defined.

(** ** rename_to_level2a *)

Lemma append_cons c a b : String c a +:+ b = String c (a +:+ b).
Proof. reflexivity. Qed.

Lemma strip_prefix_app p s : strip_prefix p (p +:+ s) = Some s.
Proof.
  induction p as [|a p IH]; [done|]. simpl. by rewrite Ascii.eqb_refl.
Qed.

Lemma strip_prefix_Some p s rest : strip_prefix p s = Some rest -> s = p +:+ rest.
Proof.
  revert s. induction p as [|a p IH]; intros s; simpl.
  - by intros [= ->].
  - destruct s as [|b s]; [done|].
    destruct (Ascii.eqb a b) eqn:E; [|done].
    apply Ascii.eqb_eq in E as ->. by intros ->%IH.
Qed.

Lemma dot_star_app e tail :
  all_dot e = true -> exists rest, dot_star (e +:+ tail) = e +:+ rest.
Proof.
  induction e as [|c e IH]; simpl.
  - intros _. by exists (dot_star tail).
  - intros [Hc He]%andb_true_iff. rewrite Hc.
    destruct (IH He) as [rest ->]. by exists rest.
Qed.

Lemma dot_star_split s :
  exists tail, s = dot_star s +:+ tail /\ all_dot (dot_star s) = true.
Proof.
  induction s as [|c s (tail & IH1 & IH2)]; simpl.
  - by exists EmptyString.
  - destruct (is_dot c) eqn:Hc.
    + exists tail. simpl. rewrite Hc, IH2, append_cons. split; [by f_equal|done].
    + by exists (String c s).
Qed.

Lemma match_type_extension_complete e tail :
  e <> EmptyString -> all_dot e = true ->
  exists ext, match_type_extension ("_uncal" +:+ "." +:+ e +:+ tail) = Some ("_uncal", ext).
Proof.
  intros Hne He. unfold match_type_extension.
  change ("_uncal" +:+ "." +:+ e +:+ tail) with ("_uncal." +:+ (e +:+ tail)).
  rewrite strip_prefix_app.
  destruct (dot_star_app e tail He) as [rest ->].
  destruct e as [|c e]; [done|]. simpl. eauto.
Qed.

Lemma match_type_extension_sound s type ext :
  match_type_extension s = Some (type, ext) ->
  type = "_uncal"
  /\ exists e tail, ext = String "." e /\ s = "_uncal" +:+ "." +:+ e +:+ tail
                    /\ e <> EmptyString /\ all_dot e = true.
Proof.
  unfold match_type_extension.
  destruct (strip_prefix "_uncal." s) as [rest|] eqn:Hp; [|done].
  apply strip_prefix_Some in Hp as ->.
  destruct (dot_star_split rest) as (tail & Hs & Hd).
  destruct (dot_star rest) as [|c e] eqn:He; [done|].
  intros [= <- <-]. split; [done|].
  exists (String c e), tail. repeat split; try done.
  by rewrite <- Hs.
Qed.

Lemma re_match_LEVEL1B_complete path rest g :
  path <> EmptyString -> all_dot path = true ->
  match_type_extension rest = Some g ->
  exists g', re_match_LEVEL1B (path +:+ rest) = Some g'.
Proof.
  intros Hne Hd Hm. induction path as [|c path IH]; [done|].
  simpl in Hd. apply andb_true_iff in Hd as [Hc Hd].
  rewrite append_cons. cbn [re_match_LEVEL1B]. rewrite Hc.
  destruct path as [|c' path].
  - change (EmptyString +:+ rest) with rest.
    destruct (re_match_LEVEL1B rest) as [[[p t] x]|]; [eauto|].
    rewrite Hm. destruct g. eauto.
  - destruct IH as [[[p t] x] ->]; [done|done|]. eauto.
Qed.

Lemma re_match_LEVEL1B_sound s path type ext :
  re_match_LEVEL1B s = Some (path, type, ext) ->
  type = "_uncal"
  /\ path <> EmptyString /\ all_dot path = true
  /\ exists e tail, ext = String "." e /\ s = path +:+ "_uncal" +:+ "." +:+ e +:+ tail
                    /\ e <> EmptyString /\ all_dot e = true.
Proof.
  revert path. induction s as [|c s IH]; intros path; [done|]. simpl.
  destruct (is_dot c) eqn:Hc; [|done].
  destruct (re_match_LEVEL1B s) as [[[p t] x]|] eqn:Hr.
  - intros [= <- <- <-].
    destruct (IH p eq_refl) as (Ht & Hp & Hd & e & tail & -> & Hs & He & Hde).
    repeat split; try done.
    + simpl. by rewrite Hc.
    + exists e, tail. repeat split; try done. simpl. by rewrite Hs at 1.
  - destruct (match_type_extension s) as [[t x]|] eqn:Hm; [|done].
    intros [= <- <- <-].
    apply match_type_extension_sound in Hm as (Ht & e & tail & -> & Hs & He & Hde).
    repeat split; try done.
    + simpl. by rewrite Hc.
    + exists e, tail. repeat split; try done. simpl. by rewrite Hs at 1.
Qed.

(** The matcher decides the pattern. *)
Lemma level1b_pattern_match s :
  level1b_pattern s <-> is_Some (re_match_LEVEL1B s).
Proof.
  split.
  - intros (path & e & tail & -> & Hp & Hd & He & Hde).
    destruct (match_type_extension_complete e tail He Hde) as [ext Hm].
    destruct (re_match_LEVEL1B_complete path _ _ Hp Hd Hm) as [g Hg].
    by exists g.
  - intros [[[path type] ext] Hm].
    apply re_match_LEVEL1B_sound in Hm
      as (_ & Hp & Hd & e & tail & _ & Hs & He & Hde).
    by exists path, e, tail.
Qed.

(** C10.  A file name that does not match ['<path>_uncal<extension>'] is
    returned as it is, whatever [use_integrations]; and a name that
    [rename_to_level2a] changes carries ["_uncal"] followed by an extension,
    the result being the path, ["_rate"] (["_rateints"] with
    [use_integrations]) and that extension. *)
Theorem rename_to_level2a_unchanged (level1b_name : string) (use_integrations : bool) :
  (~ level1b_pattern level1b_name ->
   rename_to_level2a level1b_name use_integrations = level1b_name)
  /\ (rename_to_level2a level1b_name use_integrations <> level1b_name ->
      exists path e tail,
        level1b_name = path +:+ "_uncal" +:+ "." +:+ e +:+ tail
        /\ path <> EmptyString /\ e <> EmptyString
        /\ rename_to_level2a level1b_name use_integrations =
             path +:+ (if use_integrations then "_rateints" else "_rate")
                  +:+ "." +:+ e).
Proof.
  unfold rename_to_level2a.
  destruct (re_match_LEVEL1B level1b_name) as [[[path type] ext]|] eqn:Hm.
  - pose proof (re_match_LEVEL1B_sound _ _ _ _ Hm)
      as (-> & Hp & Hd & e & tail & -> & Hs & He & Hde).
    split.
    + intros Hn. exfalso. apply Hn. by exists path, e, tail.
    + intros _. exists path, e, tail. repeat split; try done.
      by destruct use_integrations.
  - split; [done|]. by intros [].
Qed.

Lemma rename_to_level2a_unchanged_witness :
  rename_to_level2a "jw00001001001_01101_00001_nrca1_rate.fits" true =
    "jw00001001001_01101_00001_nrca1_rate.fits".
Proof.
  apply (proj1 (rename_to_level2a_unchanged
                  "jw00001001001_01101_00001_nrca1_rate.fits" true)).
  intros [g Hg]%level1b_pattern_match. vm_compute in Hg. discriminate Hg.
Defined.

(** ** DMSLevel2bBase: nod splitting and bulk add *)

Local Abbreviation is_science := (fun m : member => String.eqb (exptype m) "science").

Lemma filter_science_nod s others n1 :
  exptype s = "science" -> exptype n1 <> "science" ->
  List.filter is_science (s :: (now_background <$> others) ++ [n1]) = [s].
Proof.
  intros Hs Hn. simpl. rewrite Hs. simpl. f_equal.
  rewrite List.filter_app. simpl.
  apply String.eqb_neq in Hn. rewrite Hn, app_nil_r.
  induction others as [|x others IH]; [done|]. simpl. exact IH.
Qed.

(** Under an observation candidate every split passes the validity
    predicate of the specification: it has its science member. *)
Lemma nod_split_valid_observation self n s rest :
  lower (acid_type (acid self)) = "observation" ->
  exptype s = "science" ->
  is_valid_spec (set_products [ {| name := n; members := s :: rest |} ] self) = true.
Proof.
  intros Hobs Hs. unfold is_valid_spec, has_science, validate_candidates.
  unfold members_by_type, current_product. simpl.
  rewrite Hs, Hobs. reflexivity.
Qed.

(** What the two filters of [make_nod_asns] say of the roles. *)
Lemma nod_roles (ms : list member) (s1 s2 s3 n1 : member) :
  List.filter is_science ms = [s1; s2; s3] ->
  List.filter (fun m => negb (is_science m)) ms = [n1] ->
  exptype s1 = "science" /\ exptype s2 = "science" /\ exptype s3 = "science"
  /\ exptype n1 <> "science".
Proof.
  intros Hsci Hnon.
  assert (Forall (fun m => is_science m = true) [s1; s2; s3]) as HF.
  { rewrite <- Hsci. apply Forall_forall. intros m Hm.
    apply list_elem_of_In, filter_In in Hm. tauto. }
  inversion HF as [|? ? F1 HF2]; subst. inversion HF2 as [|? ? F2 HF3]; subst.
  inversion HF3 as [|? ? F3 _]; subst.
  apply String.eqb_eq in F1, F2, F3. repeat split; try done.
  assert (In n1 (List.filter (fun m => negb (is_science m)) ms)) as Hin.
  { rewrite Hnon. by left. }
  apply filter_In in Hin as [_ Hin]. apply negb_true_iff in Hin.
  by apply String.eqb_neq.
Qed.

Section Level2_properties.

Variable splitext : string -> string * string.
Variable path_split : string -> string * string.
Variable remove_suffix : string -> string * string.
Variable PRODUCT_NAME_DEFAULT : string.
Variable is_valid : association -> bool.

Lemma set_products_set_products ps qs asn :
  set_products ps (set_products qs asn) = set_products ps asn.
Proof. reflexivity. Qed.

Lemma products_set_products ps asn : products (set_products ps asn) = ps.
Proof. reflexivity. Qed.

Lemma update_current_snoc f ps p asn :
  update_current f (set_products (ps ++ [p]) asn) = set_products (ps ++ [f p]) asn.
Proof.
  unfold update_current. rewrite products_set_products, reverse_snoc.
  by rewrite reverse_involutive.
Qed.

Lemma new_product_set_products n ps asn :
  new_product n (set_products ps asn) =
    set_products (ps ++ [{| name := n; members := [] |}]) asn.
Proof. reflexivity. Qed.

Lemma append_member_snoc m ps p asn :
  append_member m (set_products (ps ++ [p]) asn) =
    set_products (ps ++ [{| name := name p; members := members p ++ [m] |}]) asn.
Proof. apply update_current_snoc. Qed.

Lemma append_member_single m p asn :
  append_member m (set_products [p] asn) =
    set_products [{| name := name p; members := members p ++ [m] |}] asn.
Proof. apply (append_member_snoc m []). Qed.

Local Abbreviation nod_product_name :=
  (nod_product_name splitext path_split remove_suffix).

(** The association of one science exposure, in closed form. *)
Lemma nod_asn_members self science_exps nonscience_exps science_exp :
  nod_asn splitext path_split remove_suffix self science_exps nonscience_exps science_exp =
    set_products
      [ {| name := nod_product_name science_exp;
           members :=
             science_exp
               :: (now_background <$>
                     List.filter (fun other =>
                                    negb (String.eqb (expname other) (expname science_exp)))
                                 science_exps)
               ++ nonscience_exps |} ]
      self.
Proof.
  unfold nod_asn.
  rewrite new_product_set_products. simpl app.
  rewrite append_member_single. simpl.
  set (n := nod_product_name science_exp).
  assert (forall others ms,
    foldl (fun asn other_science =>
             if negb (String.eqb (expname other_science) (expname science_exp))
             then append_member (now_background other_science) asn
             else asn)
          (set_products [ {| name := n; members := ms |} ] self) others =
    set_products
      [ {| name := n;
           members := ms ++ (now_background <$>
                               List.filter (fun other =>
                                              negb (String.eqb (expname other)
                                                               (expname science_exp)))
                                           others) |} ] self) as Hsci.
  { induction others as [|x others IH]; intros ms; simpl.
    - by rewrite app_nil_r.
    - destruct (negb (String.eqb (expname x) (expname science_exp))).
      + rewrite append_member_single. simpl. rewrite IH.
        by rewrite <- app_assoc.
      + apply IH. }
  rewrite Hsci.
  assert (forall others ms,
    foldl (fun asn m => append_member m asn)
          (set_products [ {| name := n; members := ms |} ] self) others =
    set_products [ {| name := n; members := ms ++ others |} ] self) as Hnon.
  { induction others as [|x others IH]; intros ms; simpl.
    - by rewrite app_nil_r.
    - rewrite append_member_single. simpl. rewrite IH.
      by rewrite <- app_assoc. }
  rewrite Hnon. by rewrite <- app_assoc.
Qed.

(** The results are the associations of the science exposures that are
    valid, in the order of the exposures. *)
Lemma make_nod_asns_filter self prod rest :
  products self = prod :: rest ->
  make_nod_asns splitext path_split remove_suffix is_valid self =
    let science_exps :=
      List.filter (fun m => String.eqb (exptype m) "science") (members prod) in
    let nonscience_exps :=
      List.filter (fun m => negb (String.eqb (exptype m) "science")) (members prod) in
    Some (List.filter is_valid
            (nod_asn splitext path_split remove_suffix self science_exps nonscience_exps
               <$> science_exps)).
Proof.
  intros Hp. unfold make_nod_asns. rewrite Hp. cbv zeta. f_equal.
  set (sci := List.filter (fun m => String.eqb (exptype m) "science") (members prod)).
  set (split_for := nod_asn _ _ _ _ _ _).
  enough (forall todo done,
    foldl (fun results science_exp =>
             if is_valid (split_for science_exp)
             then results ++ [split_for science_exp] else results) done todo =
    done ++ List.filter is_valid (split_for <$> todo)) as H by apply (H sci []).
  induction todo as [|x todo IH]; intros acc; simpl.
  - by rewrite app_nil_r.
  - rewrite IH. destruct (is_valid (split_for x)); [|done].
    by rewrite <- app_assoc.
Qed.

(** The three splits of a product with science members [s1], [s2], [s3]
    and one other member [n1], before and after the validity test. *)
Lemma make_nod_asns_splits (self : association) (prod : product)
    (s1 s2 s3 n1 : member) :
  products self = [prod] ->
  List.filter is_science (members prod) = [s1; s2; s3] ->
  List.filter (fun m => negb (is_science m)) (members prod) = [n1] ->
  NoDup [expname s1; expname s2; expname s3] ->
  let out := fun (s : member) (others : list member) =>
    set_products
      [ {| name := nod_product_name s;
           members := s :: (now_background <$> others) ++ [n1] |} ] self in
  make_nod_asns splitext path_split remove_suffix is_valid self =
    Some (List.filter is_valid [out s1 [s2; s3]; out s2 [s1; s3]; out s3 [s1; s2]]).
Proof.
  intros Hp Hsci Hnon Hnd out.
  rewrite (make_nod_asns_filter self prod [] Hp). cbv zeta.
  rewrite Hsci, Hnon. do 2 f_equal.
  apply NoDup_cons in Hnd as [H1 Hnd]. apply NoDup_cons in Hnd as [H2 _].
  assert (expname s1 <> expname s2 /\ expname s1 <> expname s3
          /\ expname s2 <> expname s3) as (H12 & H13 & H23).
  { repeat split; intros E; [apply H1|apply H1|apply H2]; rewrite E;
      rewrite !elem_of_cons; auto. }
  simpl. rewrite !nod_asn_members. simpl.
  rewrite !String.eqb_refl.
  rewrite (proj2 (String.eqb_neq _ _) H12), (proj2 (String.eqb_neq _ _) H13),
    (proj2 (String.eqb_neq _ _) H23).
  rewrite (String.eqb_sym (expname s2) (expname s1)),
    (String.eqb_sym (expname s3) (expname s1)),
    (String.eqb_sym (expname s3) (expname s2)).
  rewrite (proj2 (String.eqb_neq _ _) H12), (proj2 (String.eqb_neq _ _) H13),
    (proj2 (String.eqb_neq _ _) H23).
  reflexivity.
Qed.

(** C8.  An association whose single product holds the science members
    [s1], [s2], [s3], of distinct exposure names, and one other member [n1],
    is split into the three associations of [s1], [s2] and [s3] that pass
    the validity test, hence into exactly these three when each passes; in
    each, the chosen member is the only science member, the other two are
    relabeled background and [n1] is carried along. *)
Theorem make_nod_asns_three (self : association) (prod : product)
    (s1 s2 s3 n1 : member) :
  products self = [prod] ->
  List.filter is_science (members prod) = [s1; s2; s3] ->
  List.filter (fun m => negb (is_science m)) (members prod) = [n1] ->
  NoDup [expname s1; expname s2; expname s3] ->
  let out := fun (s : member) (others : list member) =>
    set_products
      [ {| name := nod_product_name s;
           members := s :: (now_background <$> others) ++ [n1] |} ] self in
  make_nod_asns splitext path_split remove_suffix is_valid self =
    Some (List.filter is_valid [out s1 [s2; s3]; out s2 [s1; s3]; out s3 [s1; s2]])
  /\ (is_valid (out s1 [s2; s3]) = true -> is_valid (out s2 [s1; s3]) = true ->
      is_valid (out s3 [s1; s2]) = true ->
      make_nod_asns splitext path_split remove_suffix is_valid self =
        Some [out s1 [s2; s3]; out s2 [s1; s3]; out s3 [s1; s2]])
  /\ List.filter is_science (s1 :: (now_background <$> [s2; s3]) ++ [n1]) = [s1]
  /\ List.filter is_science (s2 :: (now_background <$> [s1; s3]) ++ [n1]) = [s2]
  /\ List.filter is_science (s3 :: (now_background <$> [s1; s2]) ++ [n1]) = [s3].
Proof.
  intros Hp Hsci Hnon Hnd out.
  pose proof (make_nod_asns_splits self prod s1 s2 s3 n1 Hp Hsci Hnon Hnd) as Hres.
  destruct (nod_roles _ _ _ _ _ Hsci Hnon) as (E1 & E2 & E3 & En).
  split; [exact Hres|]. split.
  - subst out. cbv beta zeta in Hres |- *. intros V1 V2 V3.
    rewrite Hres. cbn [List.filter]. by rewrite V1, V2, V3.
  - repeat split; by apply filter_science_nod.
Qed.

Lemma current_product_snoc ps p asn :
  current_product (set_products (ps ++ [p]) asn) = Some p.
Proof. unfold current_product. simpl. apply last_snoc. Qed.

(** The name [update_asn] derives for a product whose only member is the
    science exposure [item]. *)
Lemma dms_product_name_single ps n item asn :
  dms_product_name splitext remove_suffix PRODUCT_NAME_DEFAULT
    (set_products
       (ps ++ [ {| name := n;
                   members := [ {| expname := item; exptype := "science";
                                   exposerr := None |} ] |} ]) asn) =
    derived_product_name splitext remove_suffix item.
Proof.
  unfold derived_product_name, dms_product_name, members_by_type. rewrite current_product_snoc.
  simpl. destruct (splitext item) as [science_path ext]. simpl.
  by destruct (remove_suffix science_path).
Qed.

Local Abbreviation bulk_product := (bulk_product splitext remove_suffix).

Lemma add_item_product product_name_func self idx item :
  add_item splitext remove_suffix PRODUCT_NAME_DEFAULT product_name_func self idx item =
    set_products (products self ++ [bulk_product product_name_func idx item]) self.
Proof.
  unfold add_item, update_asn, set_current_name, new_product.
  rewrite append_member_snoc. simpl.
  rewrite dms_product_name_single, !update_current_snoc. simpl.
  unfold bulk_product.
  destruct product_name_func as [f|]; [|done].
  destruct (f item idx); [|done].
  by rewrite update_current_snoc.
Qed.

Lemma add_items_from_products product_name_func idx items self :
  add_items_from splitext remove_suffix PRODUCT_NAME_DEFAULT
                 product_name_func idx items self =
    set_products
      (products self
         ++ imap (fun i item => bulk_product product_name_func (idx + i) item) items)
      self.
Proof.
  revert idx self. induction items as [|item items IH]; intros idx self; simpl.
  - rewrite app_nil_r. by destruct self.
  - rewrite IH, add_item_product, set_products_set_products, products_set_products.
    rewrite <- app_assoc. simpl. rewrite Nat.add_0_r.
    do 3 f_equal. apply imap_ext. intros i x _. simpl.
    by rewrite Nat.add_succ_r.
Qed.

Lemma products_data_update meta asn :
  products (data_update meta asn) = products asn
  /\ acid (data_update meta asn) = acid asn.
Proof.
  unfold data_update. revert asn.
  induction meta as [|kv meta IH]; intros asn; [done|]. simpl.
  destruct (String.eqb (fst kv) "asn_type"); [|destruct (String.eqb (fst kv) "asn_id")].
  all: match goal with
       | |- context [foldl _ ?a _] => destruct (IH a) as [-> ->]
       end; done.
Qed.

(** [acid.startswith(a)] for a one-character [a] looks at the leading
    character. *)
Lemma prefix_leading a c rest :
  String.prefix (String a EmptyString) (String c rest) = Ascii.eqb c a.
Proof.
  cbn [String.prefix]. destruct (ascii_dec a c) as [->|Hne].
  - rewrite Ascii.eqb_refl. by destruct rest.
  - symmetry. apply Ascii.eqb_neq. congruence.
Qed.

(** C9.  The bulk-add path reads the candidate type off the leading
    character of the candidate id: 'o' gives observation, 'c' gives
    background, and with any other id it raises at once, the association
    left as it was.  With a valid id the call succeeds and adds one product
    per item, in order, each with the item as its single member, tagged
    science; the product is named by [product_name_func] where that is
    given and returns, and keeps the name derived from the item where it is
    absent or raises. *)
Theorem _add_items_products (items : list string) (meta : list (string * string))
    (product_name_func : option (string -> nat -> option string))
    (acid_id : string) (self : association) :
  let r := _add_items splitext remove_suffix PRODUCT_NAME_DEFAULT
                      items meta product_name_func acid_id self in
  let added ac_type :=
    fst r = Ok tt
    /\ acid (snd r) = {| acid_id := acid_id; acid_type := ac_type |}
    /\ products (snd r) =
         products self
           ++ imap (fun i item => bulk_product product_name_func (S i) item) items in
  let refused := exists msg, r = (Raise (ValueError msg), self) in
  match acid_id with
  | String c _ =>
      if Ascii.eqb c "o" then added "observation"
      else if Ascii.eqb c "c" then added "background"
      else refused
  | EmptyString => refused
  end.
Proof.
  intros r added refused. subst r added refused. unfold _add_items.
  destruct acid_id as [|c rest]; [simpl; eauto|].
  rewrite !prefix_leading.
  destruct (Ascii.eqb c "o"); [|destruct (Ascii.eqb c "c")].
  - cbn [fst snd]. rewrite add_items_from_products.
    destruct (products_data_update meta
      (set_products
         (products (set_acid {| acid_id := String c rest; acid_type := "observation" |} self)
            ++ imap (fun i item => bulk_product product_name_func (1 + i) item) items)
         (set_acid {| acid_id := String c rest; acid_type := "observation" |} self)))
      as [-> ->].
    done.
  - cbn [fst snd]. rewrite add_items_from_products.
    destruct (products_data_update meta
      (set_products
         (products (set_acid {| acid_id := String c rest; acid_type := "background" |} self)
            ++ imap (fun i item => bulk_product product_name_func (1 + i) item) items)
         (set_acid {| acid_id := String c rest; acid_type := "background" |} self)))
      as [-> ->].
    done.
  - eauto.
Qed.

End Level2_properties.

(** ** _merge_asns *)

(** Merging a product into itself adds nothing. *)
Lemma merge_members_self p : merge_members p p = p.
Proof.
  unfold merge_members. destruct p as [n ms]. simpl. f_equal.
  rewrite difference_diag_L.
  transitivity (ms ++ []); [f_equal|apply app_nil_r].
  induction ms as [|m l IH]; [done|]. simpl.
  rewrite bool_decide_eq_false_2; [done|]. apply not_elem_of_empty.
Qed.

(** The members appended are the incoming ones whose exposure name the
    current product lacks. *)
Lemma merge_members_new p cp :
  merge_members p cp =
    {| name := name cp;
       members := members cp ++ new_members (members cp) (members p) |}.
Proof.
  unfold merge_members, new_members. do 2 f_equal.
  apply filter_ext_in. intros m Hm.
  apply bool_decide_ext.
  rewrite elem_of_difference, !elem_of_list_to_set.
  split; [tauto|]. intros Hn. split; [|done].
  unfold expnames. apply list_elem_of_fmap. exists m. split; [done|].
  by apply list_elem_of_In.
Qed.

Lemma name_merge_members p cp : name (merge_members p cp) = name cp.
Proof. reflexivity. Qed.

Lemma self_merge_step_id i j ps :
  NoDup (name <$> ps) -> self_merge_step i j ps = ps.
Proof.
  intros Hnd. unfold self_merge_step.
  destruct (ps !! i) as [p|] eqn:Hi; [|done].
  destruct (ps !! j) as [cp|] eqn:Hj; [|done].
  destruct (String.eqb (name p) (name cp)) eqn:Hn; [|done].
  apply String.eqb_eq in Hn.
  assert (i = j) as ->.
  { eapply NoDup_lookup; [exact Hnd| |].
    - rewrite list_lookup_fmap, Hi. reflexivity.
    - rewrite list_lookup_fmap, Hj. simpl. by rewrite Hn. }
  assert (p = cp) as -> by congruence.
  rewrite merge_members_self. by apply list_insert_id.
Qed.

(** The pass of the first association of a key over its own products
    changes nothing when its product names are distinct. *)
Lemma self_merge_id ps : NoDup (name <$> ps) -> self_merge ps = ps.
Proof.
  intros Hnd. unfold self_merge.
  assert (forall i js, foldl (fun ps j => self_merge_step i j ps) ps js = ps) as Hin.
  { intros i js. induction js as [|j js IH]; [done|]. simpl.
    by rewrite self_merge_step_id. }
  generalize (seq 0 (length ps)) as outer.
  intros outer. induction outer as [|i outer IH]; [done|]. simpl.
  by rewrite Hin.
Qed.

Lemma set_products_id asn : set_products (products asn) asn = asn.
Proof. by destruct asn. Qed.

Lemma dict_get_None {A} k (d : list (string * A)) :
  k ∉ d.*1 -> dict_get k d = None.
Proof.
  induction d as [|[k' v] d IH]; [done|]. simpl.
  rewrite not_elem_of_cons. intros [Hne Hd].
  rewrite (proj2 (String.eqb_neq k' k)) by done. by apply IH.
Qed.

Lemma dict_set_new {A} k (v : A) d :
  k ∉ d.*1 -> dict_set k v d = d ++ [(k, v)].
Proof.
  induction d as [|[k' v'] d IH]; [done|]. simpl.
  rewrite not_elem_of_cons. intros [Hne Hd].
  rewrite (proj2 (String.eqb_neq k' k)) by done. by rewrite IH.
Qed.

Lemma merge_asn_new merged asn :
  merge_idx asn ∉ merged.*1 -> NoDup (name <$> products asn) ->
  merge_asn merged asn = merged ++ [(merge_idx asn, asn)].
Proof.
  intros Hk Hnd. unfold merge_asn.
  rewrite dict_get_None, dict_set_new by done.
  by rewrite self_merge_id, set_products_id.
Qed.

Lemma foldl_merge_asn_distinct asns merged :
  NoDup (merged.*1 ++ (merge_idx <$> asns)) ->
  Forall (fun asn => NoDup (name <$> products asn)) asns ->
  foldl merge_asn merged asns = merged ++ ((fun asn => (merge_idx asn, asn)) <$> asns).
Proof.
  revert merged. induction asns as [|asn asns IH]; intros merged Hnd Hall; simpl.
  - by rewrite app_nil_r.
  - apply Forall_cons in Hall as [Hasn Hall].
    apply NoDup_app in Hnd as (Hm & Hdis & Hrest).
    apply NoDup_cons in Hrest as [Hfresh Hrest].
    rewrite merge_asn_new; [|intros Hin; apply (Hdis _ Hin); left|done].
    rewrite IH; [by rewrite <- app_assoc| |done].
    rewrite fmap_app. simpl. rewrite <- app_assoc. simpl.
    apply NoDup_app. split; [done|]. split; [|by apply NoDup_cons].
    intros k Hin. by apply Hdis.
Qed.

(** C2, as stated, fails: two associations of one key without any
    exposure in common are merged into one association that is neither of
    them. *)
Lemma merge_no_shared_exposure_counterexample :
  no_shared_exposure [merge_left; merge_right] = true
  /\ _merge_asns [merge_left; merge_right] =
       [ set_products (products merge_left ++ products merge_right) merge_left ]
  /\ ~ (forall asn, asn ∈ _merge_asns [merge_left; merge_right]
                    <-> asn ∈ [merge_left; merge_right]).
Proof.
  split; [by vm_compute|]. split; [by vm_compute|].
  intros H. specialize (H merge_left).
  assert (merge_left ∈ [merge_left; merge_right]) as Hin by left.
  apply H in Hin. vm_compute in Hin.
  apply list_elem_of_singleton in Hin. discriminate Hin.
Qed.

(** C2, amended.  For a list in which no two associations share the merge
    key and no association holds two products of one name, merging changes
    nothing: the output is the input list. *)
Theorem merge_distinct_keys_noop (asns : list association) :
  NoDup (merge_idx <$> asns) ->
  Forall (fun asn => NoDup (name <$> products asn)) asns ->
  _merge_asns asns = asns.
Proof.
  intros Hk Hp. unfold _merge_asns.
  rewrite foldl_merge_asn_distinct by done. simpl.
  rewrite <- list_fmap_compose. apply list_fmap_id.
Qed.

(** The condition on the product names is needed: the first association
    of a key is also run against its own products, and two products of one
    name in it receive each other's members. *)
Lemma merge_like_named_products :
  _merge_asns [merge_like_named] =
    [ set_products
        [ {| name := "P"; members := [exposure "x" "science"; exposure "y" "science"] |};
          {| name := "P"; members := [exposure "y" "science"; exposure "x" "science"] |} ]
        merge_like_named ].
Proof. by vm_compute. Qed.

Lemma merge_into_fmap p cps :
  merge_into p cps =
    ((fun cp => if String.eqb (name p) (name cp) then merge_members p cp else cp) <$> cps,
     existsb (fun cp => String.eqb (name p) (name cp)) cps).
Proof.
  induction cps as [|cp cps IH]; [done|]. simpl. rewrite IH.
  by destruct (String.eqb (name p) (name cp)).
Qed.

Lemma filter_named_fmap n (f : product -> product) ps :
  (forall p, name (f p) = name p) ->
  List.filter (named n) (f <$> ps) = f <$> List.filter (named n) ps.
Proof.
  intros Hf. induction ps as [|p ps IH]; [done|].
  rewrite fmap_cons. cbn [List.filter]. rewrite IH.
  replace (named n (f p)) with (named n p) by (unfold named; by rewrite Hf).
  by destruct (named n p).
Qed.

(** Folding one incoming product into an accumulator that has exactly one
    product named [n]. *)
Lemma filter_named_merge_product n cps p x :
  List.filter (named n) cps = [x] ->
  List.filter (named n) (merge_product cps p) =
    [if named n p then merge_members p x else x].
Proof.
  intros Hx. unfold merge_product. rewrite merge_into_fmap.
  assert (In x (List.filter (named n) cps)) as Hin by (rewrite Hx; by left).
  apply filter_In in Hin as [Hin Hnx]. unfold named in Hnx.
  apply String.eqb_eq in Hnx.
  set (f := fun cp => if String.eqb (name p) (name cp) then merge_members p cp else cp).
  assert (forall cp, name (f cp) = name cp) as Hf.
  { intros cp. unfold f. by destruct (String.eqb (name p) (name cp)). }
  destruct (existsb _ cps) eqn:Hex.
  - rewrite (filter_named_fmap n f cps Hf), Hx. simpl. f_equal.
    unfold f, named. by rewrite Hnx.
  - rewrite List.filter_app, (filter_named_fmap n f cps Hf), Hx. simpl.
    assert (String.eqb (name p) (name x) = false) as Hpx.
    { destruct (String.eqb (name p) (name x)) eqn:E; [|done].
      rewrite <- Hex. symmetry. apply existsb_exists. by exists x. }
    unfold f, named. rewrite Hpx. rewrite Hnx in Hpx. simpl. by rewrite Hpx.
Qed.

Lemma filter_named_foldl n ps cps x :
  List.filter (named n) cps = [x] ->
  List.filter (named n) (foldl merge_product cps ps) =
    [foldl (fun acc p => if named n p then merge_members p acc else acc) x ps].
Proof.
  revert cps x. induction ps as [|p ps IH]; intros cps x Hx; [done|]. simpl.
  apply IH. by apply filter_named_merge_product.
Qed.

Lemma foldl_none_named n ps x :
  Forall (fun p => named n p = false) ps ->
  foldl (fun acc p => if named n p then merge_members p acc else acc) x ps = x.
Proof.
  induction 1 as [|p ps Hp _ IH]; [done|]. simpl. by rewrite Hp.
Qed.

Lemma NoDup_names_others n p ps :
  NoDup (name <$> p :: ps) -> named n p = true ->
  Forall (fun q => named n q = false) ps.
Proof.
  rewrite fmap_cons. intros [Hp _]%NoDup_cons Hn.
  apply String.eqb_eq in Hn. apply Forall_forall. intros q Hq.
  apply String.eqb_neq. intros Hqn. apply Hp.
  apply list_elem_of_fmap. exists q. split; congruence.
Qed.

Lemma foldl_one_named n ps pb x :
  NoDup (name <$> ps) -> pb ∈ ps -> name pb = n ->
  foldl (fun acc p => if named n p then merge_members p acc else acc) x ps =
    merge_members pb x.
Proof.
  intros Hnd Hin Hn. revert x.
  induction ps as [|p ps IH]; intros x; [by apply elem_of_nil in Hin|]. simpl.
  destruct (named n p) eqn:Hp.
  - pose proof (NoDup_names_others n p ps Hnd Hp) as Hothers.
    rewrite foldl_none_named by done.
    apply elem_of_cons in Hin as [->|Hin]; [done|].
    exfalso. eapply Forall_forall in Hothers; [|exact Hin].
    unfold named in Hothers. apply String.eqb_neq in Hothers. done.
  - apply elem_of_cons in Hin as [->|Hin].
    + unfold named in Hp. apply String.eqb_neq in Hp. done.
    + rewrite fmap_cons in Hnd. apply NoDup_cons in Hnd as [_ Hnd]. by apply IH.
Qed.

Lemma filter_named_unique n ps p :
  NoDup (name <$> ps) -> p ∈ ps -> name p = n ->
  List.filter (named n) ps = [p].
Proof.
  intros Hnd Hin Hn.
  induction ps as [|q ps IH]; [by apply elem_of_nil in Hin|]. simpl.
  destruct (named n q) eqn:Hq.
  - pose proof (NoDup_names_others n q ps Hnd Hq) as Hothers.
    assert (List.filter (named n) ps = []) as ->.
    { clear -Hothers. induction Hothers as [|r ps Hr _ IH]; [done|].
      simpl. by rewrite Hr. }
    apply elem_of_cons in Hin as [->|Hin]; [done|].
    exfalso. eapply Forall_forall in Hothers; [|exact Hin].
    unfold named in Hothers. apply String.eqb_neq in Hothers. done.
  - apply elem_of_cons in Hin as [->|Hin].
    + unfold named in Hq. apply String.eqb_neq in Hq. done.
    + rewrite fmap_cons in Hnd. apply NoDup_cons in Hnd as [_ Hnd]. by apply IH.
Qed.

(** Two associations of one key: the second is folded into the first. *)
Lemma merge_asns_pair A B :
  asn_type A = asn_type B -> asn_id A = asn_id B ->
  NoDup (name <$> products A) ->
  _merge_asns [A; B] =
    [set_products (foldl merge_product (products A) (products B)) A].
Proof.
  intros Ht Hi Hnd. unfold _merge_asns. simpl.
  rewrite (merge_asn_new [] A) by (done || apply not_elem_of_nil).
  simpl. unfold merge_asn.
  assert (merge_idx B = merge_idx A) as -> by (unfold merge_idx; by rewrite Ht, Hi).
  simpl. by rewrite String.eqb_refl.
Qed.

Lemma elem_of_new_members current incoming m :
  m ∈ new_members current incoming <->
  m ∈ incoming /\ expname m ∉ expnames current.
Proof.
  unfold new_members. rewrite list_elem_of_In, filter_In, <- list_elem_of_In.
  by rewrite bool_decide_eq_true.
Qed.

(** The exposure names after a merge are those of either side. *)
Lemma expnames_merged current incoming e :
  e ∈ expnames (current ++ new_members current incoming) <->
  e ∈ expnames current \/ e ∈ expnames incoming.
Proof.
  unfold expnames. rewrite fmap_app, elem_of_app. split.
  - intros [H|H]; [by left|right].
    apply list_elem_of_fmap in H as (m & -> & Hm).
    apply elem_of_new_members in Hm as [Hm _].
    apply list_elem_of_fmap. by exists m.
  - intros [H|H]; [by left|].
    destruct (decide (e ∈ expname <$> current)) as [Hc|Hc]; [by left|right].
    apply list_elem_of_fmap in H as (m & -> & Hm).
    apply list_elem_of_fmap. exists m. split; [done|].
    by apply elem_of_new_members.
Qed.

(** The members after a merge do not depend on the order when both sides
    give each shared exposure name the same member. *)
Lemma members_merged_agree xs ys m :
  (forall x y, x ∈ xs -> y ∈ ys -> expname x = expname y -> x = y) ->
  m ∈ xs ++ new_members xs ys -> m ∈ ys ++ new_members ys xs.
Proof.
  intros Hagree. rewrite !elem_of_app, !elem_of_new_members.
  intros [Hx|[Hy _]]; [|by left].
  destruct (decide (expname m ∈ expnames ys)) as [Hin|Hout]; [left|by right].
  apply list_elem_of_fmap in Hin as (y & He & Hy).
  by rewrite (Hagree m y Hx Hy He).
Qed.

(** C1, amended.  Two associations of one (asn_type, asn_id) key, each with
    distinct product names, merge into a single association, in either
    order.  For a product name they share, the merged association has one
    product of that name; its members are those of the product folded first
    followed by the incoming members whose exposure name is not yet
    present, the other incoming members being dropped.  The set of exposure
    names of the merged product is the union of the two products' and is
    the same whichever association is folded first; the members themselves
    are the same in both orders when the two products give each shared
    exposure name the same member. *)
Theorem merge_same_key_union (A B : association) (n : string) (pa pb : product) :
  asn_type A = asn_type B -> asn_id A = asn_id B ->
  NoDup (name <$> products A) -> NoDup (name <$> products B) ->
  pa ∈ products A -> pb ∈ products B -> name pa = n -> name pb = n ->
  let ab := members pa ++ new_members (members pa) (members pb) in
  let ba := members pb ++ new_members (members pb) (members pa) in
  exists R R',
    _merge_asns [A; B] = [R] /\ _merge_asns [B; A] = [R']
    /\ List.filter (named n) (products R) = [ {| name := n; members := ab |} ]
    /\ List.filter (named n) (products R') = [ {| name := n; members := ba |} ]
    /\ (forall e, e ∈ expnames ab <->
                  e ∈ expnames (members pa) \/ e ∈ expnames (members pb))
    /\ (forall e, e ∈ expnames ab <-> e ∈ expnames ba)
    /\ ((forall x y, x ∈ members pa -> y ∈ members pb ->
                     expname x = expname y -> x = y) ->
        forall m, m ∈ ab <-> m ∈ ba).
Proof.
  intros Ht Hi HA HB Hpa Hpb Hna Hnb ab ba.
  eexists _, _.
  split; [by apply merge_asns_pair|].
  split; [by apply merge_asns_pair|].
  rewrite !products_set_products.
  split; [|split; [|split; [|split]]].
  - rewrite (filter_named_foldl n (products B) (products A) pa)
      by (by apply filter_named_unique).
    rewrite (foldl_one_named n (products B) pb pa) by done.
    by rewrite merge_members_new, Hna.
  - rewrite (filter_named_foldl n (products A) (products B) pb)
      by (by apply filter_named_unique).
    rewrite (foldl_one_named n (products A) pa pb) by done.
    by rewrite merge_members_new, Hnb.
  - intros e. apply expnames_merged.
  - intros e. unfold ab, ba. rewrite !expnames_merged. tauto.
  - intros Hagree m. split; apply members_merged_agree; [done|].
    intros x y Hx Hy He. symmetry. by apply Hagree.
Qed.

(** C1, as stated, fails when the two products give a shared exposure name
    different roles: no conflict is detected and the member kept is the one
    of the association folded first.  Here "y" stays science in one order
    and background in the other, so the two orders end with different
    members (the exposure names are x, y, z in both). *)
Lemma merge_order_counterexample :
  _merge_asns [role_left; role_right] =
    [ set_products
        [ {| name := "P";
             members := [exposure "x" "science"; exposure "y" "science";
                         exposure "z" "science"] |} ] role_left ]
  /\ _merge_asns [role_right; role_left] =
    [ set_products
        [ {| name := "P";
             members := [exposure "y" "background"; exposure "z" "science";
                         exposure "x" "science"] |} ] role_right ]
  /\ ~ (forall m : member,
           m ∈ [exposure "x" "science"; exposure "y" "science"; exposure "z" "science"]
           <-> m ∈ [exposure "y" "background"; exposure "z" "science";
                    exposure "x" "science"]).
Proof.
  split; [by vm_compute|]. split; [by vm_compute|].
  intros H. specialize (H (exposure "y" "science")).
  assert (exposure "y" "science"
            ∈ [exposure "y" "background"; exposure "z" "science"; exposure "x" "science"])
    as Hin.
  { apply H. rewrite !elem_of_cons. auto. }
  rewrite !elem_of_cons, elem_of_nil in Hin.
  destruct Hin as [Hin|[Hin|[Hin|[]]]]; discriminate Hin.
Qed.

(** ** prune_duplicate_products *)

(** The test of [list.remove] on level-2 associations holds between the
    two candidates' associations of one product: same type, same member
    ids. *)
Lemma asn_eq_across_candidates : asn_eq prune_c002 prune_o001 = true.
Proof. by vm_compute. Qed.

(** C3 on the code: with product "P" held under "c002" and under "o001",
    in this order in the list, the association to drop is "o001" (the
    second in candidate order), but [pruned.remove] drops the first item
    equal to it, which is "c002": the lower-priority "o001" is retained.
    In the other list order "c002" is retained. *)
Theorem prune_keeps_lower_priority :
  sort_by_candidate [prune_c002; prune_o001] = [prune_c002; prune_o001]
  /\ prune_duplicate_products [prune_c002; prune_o001] = Ok [prune_o001]
  /\ prune_duplicate_products [prune_o001; prune_c002] = Ok [prune_c002].
Proof. repeat split; by vm_compute. Qed.

(** C4 on the code: with "Q" held once and "P" held under "o001" and
    "c002", pruning drops the association of "Q" (the first item equal to
    the "o001" association of "P") and leaves both associations of "P";
    pruning the result again drops one of them.  Pruning twice differs
    from pruning once. *)
Theorem prune_not_idempotent :
  prune_duplicate_products [prune_other; prune_o001; prune_c002] =
    Ok [prune_o001; prune_c002]
  /\ prune_duplicate_products [prune_o001; prune_c002] = Ok [prune_c002]
  /\ (let* once := prune_duplicate_products [prune_other; prune_o001; prune_c002] in
      prune_duplicate_products once)
     <> prune_duplicate_products [prune_other; prune_o001; prune_c002].
Proof. repeat split; by vm_compute. Qed.

(** Where the associations of a product differ in their members, the item
    removed is the one meant, and the candidate first in the order of
    [sort_by_candidate] survives in either list order. *)
Lemma prune_distinct_members :
  prune_duplicate_products [prune_c002_more; prune_o001] = Ok [prune_c002_more]
  /\ prune_duplicate_products [prune_o001; prune_c002_more] = Ok [prune_c002_more].
Proof. repeat split; by vm_compute. Qed.

(** Without duplicate product names the list is returned as it is. *)
Lemma prune_without_duplicates :
  prune_duplicate_products [prune_other; prune_o001] = Ok [prune_other; prune_o001].
Proof. by vm_compute. Qed.

(** ** Nod splitting and bulk add on samples *)

(** Under an observation candidate, with the validity predicate of the
    specification, none of the three splits is dropped. *)
Lemma make_nod_asns_observation splitext path_split remove_suffix
    (self : association) (prod : product) (s1 s2 s3 n1 : member) :
  lower (acid_type (acid self)) = "observation" ->
  products self = [prod] ->
  List.filter (fun m => String.eqb (exptype m) "science") (members prod) = [s1; s2; s3] ->
  List.filter (fun m => negb (String.eqb (exptype m) "science")) (members prod) = [n1] ->
  NoDup [expname s1; expname s2; expname s3] ->
  exists o1 o2 o3,
    make_nod_asns splitext path_split remove_suffix is_valid_spec self =
      Some [o1; o2; o3].
Proof.
  intros Hobs Hp Hsci Hnon Hnd.
  rewrite (make_nod_asns_splits splitext path_split remove_suffix is_valid_spec
             self prod s1 s2 s3 n1 Hp Hsci Hnon Hnd).
  destruct (nod_roles _ _ _ _ _ Hsci Hnon) as (E1 & E2 & E3 & _).
  simpl. rewrite !nod_split_valid_observation by done. eauto.
Qed.

(** The bulk-add path on two items, with a naming function that raises
    for the first item and names the second. *)
Lemma _add_items_sample :
  _add_items no_extension no_extension "undefined"
    ["jw001_a"; "jw001_b"] [("asn_type", "image2")]
    (Some (fun item idx => if Nat.eqb idx 1 then None else Some "second"))
    "c1000"
    {| asn_type := "none"; asn_id := "c1000"; products := []; acid := o001 |} =
  (Ok tt,
   {| asn_type := "image2"; asn_id := "c1000";
      acid := {| acid_id := "c1000"; acid_type := "background" |};
      products := [ {| name := "jw001_a"; members := [exposure "jw001_a" "science"] |};
                    {| name := "second"; members := [exposure "jw001_b" "science"] |} ] |}).
Proof. by vm_compute. Qed.

(** ** Instances *)

Lemma merge_same_key_union_witness :
  exists R R',
    _merge_asns [role_left; role_right] = [R]
    /\ _merge_asns [role_right; role_left] = [R']
    /\ List.filter (named "P") (products R) =
         [ {| name := "P";
              members := [exposure "x" "science"; exposure "y" "science"]
                           ++ new_members [exposure "x" "science"; exposure "y" "science"]
                                [exposure "y" "background"; exposure "z" "science"] |} ]
    /\ List.filter (named "P") (products R') =
         [ {| name := "P";
              members := [exposure "y" "background"; exposure "z" "science"]
                           ++ new_members [exposure "y" "background"; exposure "z" "science"]
                                [exposure "x" "science"; exposure "y" "science"] |} ].
Proof.
  destruct (merge_same_key_union role_left role_right "P"
              {| name := "P";
                 members := [exposure "x" "science"; exposure "y" "science"] |}
              {| name := "P";
                 members := [exposure "y" "background"; exposure "z" "science"] |})
    as (R & R' & H1 & H2 & H3 & H4 & _); try reflexivity.
  - apply NoDup_singleton.
  - apply NoDup_singleton.
  - left.
  - left.
  - exists R, R'. auto.
Defined.

Lemma merge_distinct_keys_noop_witness :
  _merge_asns [prune_o001; prune_c002] = [prune_o001; prune_c002].
Proof.
  apply merge_distinct_keys_noop.
  - apply (bool_decide_unpack _). by vm_compute.
  - repeat (apply Forall_cons_2; [apply NoDup_singleton|]). apply Forall_nil_2.
Defined.

Lemma make_nod_asns_three_witness :
  make_nod_asns no_extension no_directory no_extension is_valid_spec nod_sample =
    Some [ set_products
             [ {| name := "jw001_nod1";
                  members := [exposure "jw001_nod1" "science";
                              exposure "jw001_nod2" "background";
                              exposure "jw001_nod3" "background";
                              exposure "jw001_acq" "target_acquisition"] |} ] nod_sample;
           set_products
             [ {| name := "jw001_nod2";
                  members := [exposure "jw001_nod2" "science";
                              exposure "jw001_nod1" "background";
                              exposure "jw001_nod3" "background";
                              exposure "jw001_acq" "target_acquisition"] |} ] nod_sample;
           set_products
             [ {| name := "jw001_nod3";
                  members := [exposure "jw001_nod3" "science";
                              exposure "jw001_nod1" "background";
                              exposure "jw001_nod2" "background";
                              exposure "jw001_acq" "target_acquisition"] |} ] nod_sample ].
Proof.
  refine (proj1 (proj2
            (make_nod_asns_three no_extension no_directory no_extension is_valid_spec
               nod_sample _
               (exposure "jw001_nod1" "science") (exposure "jw001_nod2" "science")
               (exposure "jw001_nod3" "science")
               (exposure "jw001_acq" "target_acquisition")
               eq_refl eq_refl eq_refl _))
            eq_refl eq_refl eq_refl).
  apply (bool_decide_unpack _). by vm_compute.
Defined.

(** * Further properties of diff.py *)

(** ** Reflexivity *)

Lemma compare_members_refl li ri p : compare_members li ri p p = Ok tt.
Proof. apply compare_members_Ok. by apply match_members_roles. Qed.

Lemma compare_products_refl n i ps : compare_products n i ps ps = Ok [].
Proof.
  revert i. induction ps as [|p ps IH]; intros i; [done|]. simpl.
  rewrite bool_decide_eq_true_2 by done.
  rewrite compare_members_refl. simpl.
  unfold remove_or_raise. simpl. rewrite dict_eq_refl. simpl. apply IH.
Qed.

Lemma compare_asns_reflexive_helper (asn : association) :
  compare_membership asn asn = Ok true
  /\ compare_asns asn asn =
       match asn_id asn with
       | EmptyString => Raise IndexError
       | String _ _ => Ok true
       end.
Proof.
  assert (compare_membership asn asn = Ok true) as Hm.
  { unfold compare_membership. rewrite Nat.eqb_refl. simpl.
    by rewrite compare_products_refl. }
  split; [exact Hm|].
  unfold compare_asns, _compare_asns. rewrite String.eqb_refl. simpl.
  destruct (asn_id asn) as [|c rest]; [done|]. simpl.
  rewrite Ascii.eqb_refl. simpl. by rewrite Hm.
Qed.

(** X1.  Every association compares equal to itself: [compare_membership]
    succeeds on any association against itself, whatever its products, and
    [compare_asns] does so too unless the candidate id is empty, in which
    case taking its first character raises [IndexError]. *)
Theorem compare_asns_reflexive (asn : association) :
  compare_membership asn asn = Ok true
  /\ compare_asns asn asn =
       match asn_id asn with
       | EmptyString => Raise IndexError
       | String _ _ => Ok true
       end.
Proof. apply compare_asns_reflexive_helper. Qed.

(** ** get_product_names *)

Lemma occurrences_cons n m names :
  occurrences n (m :: names) =
    if String.eqb n m then S (occurrences n names) else occurrences n names.
Proof. unfold occurrences. simpl. by destruct (String.eqb n m). Qed.

Lemma occurrences_pos n names : 0 < occurrences n names <-> n ∈ names.
Proof.
  induction names as [|m names IH]; simpl.
  - rewrite elem_of_nil. unfold occurrences. simpl. lia.
  - rewrite occurrences_cons, elem_of_cons.
    destruct (String.eqb n m) eqn:E.
    + apply String.eqb_eq in E. split; [auto|lia].
    + apply String.eqb_neq in E. rewrite IH. tauto.
Qed.

Lemma dict_get_counter_add k n c :
  dict_get k (counter_add n c) =
    if String.eqb n k then Some (S (default 0 (dict_get n c))) else dict_get k c.
Proof.
  induction c as [|[k' v] c IH]; simpl.
  - rewrite (String.eqb_sym n). by destruct (String.eqb k n).
  - destruct (String.eqb k' n) eqn:E1; simpl.
    + apply String.eqb_eq in E1 as ->.
      rewrite (String.eqb_sym n k). by destruct (String.eqb k n).
    + rewrite IH. destruct (String.eqb n k) eqn:E2; [|done].
      apply String.eqb_eq in E2 as ->. by rewrite E1.
Qed.

Lemma counter_add_keys n c :
  (counter_add n c).*1 = if bool_decide (n ∈ c.*1) then c.*1 else c.*1 ++ [n].
Proof.
  induction c as [|[k v] c IH]; [done|]. cbn [counter_add].
  destruct (String.eqb k n) eqn:E; rewrite !fmap_cons; cbn [fst].
  - apply String.eqb_eq in E as ->. rewrite bool_decide_eq_true_2; [done|left].
  - rewrite IH. apply String.eqb_neq in E.
    destruct (bool_decide (n ∈ c.*1)) eqn:Hin.
    + apply bool_decide_eq_true in Hin.
      rewrite bool_decide_eq_true_2; [done|by right].
    + apply bool_decide_eq_false in Hin.
      rewrite bool_decide_eq_false_2; [done|].
      rewrite elem_of_cons. intros [?|?]; congruence.
Qed.

Lemma counter_add_NoDup n c : NoDup c.*1 -> NoDup (counter_add n c).*1.
Proof.
  intros H. rewrite counter_add_keys. case_bool_decide as Hin; [done|].
  apply NoDup_app. repeat split; [done| |apply NoDup_singleton].
  intros x Hx ->%list_elem_of_singleton. done.
Qed.

Lemma Counter_acc_NoDup names c :
  NoDup c.*1 -> NoDup (foldl (fun c n => counter_add n c) c names).*1.
Proof.
  revert c. induction names as [|n names IH]; intros c Hc; [done|].
  simpl. apply IH. by apply counter_add_NoDup.
Qed.

Lemma Counter_acc_get k names c :
  dict_get k (foldl (fun c n => counter_add n c) c names) =
    match dict_get k c, occurrences k names with
    | None, 0 => None
    | v, m => Some (default 0 v + m)
    end.
Proof.
  revert c. induction names as [|n names IH]; intros c; simpl.
  - unfold occurrences. simpl. destruct (dict_get k c); [|done].
    simpl. by rewrite Nat.add_0_r.
  - rewrite IH, dict_get_counter_add, occurrences_cons, (String.eqb_sym n).
    destruct (String.eqb k n) eqn:E.
    + apply String.eqb_eq in E as <-. simpl.
      destruct (dict_get k c); simpl; f_equal; lia.
    + by destruct (dict_get k c).
Qed.

(** An entry of a dictionary with distinct keys is what [dict_get] finds. *)
Lemma dict_get_elem_of {A} k (v : A) d :
  NoDup d.*1 -> (k, v) ∈ d <-> dict_get k d = Some v.
Proof.
  induction d as [|[k' v'] d IH]; simpl.
  - intros _. rewrite elem_of_nil. split; [done|discriminate].
  - intros [Hk Hd]%NoDup_cons. rewrite elem_of_cons.
    destruct (String.eqb k' k) eqn:E.
    + apply String.eqb_eq in E as ->. split.
      * intros [[= ->]|Hin]; [done|]. exfalso. apply Hk.
        apply list_elem_of_fmap. by exists (k, v).
      * intros [= ->]. by left.
    + apply String.eqb_neq in E. rewrite <- (IH Hd). split.
      * intros [[= -> ->]|Hin]; [done|done].
      * auto.
Qed.

(** The names flagged as duplicates are those listed more than once. *)
Lemma elem_of_duplicates n names :
  n ∈ duplicates names <-> 2 <= occurrences n names.
Proof.
  unfold duplicates. rewrite list_elem_of_fmap. split.
  - intros ([k v] & -> & Hin). simpl.
    apply list_elem_of_In, filter_In in Hin as [Hin Hv]. simpl in Hv.
    apply list_elem_of_In in Hin.
    apply dict_get_elem_of in Hin; [|apply Counter_acc_NoDup, NoDup_nil_2].
    unfold Counter in Hin. rewrite Counter_acc_get in Hin. simpl in Hin.
    apply Nat.ltb_lt in Hv.
    destruct (occurrences k names); [done|]. injection Hin as <-. lia.
  - intros Hn. exists (n, occurrences n names). split; [done|].
    apply list_elem_of_In, filter_In. split.
    + apply list_elem_of_In, dict_get_elem_of;
        [apply Counter_acc_NoDup, NoDup_nil_2|].
      unfold Counter. rewrite Counter_acc_get. simpl.
      destruct (occurrences n names); [lia|done].
    + simpl. apply Nat.ltb_lt. lia.
Qed.

Lemma NoDup_duplicates names : NoDup (duplicates names).
Proof.
  unfold duplicates.
  assert (NoDup (Counter names).*1) as H by apply Counter_acc_NoDup, NoDup_nil_2.
  revert H. generalize (Counter names) as c.
  induction c as [|[k v] c IH]; simpl; [intros _; apply NoDup_nil_2|].
  intros [Hk Hc]%NoDup_cons.
  destruct (Nat.ltb 1 v); simpl; [|by apply IH].
  apply NoDup_cons. split; [|by apply IH].
  intros Hin. apply Hk. apply list_elem_of_fmap in Hin as ([k' v'] & -> & Hin).
  apply list_elem_of_In, filter_In in Hin as [Hin _].
  apply list_elem_of_fmap. exists (k', v'). split; [done|by apply list_elem_of_In].
Qed.

Lemma occurrences_NoDup names :
  NoDup names <-> forall n, occurrences n names <= 1.
Proof.
  induction names as [|m names IH].
  - split; [intros _ n; unfold occurrences; simpl; lia|intros _; apply NoDup_nil_2].
  - rewrite NoDup_cons, IH. split.
    + intros [Hm H] n. rewrite occurrences_cons.
      destruct (String.eqb n m) eqn:E; [|apply H].
      apply String.eqb_eq in E as ->.
      destruct (occurrences m names) eqn:Ho; [lia|].
      exfalso. apply Hm, occurrences_pos. lia.
    + intros H. split.
      * intros Hin%occurrences_pos. specialize (H m).
        rewrite occurrences_cons, String.eqb_refl in H. lia.
      * intros n. specialize (H n). rewrite occurrences_cons in H.
        destruct (String.eqb n m); lia.
Qed.

(** No name is flagged exactly when the names are distinct. *)
Lemma duplicates_nil names : duplicates names = [] <-> NoDup names.
Proof.
  rewrite occurrences_NoDup. split.
  - intros H n. destruct (decide (2 <= occurrences n names)) as [Hn|Hn]; [|lia].
    apply elem_of_duplicates in Hn. rewrite H in Hn. by apply elem_of_nil in Hn.
  - intros H. destruct (duplicates names) as [|n dups] eqn:E; [done|].
    assert (n ∈ duplicates names) as Hn by (rewrite E; left).
    apply elem_of_duplicates in Hn. specialize (H n). lia.
Qed.

Lemma first_product_names_Ok asns :
  Forall (fun asn => products asn <> []) asns ->
  first_product_names asns = Ok (first_name <$> asns).
Proof.
  induction 1 as [|asn asns Hp _ IH]; [done|]. simpl. unfold first_name at 1.
  destruct (products asn); [done|]. by rewrite IH.
Qed.

Lemma first_product_names_IndexError asns :
  Exists (fun asn => products asn = []) asns ->
  first_product_names asns = Raise IndexError.
Proof.
  induction 1 as [asn asns Hp|asn asns _ IH]; simpl.
  - by rewrite Hp.
  - destruct (products asn); [done|]. by rewrite IH.
Qed.

(** X2.  [get_product_names] raises [IndexError] as soon as one association
    has no product.  Otherwise it returns the set of the first product
    names together with the duplicates: a name is flagged exactly when at
    least two associations carry it, each flagged name is listed once, and
    nothing is flagged exactly when the names are distinct. *)
Theorem get_product_names_duplicates (asns : list association) :
  (Exists (fun asn => products asn = []) asns ->
   get_product_names asns = Raise IndexError)
  /\ (Forall (fun asn => products asn <> []) asns ->
      exists names dups,
        get_product_names asns = Ok (names, dups)
        /\ (forall n, n ∈ names <-> exists asn, asn ∈ asns /\ first_name asn = n)
        /\ (forall n, n ∈ dups <-> 2 <= occurrences n (first_name <$> asns))
        /\ NoDup dups
        /\ (dups = [] <-> NoDup (first_name <$> asns))).
Proof.
  split.
  - intros H. unfold get_product_names.
    by rewrite first_product_names_IndexError.
  - intros H. unfold get_product_names. rewrite first_product_names_Ok by done.
    simpl.
    exists (list_to_set (first_name <$> asns)), (duplicates (first_name <$> asns)).
    split; [reflexivity|].
    split; [|split; [|split]].
    + intros n. rewrite elem_of_list_to_set, list_elem_of_fmap.
      split; intros (asn & ? & ?); by exists asn.
    + intros n. apply elem_of_duplicates.
    + apply NoDup_duplicates.
    + apply duplicates_nil.
Qed.

Lemma get_product_names_duplicates_witness :
  get_product_names [diff_left; set_products [] diff_left] = Raise IndexError
  /\ exists names dups,
       get_product_names [diff_left; merge_left; diff_right] = Ok (names, dups)
       /\ (forall n, n ∈ dups <->
             2 <= occurrences n (first_name <$> [diff_left; merge_left; diff_right])).
Proof.
  split.
  - apply (get_product_names_duplicates [diff_left; set_products [] diff_left]).
    apply Exists_cons_tl, Exists_cons_hd. reflexivity.
  - destruct (proj2 (get_product_names_duplicates [diff_left; merge_left; diff_right]))
      as (names & dups & Hr & _ & Hd & _).
    + repeat (apply Forall_cons_2; [discriminate|]). apply Forall_nil_2.
    + exists names, dups. split; [exact Hr|exact Hd].
Defined.

(** ** compare_asn_lists: when it passes *)

Lemma products_dec (asns : list association) :
  Forall (fun asn => products asn <> []) asns
  \/ Exists (fun asn => products asn = []) asns.
Proof.
  induction asns as [|asn asns [IH|IH]].
  - left. apply Forall_nil_2.
  - destruct (products asn) eqn:E.
    + right. by apply Exists_cons_hd.
    + left. apply Forall_cons_2; [by rewrite E|done].
  - right. by apply Exists_cons_tl.
Qed.

Lemma NoDup_fmap_eq {A B} (f : A -> B) l x y :
  NoDup (f <$> l) -> x ∈ l -> y ∈ l -> f x = f y -> x = y.
Proof.
  intros Hnd Hx Hy Hf.
  apply list_elem_of_lookup in Hx as [i Hi].
  apply list_elem_of_lookup in Hy as [j Hj].
  assert (i = j) as ->; [|congruence].
  eapply NoDup_lookup; [exact Hnd| |].
  - rewrite list_lookup_fmap, Hi. reflexivity.
  - rewrite list_lookup_fmap, Hj. simpl. by rewrite Hf.
Qed.

Lemma asn_by_product_first_name asns n a :
  asn_by_product asns n = Ok a -> a ∈ asns /\ first_name a = n /\ products a <> [].
Proof.
  intros H. split; [by eapply asn_by_product_In|].
  unfold asn_by_product in H.
  destruct (find _ _) as [x|] eqn:Hf; [|done].
  injection H as <-. apply find_some in Hf as [_ Hp].
  unfold first_name. destruct (products x); [done|].
  by apply String.eqb_eq in Hp.
Qed.

Lemma asn_by_product_found asns n a :
  a ∈ asns -> first_name a = n -> products a <> [] ->
  exists b, asn_by_product asns n = Ok b.
Proof.
  intros Hin Hn Hp. unfold asn_by_product.
  destruct (find _ _) as [x|] eqn:Hf; [by exists x|].
  exfalso. eapply find_none in Hf; [|apply in_rev; rewrite rev_involutive;
                                     apply list_elem_of_In, Hin].
  unfold first_name in Hn. destruct (products a); [done|].
  simpl in Hf. apply String.eqb_neq in Hf. done.
Qed.

(** The association a product name stands for, in a list of distinct
    names. *)
Lemma asn_by_product_unique asns n a :
  NoDup (first_name <$> asns) ->
  a ∈ asns -> first_name a = n -> products a <> [] ->
  asn_by_product asns n = Ok a.
Proof.
  intros Hnd Hin Hn Hp.
  destruct (asn_by_product_found asns n a Hin Hn Hp) as [b Hb].
  rewrite Hb. f_equal.
  apply asn_by_product_first_name in Hb as (Hbin & Hbn & _).
  eapply (NoDup_fmap_eq first_name); eauto. congruence.
Qed.

(** The comparison of two lists passes exactly when every association has
    a product, the product names of each side are distinct, both sides have
    the same names, and like-named associations compare equal. *)
Lemma compare_asn_lists_in_passes set_order A B :
  visits_each_once set_order ->
  passes (compare_asn_lists_in set_order A B) = true <->
  Forall (fun asn => products asn <> []) A
  /\ Forall (fun asn => products asn <> []) B
  /\ NoDup (first_name <$> A) /\ NoDup (first_name <$> B)
  /\ (forall n, n ∈ first_name <$> A <-> n ∈ first_name <$> B)
  /\ (forall a b, a ∈ A -> b ∈ B -> first_name a = first_name b ->
                  passes (compare_asns a b) = true).
Proof.
  intros Ho. unfold compare_asn_lists_in, get_product_names.
  destruct (products_dec A) as [HA|HA].
  2: { rewrite first_product_names_IndexError by done. simpl.
       split; [done|]. intros (HA' & _). exfalso.
       apply Exists_exists in HA as (a & Hin & Hp).
       eapply Forall_forall in HA'; [|exact Hin]. done. }
  rewrite (first_product_names_Ok A HA). cbn [bind].
  destruct (products_dec B) as [HB|HB].
  2: { rewrite first_product_names_IndexError by done. simpl.
       split; [done|]. intros (_ & HB' & _). exfalso.
       apply Exists_exists in HB as (b & Hin & Hp).
       eapply Forall_forall in HB'; [|exact Hin]. done. }
  rewrite (first_product_names_Ok B HB). cbn [bind].
  fold (duplicates (first_name <$> A)). fold (duplicates (first_name <$> B)).
  rewrite !passes_assert_bind, !andb_true_iff, !bool_decide_eq_true.
  rewrite !duplicates_nil, name_diff_empty, passes_compare_like_products.
  split.
  - intros (NA & NB & Hset & Hall). repeat split; try done.
    + intros Hn. rewrite <- (elem_of_list_to_set (C := gset string)), <- Hset.
      by apply elem_of_list_to_set.
    + intros Hn. rewrite <- (elem_of_list_to_set (C := gset string)), Hset.
      by apply elem_of_list_to_set.
    + intros a b Ha Hb Hab.
      assert (first_name a ∈ set_order (list_to_set (first_name <$> A))) as Hin.
      { rewrite (Ho _), elem_of_elements, elem_of_list_to_set.
        apply list_elem_of_fmap. by exists a. }
      eapply Forall_forall in Hall; [|exact Hin].
      destruct Hall as (a' & b' & Ha' & Hb' & Hp).
      rewrite (asn_by_product_unique A (first_name a) a) in Ha'; try done.
      2: { eapply Forall_forall in HA; [|exact Ha]. done. }
      rewrite (asn_by_product_unique B (first_name a) b) in Hb'; try done.
      2: { eapply Forall_forall in HB; [|exact Hb]. done. }
      congruence.
  - intros (_ & _ & NA & NB & Hset & Hall). repeat split; try done.
    + apply set_eq. intros n. rewrite !elem_of_list_to_set. apply Hset.
    + apply Forall_forall. intros n Hn.
      rewrite (Ho _), elem_of_elements, elem_of_list_to_set in Hn.
      pose proof (proj1 (Hset n) Hn) as Hn'.
      apply list_elem_of_fmap in Hn as (a & -> & Ha).
      apply list_elem_of_fmap in Hn' as (b & Hab & Hb).
      exists a, b. split; [|split].
      * apply asn_by_product_unique; try done.
        eapply Forall_forall in HA; [|exact Ha]. done.
      * apply asn_by_product_unique; try done.
        eapply Forall_forall in HB; [|exact Hb]. done.
      * by apply Hall.
Qed.

(** X3.  [compare_asn_lists] completes without raising exactly when every
    association on either side has a product, the first product names are
    distinct within each side, the two sides carry the same names, and each
    pair of like-named associations passes [compare_asns]; this holds in
    whatever order the set of names is visited. *)
Theorem compare_asn_lists_passes_iff
    (set_order : gset string -> list string) (A B : list association) :
  visits_each_once set_order ->
  passes (compare_asn_lists_in set_order A B) = true <->
  Forall (fun asn => products asn <> []) A
  /\ Forall (fun asn => products asn <> []) B
  /\ NoDup (first_name <$> A) /\ NoDup (first_name <$> B)
  /\ (forall n, n ∈ first_name <$> A <-> n ∈ first_name <$> B)
  /\ (forall a b, a ∈ A -> b ∈ B -> first_name a = first_name b ->
                  passes (compare_asns a b) = true).
Proof. apply compare_asn_lists_in_passes. Qed.

(** X4.  A list compares equal to itself when every association has a
    product and a non-empty candidate id and the first product names are
    distinct. *)
Theorem compare_asn_lists_reflexive
    (set_order : gset string -> list string) (A : list association) :
  visits_each_once set_order ->
  Forall (fun asn => products asn <> []) A ->
  Forall (fun asn => asn_id asn <> EmptyString) A ->
  NoDup (first_name <$> A) ->
  compare_asn_lists_in set_order A A = Ok tt.
Proof.
  intros Ho HA Hid Hnd.
  assert (passes (compare_asn_lists_in set_order A A) = true) as Hp.
  { apply compare_asn_lists_in_passes; [done|]. repeat split; try done.
    intros a b Ha Hb Hab.
    assert (a = b) as <- by (by eapply (NoDup_fmap_eq first_name)).
    destruct (compare_asns_reflexive_helper a) as [_ ->].
    eapply Forall_forall in Hid; [|exact Ha].
    by destruct (asn_id a). }
  by destruct (compare_asn_lists_in set_order A A) as [[]|].
Qed.

(** X5.  Two lists that compare equal hold the same first product names,
    each once: the names of one side are a rearrangement of the names of
    the other, and the lists have the same length. *)
Theorem compare_asn_lists_same_length
    (set_order : gset string -> list string) (A B : list association) :
  visits_each_once set_order ->
  passes (compare_asn_lists_in set_order A B) = true ->
  first_name <$> A ≡ₚ first_name <$> B /\ length A = length B.
Proof.
  intros Ho (_ & _ & NA & NB & Hset & _)%compare_asn_lists_in_passes; [|done].
  assert (first_name <$> A ≡ₚ first_name <$> B) as Hperm
    by (by apply NoDup_Permutation).
  split; [done|].
  apply Permutation_length in Hperm. by rewrite !length_fmap in Hperm.
Qed.

Lemma compare_asn_lists_passes_iff_witness :
  passes (compare_asn_lists [diff_left; merge_left] [merge_left; diff_right]) = true <->
  Forall (fun asn => products asn <> []) [diff_left; merge_left]
  /\ Forall (fun asn => products asn <> []) [merge_left; diff_right]
  /\ NoDup (first_name <$> [diff_left; merge_left])
  /\ NoDup (first_name <$> [merge_left; diff_right])
  /\ (forall n, n ∈ first_name <$> [diff_left; merge_left] <->
                n ∈ first_name <$> [merge_left; diff_right])
  /\ (forall a b, a ∈ [diff_left; merge_left] -> b ∈ [merge_left; diff_right] ->
                  first_name a = first_name b -> passes (compare_asns a b) = true).
Proof.
  apply (compare_asn_lists_passes_iff elements [diff_left; merge_left] [merge_left; diff_right]).
  intros X. reflexivity.
Defined.

Lemma compare_asn_lists_reflexive_witness :
  compare_asn_lists [diff_left; merge_left] [diff_left; merge_left] = Ok tt.
Proof.
  apply (compare_asn_lists_reflexive elements [diff_left; merge_left]).
  - intros X. reflexivity.
  - repeat (apply Forall_cons_2; [discriminate|]). apply Forall_nil_2.
  - repeat (apply Forall_cons_2; [discriminate|]). apply Forall_nil_2.
  - apply (bool_decide_unpack _). vm_compute. reflexivity.
Defined.

Lemma compare_asn_lists_same_length_witness :
  first_name <$> [diff_left; merge_left] ≡ₚ first_name <$> [merge_left; diff_right]
  /\ length [diff_left; merge_left] = length [merge_left; diff_right].
Proof.
  apply (compare_asn_lists_same_length elements).
  - intros X. reflexivity.
  - vm_compute. reflexivity.
Defined.

(** ** separate_products *)

(** X6.  [separate_products] turns an association into one association per
    product, in order: each has exactly one product and the type, candidate
    id and candidate of the original; the products put back together are
    the original products; an association that has a single product is
    returned alone and unchanged. *)
Theorem separate_products_single (asn : association) :
  Forall single_product (separate_products asn)
  /\ mjoin (products <$> separate_products asn) = products asn
  /\ first_name <$> separate_products asn = name <$> products asn
  /\ Forall (fun a => asn_type a = asn_type asn /\ asn_id a = asn_id asn
                      /\ acid a = acid asn) (separate_products asn)
  /\ (single_product asn -> separate_products asn = [asn]).
Proof.
  unfold separate_products. repeat split.
  - apply Forall_fmap, Forall_true. intros p. reflexivity.
  - generalize (products asn) as ps.
    induction ps as [|p ps IH]; [done|].
    rewrite !fmap_cons. simpl. by rewrite IH.
  - rewrite <- list_fmap_compose. by apply list_fmap_ext.
  - apply Forall_fmap, Forall_true. by intros p.
  - intros [p Hp]%single_product_inv. rewrite Hp. simpl.
    by rewrite <- Hp, set_products_id.
Qed.

Lemma separate_products_single_witness :
  separate_products diff_left = [diff_left].
Proof.
  apply (separate_products_single diff_left). reflexivity.
Defined.

(** ** components *)

Lemma re_split_plain tok : plain_token tok = true -> re_split tok = [tok].
Proof.
  induction tok as [|c tok IH]; [done|]. simpl.
  intros [Hc Ht]%andb_true_iff. apply negb_true_iff in Hc.
  by rewrite Hc, IH.
Qed.

Lemma re_split_token_sep tok c rest :
  plain_token tok = true -> is_sep c = true ->
  re_split (tok +:+ String c rest) = tok :: re_split rest.
Proof.
  intros Ht Hc. induction tok as [|d tok IH]; simpl.
  - by rewrite Hc.
  - simpl in Ht. apply andb_true_iff in Ht as [Hd Ht].
    apply negb_true_iff in Hd. rewrite Hd.
    change (re_split (tok +:+ String c rest)) with (re_split (tok +:+ String c rest)).
    by rewrite (IH Ht).
Qed.

(** Splitting undoes joining. *)
Lemma re_split_join c toks :
  is_sep c = true -> toks <> [] -> Forall (fun tok => plain_token tok = true) toks ->
  re_split (join c toks) = toks.
Proof.
  intros Hc Hne Hall. induction Hall as [|tok toks Ht Hall IH]; [done|].
  destruct toks as [|tok' toks].
  - simpl. by apply re_split_plain.
  - change (join c (tok :: tok' :: toks))
      with (tok +:+ String c (join c (tok' :: toks))).
    rewrite re_split_token_sep by done. f_equal. by apply IH.
Qed.

(** X7.  Splitting on '_' and '-' undoes joining: a name made of tokens
    without separator characters, joined by either separator, splits back
    into these tokens.  So [components] of such a name is the set of its
    tokens, and two names compare equal as components whenever they are
    made of the same tokens, in any order, with any repetition and with
    either separator. *)
Theorem components_of_join (c c' : ascii) (toks toks' : list string) :
  is_sep c = true -> is_sep c' = true ->
  toks <> [] -> toks' <> [] ->
  Forall (fun tok => plain_token tok = true) toks ->
  Forall (fun tok => plain_token tok = true) toks' ->
  re_split (join c toks) = toks
  /\ components (join c toks) = list_to_set toks
  /\ ((forall tok, tok ∈ toks <-> tok ∈ toks') ->
      components (join c toks) = components (join c' toks')).
Proof.
  intros Hc Hc' Hne Hne' Hall Hall'.
  split; [by apply re_split_join|].
  unfold components. rewrite !re_split_join by done.
  split; [done|]. intros Hsame. apply set_eq. intros tok.
  rewrite !elem_of_list_to_set. apply Hsame.
Qed.

Lemma components_of_join_witness :
  components "jw00001-nrs-cal" = components "cal_nrs_jw00001_nrs".
Proof.
  apply (components_of_join "-" "_"
           ["jw00001"; "nrs"; "cal"] ["cal"; "nrs"; "jw00001"; "nrs"]);
    try reflexivity; try discriminate.
  - repeat (apply Forall_cons_2; [reflexivity|]). apply Forall_nil_2.
  - repeat (apply Forall_cons_2; [reflexivity|]). apply Forall_nil_2.
  - intros tok. rewrite !elem_of_cons, !elem_of_nil. tauto.
Defined.

(** ** Membership as a comparison of names and roles *)

Lemma match_member_Permutation l R R' :
  match_member l R = Ok R' ->
  name_and_role <$> R ≡ₚ name_and_role l :: (name_and_role <$> R').
Proof.
  revert R'. induction R as [|x R IH]; intros R'.
  - by rewrite match_member_nil.
  - rewrite match_member_cons.
    destruct (String.eqb (expname l) (expname x)) eqn:He.
    + destruct (String.eqb (exptype l) (exptype x)) eqn:Ht; [|done].
      intros [= <-]. apply String.eqb_eq in He, Ht.
      rewrite fmap_cons. unfold name_and_role at 1 3. by rewrite He, Ht.
    + intros (R1 & H1 & [= <-])%bind_Ok.
      rewrite !fmap_cons, (IH _ H1). apply Permutation_swap.
Qed.

Lemma match_members_Permutation L R :
  match_members L R = Ok [] -> name_and_role <$> L ≡ₚ name_and_role <$> R.
Proof.
  revert R. induction L as [|l L IH]; intros R; simpl.
  - by intros [= ->].
  - intros (R1 & H1 & H2)%bind_Ok.
    rewrite (match_member_Permutation _ _ _ H1). by rewrite (IH _ H2).
Qed.

Lemma roles_at_pairs e ms :
  roles_at e ms =
    snd <$> List.filter (fun p => String.eqb (fst p) e) (name_and_role <$> ms).
Proof.
  induction ms as [|m ms IH]; [done|].
  rewrite roles_at_cons, fmap_cons. cbn [List.filter name_and_role fst].
  destruct (String.eqb (expname m) e); [rewrite fmap_cons|]; by rewrite IH.
Qed.

Lemma filter_Permutation {A} (f : A -> bool) l l' :
  l ≡ₚ l' -> List.filter f l ≡ₚ List.filter f l'.
Proof.
  induction 1 as [|x l l' _ IH|x y l|l l' l'' _ IH1 _ IH2]; simpl.
  - done.
  - destruct (f x); by rewrite IH.
  - destruct (f x), (f y); try done. apply Permutation_swap.
  - by rewrite IH1.
Qed.

Lemma roles_at_distinct e ms :
  NoDup (expnames ms) -> length (roles_at e ms) <= 1.
Proof.
  unfold expnames. induction ms as [|m ms IH]; [simpl; lia|].
  rewrite fmap_cons. intros [Hm Hnd]%NoDup_cons. rewrite roles_at_cons.
  destruct (String.eqb (expname m) e) eqn:E; [|by apply IH].
  apply String.eqb_eq in E as <-. simpl.
  assert (roles_at (expname m) ms = []) as ->; [|simpl; lia].
  unfold roles_at. clear -Hm. induction ms as [|x ms IH]; [done|]. simpl.
  rewrite fmap_cons, not_elem_of_cons in Hm. destruct Hm as [Hx Hm].
  rewrite (proj2 (String.eqb_neq _ _)) by congruence. by apply IH.
Qed.

Lemma Permutation_short {A} (l l' : list A) :
  l ≡ₚ l' -> length l <= 1 -> l = l'.
Proof.
  intros Hp Hlen. destruct l as [|x [|y l]]; simpl in Hlen; try lia.
  - by apply Permutation_nil_l in Hp.
  - by apply Permutation_singleton_l in Hp.
Qed.

(** X8.  When the members of two products compare equal, the two sides
    hold the same (expname, exptype) pairs, each as many times; and when
    the exposure names of the left product are distinct, this is all the
    comparison asks: the order of the members and their [exposerr] never
    matter. *)
Theorem compare_members_names_and_roles (li ri : nat) (pl pr : product) :
  (compare_members li ri pl pr = Ok tt ->
   name_and_role <$> members pl ≡ₚ name_and_role <$> members pr)
  /\ (NoDup (expnames (members pl)) ->
      name_and_role <$> members pl ≡ₚ name_and_role <$> members pr ->
      compare_members li ri pl pr = Ok tt).
Proof.
  split.
  - intros H. apply match_members_Permutation.
    by apply (proj1 (compare_members_Ok li ri pl pr)).
  - intros Hnd Hperm. apply (proj2 (compare_members_Ok li ri pl pr)).
    apply (proj2 (match_members_roles _ _)). intros e.
    apply Permutation_short; [|by apply roles_at_distinct].
    rewrite !roles_at_pairs. apply fmap_Permutation. by apply filter_Permutation.
Qed.

(** With an exposure name held twice the order does matter: the first
    right member of that name must have the role of the left one. *)
Lemma compare_members_repeated_name :
  compare_members 0 0
    {| name := "p"; members := [exposure "a" "science"; exposure "a" "background"] |}
    {| name := "p"; members := [exposure "a" "background"; exposure "a" "science"] |}
  = Raise (AssertionError (RoleMismatch "a" "science" "a" "background")).
Proof. by vm_compute. Qed.

Lemma compare_members_names_and_roles_witness :
  compare_members 0 0
    {| name := "p";
       members := [exposure "a" "science";
                   {| expname := "b"; exptype := "background"; exposerr := Some "null" |}] |}
    {| name := "q"; members := [exposure "b" "background"; exposure "a" "science"] |}
  = Ok tt.
Proof.
  apply (proj2 (compare_members_names_and_roles 0 0 _ _)).
  - apply (bool_decide_unpack _). by vm_compute.
  - simpl. apply Permutation_swap.
Defined.

(** ** compare_asns on associations with any number of products *)

Lemma members_match_roles p q :
  members_match p q <-> forall e, roles_at e (members p) = roles_at e (members q).
Proof. apply match_members_roles. Qed.

Lemma members_match_sym p q : members_match p q -> members_match q p.
Proof. rewrite !members_match_roles. intros H e. by rewrite H. Qed.

Lemma members_match_trans p q r :
  members_match p q -> members_match q r -> members_match p r.
Proof. rewrite !members_match_roles. intros H1 H2 e. by rewrite H1, H2. Qed.

Lemma Forall2_members_match_sym ps qs :
  Forall2 members_match ps qs -> Forall2 members_match qs ps.
Proof.
  induction 1 as [|p q ps qs Hm _ IH]; [apply Forall2_nil_2|].
  apply Forall2_cons_2; [by apply members_match_sym|done].
Qed.

Lemma Forall2_members_match_trans ps qs rs :
  Forall2 members_match ps qs -> Forall2 members_match qs rs ->
  Forall2 members_match ps rs.
Proof.
  intros H. revert rs. induction H as [|p q ps qs Hm _ IH]; intros rs Hqr.
  - apply Forall2_nil_inv_l in Hqr as ->. apply Forall2_nil_2.
  - apply Forall2_cons_inv_l in Hqr as (r & rs' & Hm' & Hrest & ->).
    apply Forall2_cons_2; [by eapply members_match_trans|by apply IH].
Qed.

Lemma find_right_product_Some c idx R ri r :
  find_right_product c idx R = Some (ri, r) ->
  r ∈ R /\ components (name r) = c.
Proof.
  revert idx. induction R as [|x R IH]; intros idx; [done|]. simpl.
  case_bool_decide as Hx.
  - intros [= <- <-]. split; [left|done].
  - intros [Hin Hc]%IH. split; [by right|done].
Qed.

Lemma class_at_cons c x ps :
  class_at c (x :: ps) =
    if bool_decide (components (name x) = c) then x :: class_at c ps
    else class_at c ps.
Proof. reflexivity. Qed.

(** The body of the loop over the left products, for one left product. *)
Local Abbreviation product_step n li idx l R :=
  (match find_right_product (components (name l)) idx R with
   | Some (right_idx, right_product) =>
       let* _ := compare_members li right_idx l right_product in
       remove_or_raise dict_eq right_product R
   | None => Raise (AssertionError (LeftLeftOver n))
   end).

(** A left product that is matched takes the first right product of its
    components out of the right products; the other classes are left as
    they are. *)
Lemma product_step_classes n li idx l R R' c :
  product_step n li idx l R = Ok R' ->
  if bool_decide (components (name l) = c)
  then exists r, class_at c R = r :: class_at c R' /\ members_match l r
  else class_at c R = class_at c R'.
Proof.
  revert idx R'. induction R as [|x R IH]; intros idx R'; [done|].
  cbn [find_right_product].
  destruct (bool_decide (components (name x) = components (name l))) eqn:Hx.
  - apply bool_decide_eq_true in Hx.
    destruct (compare_members li idx l x) as [[]|] eqn:Hm; [|done].
    cbn [bind]. unfold remove_or_raise. cbn [list_remove].
    rewrite dict_eq_refl. intros [= <-].
    rewrite class_at_cons, Hx.
    case_bool_decide as Hc; [|done].
    exists x. split; [done|]. by apply (proj1 (compare_members_Ok li idx l x)).
  - apply bool_decide_eq_false in Hx.
    destruct (find_right_product _ _ R) as [[ri r]|] eqn:Hf; [|done].
    pose proof (find_right_product_Some _ _ _ _ _ Hf) as [Hin Hr].
    intros H. specialize (IH (S idx)). rewrite Hf in IH.
    destruct (compare_members li ri l r) as [[]|]; [|done]. cbn [bind] in H, IH.
    unfold remove_or_raise in H, IH. cbn [list_remove] in H.
    destruct (dict_eq x r) eqn:Hxr.
    { apply (proj1 (dict_eq_true x r)) in Hxr. congruence. }
    destruct (list_remove dict_eq r R) as [R1|]; [|done].
    simpl in H. injection H as <-. specialize (IH R1 eq_refl).
    rewrite !class_at_cons.
    case_bool_decide as Hc.
    + destruct IH as (r' & -> & Hm). rewrite bool_decide_eq_false_2 by congruence.
      by exists r'.
    + by rewrite IH.
Qed.

Lemma product_step_total n li idx l R r t :
  class_at (components (name l)) R = r :: t -> members_match l r ->
  exists R', product_step n li idx l R = Ok R'.
Proof.
  revert idx. induction R as [|x R IH]; intros idx; [done|].
  rewrite class_at_cons. cbn [find_right_product].
  case_bool_decide as Hx.
  - intros [= -> _] Hm.
    rewrite (proj2 (compare_members_Ok li idx l r) Hm). cbn [bind].
    unfold remove_or_raise. cbn [list_remove]. rewrite dict_eq_refl. eauto.
  - intros Hc Hm. destruct (IH (S idx) Hc Hm) as [R1 H1].
    destruct (find_right_product _ _ R) as [[ri r']|] eqn:Hf; [|done].
    pose proof (find_right_product_Some _ _ _ _ _ Hf) as [Hin Hr].
    destruct (compare_members li ri l r') as [[]|]; [|done]. cbn [bind] in *.
    unfold remove_or_raise in *. cbn [list_remove].
    destruct (dict_eq x r') eqn:Hxr.
    { apply (proj1 (dict_eq_true x r')) in Hxr. congruence. }
    destruct (list_remove dict_eq r' R); [|done]. simpl. eauto.
Qed.

Lemma product_step_length n li idx l R R' :
  product_step n li idx l R = Ok R' -> length R = S (length R').
Proof.
  intros H.
  destruct (find_right_product _ _ R) as [[ri r]|] eqn:Hf; [|done].
  destruct (compare_members li ri l r) as [[]|]; [|done]. simpl in H.
  unfold remove_or_raise in H.
  destruct (list_remove dict_eq r R) as [R1|] eqn:Hr; [|done].
  injection H as <-. clear Hf. revert R1 Hr.
  induction R as [|x R IH]; intros R1; [done|]. simpl.
  destruct (dict_eq x r); [by intros [= <-]|].
  destruct (list_remove dict_eq r R) as [R2|]; [|done]. simpl.
  intros [= <-]. simpl. by rewrite (IH R2).
Qed.

Lemma compare_products_cons n i l L R :
  compare_products n i (l :: L) R =
    let* R' := product_step n i 0 l R in compare_products n (S i) L R'.
Proof.
  simpl. destruct (find_right_product _ _ R) as [[ri r]|]; [|done].
  by destruct (compare_members i ri l r) as [[]|].
Qed.

Lemma compare_products_length n i L R R' :
  compare_products n i L R = Ok R' -> length R = length L + length R'.
Proof.
  revert i R. induction L as [|l L IH]; intros i R.
  - by intros [= ->].
  - rewrite compare_products_cons. intros (R1 & H1 & H2)%bind_Ok.
    apply product_step_length in H1. apply IH in H2. simpl. lia.
Qed.

Lemma class_at_nil_all R : (forall c, class_at c R = []) -> R = [].
Proof.
  destruct R as [|x R]; [done|]. intros H.
  specialize (H (components (name x))).
  by rewrite class_at_cons, bool_decide_eq_true_2 in H.
Qed.

(** All left products are matched and no right product is left exactly
    when, class by class, both sides list products with matching members
    in the same order. *)
Lemma compare_products_classes n i L R :
  compare_products n i L R = Ok [] <->
  forall c, Forall2 members_match (class_at c L) (class_at c R).
Proof.
  revert i R. induction L as [|l L IH]; intros i R.
  - simpl. split.
    + intros [= ->] c. apply Forall2_nil_2.
    + intros H. f_equal. apply class_at_nil_all. intros c.
      specialize (H c). by apply Forall2_nil_inv_l in H.
  - rewrite compare_products_cons. split.
    + intros (R1 & H1 & H2)%bind_Ok c.
      pose proof (proj1 (IH _ _) H2 c) as Hc.
      pose proof (product_step_classes _ _ _ _ _ _ c H1) as Hs.
      rewrite class_at_cons. case_bool_decide.
      * destruct Hs as (r & -> & Hm). by apply Forall2_cons_2.
      * by rewrite Hs.
    + intros H.
      pose proof (H (components (name l))) as Hl.
      rewrite class_at_cons, bool_decide_eq_true_2 in Hl by done.
      apply Forall2_cons_inv_l in Hl as (r & t & Hm & Ht & Hr).
      destruct (product_step_total n i 0 l R r t Hr Hm) as [R1 H1].
      rewrite H1. simpl. apply (proj2 (IH _ _)). intros c.
      specialize (H c).
      pose proof (product_step_classes _ _ _ _ _ _ c H1) as Hs.
      rewrite class_at_cons in H. case_bool_decide.
      * destruct Hs as (r' & Hs & _). rewrite Hs in H.
        by apply Forall2_cons_1 in H as [_ H].
      * by rewrite <- Hs.
Qed.

(** When [compare_membership] passes. *)
Lemma compare_membership_classes a b :
  passes (compare_membership a b) = true <->
  forall c, Forall2 members_match (class_at c (products a)) (class_at c (products b)).
Proof.
  rewrite <- (compare_products_classes (length (products a)) 0).
  unfold compare_membership. split.
  - rewrite passes_assert_bind, andb_true_iff. intros [_ H].
    destruct (compare_products _ _ _ _) as [R'|]; [|done]. simpl in H.
    rewrite passes_assert_bind, andb_true_iff in H. destruct H as [H _].
    apply Nat.eqb_eq in H. by destruct R'.
  - intros H. pose proof (compare_products_length _ _ _ _ _ H) as Hlen.
    simpl in Hlen. rewrite Nat.add_0_r in Hlen.
    by rewrite Hlen, Nat.eqb_refl, H.
Qed.

(** When [compare_asns] passes. *)
Lemma compare_asns_classes a b :
  passes (compare_asns a b) = true <->
  asn_type a = asn_type b
  /\ (exists c ida idb, asn_id a = String c ida /\ asn_id b = String c idb)
  /\ forall c, Forall2 members_match (class_at c (products a)) (class_at c (products b)).
Proof.
  rewrite <- compare_membership_classes, passes_compare_asns.
  unfold _compare_asns. rewrite passes_assert_bind, andb_true_iff, String.eqb_eq.
  destruct (asn_id a) as [|ca ida]; simpl.
  { split; [by intros [_ ?]|]. by intros (_ & (c & x & y & [=] & _) & _). }
  destruct (asn_id b) as [|cb idb]; simpl.
  { split; [by intros [_ ?]|]. by intros (_ & (c & x & y & _ & [=]) & _). }
  rewrite passes_assert_bind, andb_true_iff, Ascii.eqb_eq. split.
  - intros (Ht & -> & Hm). repeat split; try done. by exists cb, ida, idb.
  - intros (Ht & (c & x & y & [= -> _] & [= -> _]) & Hm). done.
Qed.

(** X9.  For associations with any number of products, [compare_asns]
    agrees in both directions, and it is transitive: if [a] compares equal
    to [b] and [b] to [c], then [a] compares equal to [c].  With X1 it is
    an equivalence on the associations that have a candidate id. *)
Theorem compare_asns_symmetric_transitive (a b c : association) :
  (passes (compare_asns a b) = true <-> passes (compare_asns b a) = true)
  /\ (passes (compare_asns a b) = true -> passes (compare_asns b c) = true ->
      passes (compare_asns a c) = true).
Proof.
  rewrite !compare_asns_classes. split; [split|].
  - intros (Ht & (ch & x & y & Ha & Hb) & Hm). repeat split; [done| |].
    + by exists ch, y, x.
    + intros k. apply Forall2_members_match_sym, Hm.
  - intros (Ht & (ch & x & y & Ha & Hb) & Hm). repeat split; [done| |].
    + by exists ch, y, x.
    + intros k. apply Forall2_members_match_sym, Hm.
  - intros (Ht & (ch & x & y & Ha & Hb) & Hm) (Ht' & (ch' & x' & y' & Hb' & Hc) & Hm').
    repeat split; [congruence| |].
    + rewrite Hb in Hb'. injection Hb' as <- <-. by exists ch, x, y'.
    + intros k. eapply Forall2_members_match_trans; [apply Hm|apply Hm'].
Qed.

Lemma compare_asns_symmetric_transitive_witness :
  passes (compare_asns diff_left diff_left) = true.
Proof.
  apply (proj2 (compare_asns_symmetric_transitive diff_left diff_right diff_left));
    reflexivity.
Defined.

(** * Equality and sorting of level-2 associations *)

Lemma elem_of_member_ids e asn :
  e ∈ member_ids asn <->
  exists p m, p ∈ products asn /\ m ∈ members p /\ expname m = e.
Proof.
  unfold member_ids, expnames.
  rewrite elem_of_list_to_set, list_elem_of_join. split.
  - intros (l & He & (p & -> & Hp)%list_elem_of_fmap).
    apply list_elem_of_fmap in He as (m & -> & Hm). by exists p, m.
  - intros (p & m & Hp & Hm & <-). exists (expname <$> members p). split.
    + apply list_elem_of_fmap. by exists m.
    + apply list_elem_of_fmap. by exists p.
Qed.

Lemma asn_eq_true a b :
  asn_eq a b = true <-> asn_type a = asn_type b /\ member_ids a = member_ids b.
Proof.
  unfold asn_eq. rewrite andb_true_iff, String.eqb_eq, bool_decide_eq_true. done.
Qed.

Lemma asn_eq_refl a : asn_eq a a = true.
Proof. by apply asn_eq_true. Qed.

Lemma asn_eq_sym a b : asn_eq a b = asn_eq b a.
Proof.
  apply eq_true_iff_eq. rewrite !asn_eq_true. intuition congruence.
Qed.

Lemma asn_eq_trans a b c :
  asn_eq a b = true -> asn_eq b c = true -> asn_eq a c = true.
Proof. rewrite !asn_eq_true. intuition congruence. Qed.

(** X10.  [__eq__] of level-2 associations is an equivalence, and [__ne__]
    is symmetric with it: two associations are equal exactly when they
    have the same type and the same exposure names occur among the members
    of their products.  The candidate id, the candidate, the names of the
    products, the grouping of the members into products, their order and
    their roles play no part. *)
Theorem asn_eq_equivalence (a b c : association) :
  asn_eq a a = true
  /\ asn_eq a b = asn_eq b a
  /\ asn_ne a b = asn_ne b a
  /\ (asn_eq a b = true -> asn_eq b c = true -> asn_eq a c = true)
  /\ (asn_eq a b = true <->
      asn_type a = asn_type b
      /\ forall e,
           (exists p m, p ∈ products a /\ m ∈ members p /\ expname m = e) <->
           (exists p m, p ∈ products b /\ m ∈ members p /\ expname m = e)).
Proof.
  split; [apply asn_eq_refl|].
  split; [apply asn_eq_sym|].
  split; [unfold asn_ne; by rewrite asn_eq_sym|].
  split; [apply asn_eq_trans|].
  rewrite asn_eq_true. split.
  - intros [Ht Hm]. split; [done|]. intros e.
    by rewrite <- !elem_of_member_ids, Hm.
  - intros [Ht Hm]. split; [done|]. apply set_eq. intros e.
    rewrite !elem_of_member_ids. apply Hm.
Qed.

Lemma asn_eq_equivalence_witness : asn_eq prune_c002 prune_other = true.
Proof.
  apply (proj1 (proj2 (proj2 (proj2
           (asn_eq_equivalence prune_c002 prune_o001 prune_other)))));
    vm_compute; reflexivity.
Defined.

(** ** The order of [str] *)

Lemma string_leb_refl s : String.leb s s = true.
Proof. destruct (String.leb_total s s); done. Qed.

Lemma string_leb_trans s1 s2 s3 :
  String.leb s1 s2 = true -> String.leb s2 s3 = true -> String.leb s1 s3 = true.
Proof.
  unfold String.leb. revert s2 s3.
  induction s1 as [|c1 s1 IH]; intros [|c2 s2] [|c3 s3]; simpl; try done.
  unfold Ascii.compare.
  destruct (N.compare_spec (N_of_ascii c1) (N_of_ascii c2)),
           (N.compare_spec (N_of_ascii c2) (N_of_ascii c3)),
           (N.compare_spec (N_of_ascii c1) (N_of_ascii c3));
    try done; try lia.
  apply IH.
Qed.

Lemma string_leb_false s1 s2 :
  String.leb s1 s2 = false -> String.leb s2 s1 = true.
Proof. destruct (String.leb_total s1 s2) as [H|H]; congruence. Qed.

(** ** sorted *)

Lemma insert_by_key_Permutation {A} (key : A -> string) x l :
  insert_by_key key x l ≡ₚ x :: l.
Proof.
  induction l as [|y l IH]; simpl; [done|].
  destruct (String.leb (key x) (key y)); [done|].
  rewrite IH. apply Permutation_swap.
Qed.

Lemma sorted_Permutation {A} (key : A -> string) l : sorted key l ≡ₚ l.
Proof.
  induction l as [|x l IH]; simpl; [done|].
  change (foldr (insert_by_key key) [] l) with (sorted key l).
  by rewrite insert_by_key_Permutation, IH.
Qed.

Lemma insert_by_key_ascending {A} (key : A -> string) x l :
  ascending (key <$> l) -> ascending (key <$> insert_by_key key x l).
Proof.
  induction l as [|y l IH]; simpl; [done|].
  intros [Hy Hl]. destruct (String.leb (key x) (key y)) eqn:E; simpl.
  - repeat split; try done. apply Forall_cons_2; [done|].
    eapply Forall_impl; [exact Hy|]. simpl. intros k Hk.
    by eapply string_leb_trans.
  - split; [|by apply IH].
    rewrite insert_by_key_Permutation. simpl.
    apply Forall_cons_2; [by apply string_leb_false|done].
Qed.

Lemma sorted_ascending {A} (key : A -> string) l : ascending (key <$> sorted key l).
Proof.
  induction l as [|x l IH]; simpl; [done|].
  by apply insert_by_key_ascending.
Qed.

Lemma ascending_lookup keys i j k k' :
  ascending keys -> i < j -> keys !! i = Some k -> keys !! j = Some k' ->
  String.leb k k' = true.
Proof.
  revert i j. induction keys as [|k0 keys IH]; intros i j; simpl; [done|].
  intros [H0 Hs] Hij Hi Hj. destruct j as [|j]; [lia|].
  destruct i as [|i]; simpl in *.
  - injection Hi as <-. eapply Forall_forall in H0; [exact H0|].
    by eapply list_elem_of_lookup_2.
  - eapply IH; [done| |done..]. lia.
Qed.

Lemma insert_by_key_sorted {A} (key : A -> string) x l :
  ascending (key <$> x :: l) -> insert_by_key key x l = x :: l.
Proof.
  destruct l as [|y l]; simpl; [done|].
  intros [(Hxy & _)%Forall_cons_1 _]. by rewrite Hxy.
Qed.

Lemma sorted_fixed {A} (key : A -> string) l :
  ascending (key <$> l) -> sorted key l = l.
Proof.
  induction l as [|x l IH]; [done|]. intros H.
  change (sorted key (x :: l)) with (insert_by_key key x (sorted key l)).
  rewrite IH by apply H. by apply insert_by_key_sorted.
Qed.

Lemma filter_insert_by_key {A} (key : A -> string) k x l :
  List.filter (fun a => String.eqb (key a) k) (insert_by_key key x l) =
  List.filter (fun a => String.eqb (key a) k) (x :: l).
Proof.
  induction l as [|y l IH]; [done|].
  cbn [insert_by_key]. destruct (String.leb (key x) (key y)) eqn:E; [done|].
  cbn [List.filter]. rewrite IH. cbn [List.filter].
  destruct (String.eqb (key x) k) eqn:Ex, (String.eqb (key y) k) eqn:Ey; try done.
  apply String.eqb_eq in Ex, Ey. rewrite Ex, Ey, string_leb_refl in E. done.
Qed.

Lemma filter_sorted {A} (key : A -> string) k l :
  List.filter (fun a => String.eqb (key a) k) (sorted key l) =
  List.filter (fun a => String.eqb (key a) k) l.
Proof.
  induction l as [|x l IH]; [done|].
  change (sorted key (x :: l)) with (insert_by_key key x (sorted key l)).
  rewrite filter_insert_by_key. cbn [List.filter]. by rewrite IH.
Qed.

(** X11.  [sort_by_candidate] returns the associations it was given, each
    once, in ascending order of [asn_id] under the order of [str]; the
    associations that share an id keep the order they came in; and sorting
    a sorted list changes nothing. *)
Theorem sort_by_candidate_stable (asns : list association) :
  sort_by_candidate asns ≡ₚ asns
  /\ (forall i j a b, i < j ->
        sort_by_candidate asns !! i = Some a ->
        sort_by_candidate asns !! j = Some b ->
        String.leb (asn_id a) (asn_id b) = true)
  /\ (forall k,
        List.filter (fun a => String.eqb (asn_id a) k) (sort_by_candidate asns) =
        List.filter (fun a => String.eqb (asn_id a) k) asns)
  /\ sort_by_candidate (sort_by_candidate asns) = sort_by_candidate asns.
Proof.
  unfold sort_by_candidate. split; [apply sorted_Permutation|].
  split; [|split; [intros k; apply filter_sorted|]].
  - intros i j a b Hij Ha Hb.
    apply (ascending_lookup (asn_id <$> sorted asn_id asns) i j);
      [apply sorted_ascending|done|..]; by rewrite list_lookup_fmap, ?Ha, ?Hb.
  - apply sorted_fixed, sorted_ascending.
Qed.

Lemma sort_by_candidate_stable_witness :
  String.leb (asn_id prune_c002) (asn_id prune_o001) = true.
Proof.
  apply (proj1 (proj2 (sort_by_candidate_stable [prune_o001; prune_c002]))
           0 1 prune_c002 prune_o001); [lia|reflexivity|reflexivity].
Defined.

(** * prune_duplicate_products *)

Lemma like_count_cons c x l :
  like_count c (x :: l) = (if asn_eq c x then 1 else 0) + like_count c l.
Proof. unfold like_count. simpl. by destruct (asn_eq c x). Qed.

Lemma like_count_app c l k :
  like_count c (l ++ k) = like_count c l + like_count c k.
Proof. unfold like_count. by rewrite List.filter_app, length_app. Qed.

Lemma like_count_Permutation c l k :
  l ≡ₚ k -> like_count c l = like_count c k.
Proof.
  induction 1; rewrite ?like_count_cons; try lia.
Qed.

Lemma like_count_sublist c l k :
  sublist l k -> like_count c l <= like_count c k.
Proof. induction 1; rewrite ?like_count_cons; lia. Qed.

Lemma asn_eq_class c x y : asn_eq y x = true -> asn_eq c y = asn_eq c x.
Proof.
  intros H. apply eq_true_iff_eq. split; intros Hc.
  - by eapply asn_eq_trans.
  - eapply asn_eq_trans; [exact Hc|]. by rewrite asn_eq_sym.
Qed.

(** [remove] succeeds as soon as the list holds an association equal
    under [==], and it takes out the first such one. *)
Lemma list_remove_like x l :
  0 < like_count x l ->
  exists y l', list_remove asn_eq x l = Some l' /\ asn_eq y x = true
    /\ sublist l' l /\ length l = S (length l')
    /\ forall c, like_count c l = (if asn_eq c y then 1 else 0) + like_count c l'.
Proof.
  induction l as [|z l IH]; [unfold like_count; simpl; lia|].
  rewrite like_count_cons. cbn [list_remove]. destruct (asn_eq z x) eqn:E.
  - intros _. exists z, l. repeat split; try done.
    + by apply sublist_cons.
    + intros c. apply like_count_cons.
  - rewrite asn_eq_sym, E. intros (y & l' & -> & Hy & Hs & Hl & Hc)%IH.
    exists y, (z :: l'). repeat split; try done.
    + by apply sublist_skip.
    + simpl. by rewrite Hl.
    + intros c. rewrite !like_count_cons, Hc. lia.
Qed.

Lemma remove_all_Ok R F pruned :
  (forall c, like_count c (R ++ F) <= like_count c pruned) ->
  exists p', remove_all R pruned = Ok p' /\ sublist p' pruned
    /\ length p' + length R = length pruned
    /\ forall c, like_count c F <= like_count c p'.
Proof.
  revert pruned. induction R as [|x R IH]; intros pruned H.
  - exists pruned. simpl. repeat split; try done.
  - destruct (list_remove_like x pruned) as (y & l' & Hr & Hy & Hs & Hl & Hc).
    { specialize (H x). cbn [app] in H.
      rewrite like_count_cons, asn_eq_refl in H. lia. }
    destruct (IH l') as (p' & Hp & Hs' & Hl' & Hc').
    { intros c. specialize (H c). cbn [app] in H.
      rewrite like_count_cons, Hc, (asn_eq_class c x y Hy) in H. lia. }
    exists p'. cbn [remove_all]. unfold remove_or_raise. rewrite Hr.
    repeat split; try done.
    + by etrans.
    + simpl. lia.
Qed.

Lemma removals_cons n g d :
  removals ((n, g) :: d) = tail (sort_by_candidate g) ++ removals d.
Proof. reflexivity. Qed.

Lemma prune_groups_Ok d pruned :
  (forall c, like_count c (removals d) <= like_count c pruned) ->
  exists r, prune_groups d pruned = Ok r /\ sublist r pruned
    /\ length r + length (removals d) = length pruned.
Proof.
  revert pruned. induction d as [|[n g] d IH]; intros pruned H.
  - exists pruned. simpl. repeat split; try done. 
  - rewrite removals_cons in H |- *.
    destruct (remove_all_Ok (tail (sort_by_candidate g)) (removals d) pruned H)
      as (p' & Hp & Hs & Hl & Hc).
    destruct (IH p' Hc) as (r & Hr & Hs' & Hl').
    exists r. cbn [prune_groups]. rewrite Hp. repeat split; try done.
    + by etrans.
    + rewrite length_app. lia.
Qed.

Lemma length_removals d :
  Forall (fun g => g.2 <> []) d ->
  length (removals d) + length d = length (mjoin d.*2).
Proof.
  induction 1 as [|[n g] d Hg _ IH]; [done|].
  rewrite removals_cons. change (mjoin ((n, g) :: d).*2) with (g ++ mjoin d.*2).
  rewrite !length_app. cbn [length].
  assert (length (tail (sort_by_candidate g)) + 1 = length g); [|lia].
  rewrite <- (Permutation_length (sorted_Permutation asn_id g)).
  unfold sort_by_candidate.
  destruct (sorted asn_id g) eqn:E; simpl; [|lia].
  simpl in Hg. apply (f_equal length) in E.
  rewrite (Permutation_length (sorted_Permutation asn_id g)) in E.
  by destruct g.
Qed.

Lemma like_count_removals c d :
  like_count c (removals d) <= like_count c (mjoin d.*2).
Proof.
  induction d as [|[n g] d IH]; [done|].
  rewrite removals_cons. change (mjoin ((n, g) :: d).*2) with (g ++ mjoin d.*2).
  rewrite !like_count_app.
  assert (like_count c (tail (sort_by_candidate g)) <= like_count c g); [|lia].
  rewrite <- (like_count_Permutation c _ _ (sorted_Permutation asn_id g)).
  apply like_count_sublist. unfold sort_by_candidate.
  destruct (sorted asn_id g); [done|]. by apply sublist_cons.
Qed.

Lemma defaultdict_append_keys {A} k (v : A) d :
  (defaultdict_append k v d).*1 =
    if bool_decide (k ∈ d.*1) then d.*1 else d.*1 ++ [k].
Proof.
  induction d as [|[k' vs] d IH]; [done|].
  cbn [defaultdict_append]. destruct (String.eqb k' k) eqn:E.
  - apply String.eqb_eq in E as ->.
    rewrite bool_decide_eq_true_2 by (simpl; apply elem_of_cons; auto). done.
  - apply String.eqb_neq in E. cbn [fmap list_fmap fst]. 
    change (list_fmap _ _ fst ?l) with (l.*1). rewrite IH.
    destruct (bool_decide_reflect (k ∈ d.*1)) as [Hin|Hin].
    + rewrite bool_decide_eq_true_2 by (apply elem_of_cons; auto). done.
    + rewrite bool_decide_eq_false_2; [done|].
      intros [?|?]%elem_of_cons; [congruence|done].
Qed.

Lemma defaultdict_append_values {A} k (v : A) d :
  mjoin (defaultdict_append k v d).*2 ≡ₚ mjoin d.*2 ++ [v].
Proof.
  induction d as [|[k' vs] d IH]; [done|].
  cbn [defaultdict_append]. destruct (String.eqb k' k) eqn:E.
  - cbn [fmap list_fmap snd mjoin list_join].
    rewrite <- !(assoc_L (++)). apply Permutation_app_head.
    apply Permutation_app_comm.
  - cbn [fmap list_fmap snd mjoin list_join].
    change (list_fmap _ _ snd ?l) with (l.*2).
    change (list_join ?l) with (mjoin l). rewrite IH.
    by rewrite (assoc_L (++)).
Qed.

Lemma defaultdict_append_nonempty {A} k (v : A) d :
  Forall (fun g => g.2 <> []) d ->
  Forall (fun g => g.2 <> []) (defaultdict_append k v d).
Proof.
  induction 1 as [|[k' vs] d Hg Hd IH].
  - apply Forall_cons_2; [done|apply Forall_nil_2].
  - cbn [defaultdict_append]. destruct (String.eqb k' k).
    + apply Forall_cons_2; [|done]. simpl. destruct vs; discriminate.
    + by apply Forall_cons_2.
Qed.

Lemma first_product_name_Ok asn :
  products asn <> [] -> first_product_name asn = Ok (first_name asn).
Proof.
  unfold first_product_name, first_name. by destruct (products asn).
Qed.

Lemma collect_to_prune_Ok dups asns d :
  Forall (fun asn => products asn <> []) asns ->
  exists d', collect_to_prune dups asns d = Ok d'
    /\ (NoDup d.*1 -> NoDup d'.*1)
    /\ (Forall (fun g => g.2 <> []) d -> Forall (fun g => g.2 <> []) d')
    /\ mjoin d'.*2 ≡ₚ mjoin d.*2 ++ List.filter (in_dups dups) asns
    /\ (forall k, k ∈ d'.*1 <->
          k ∈ d.*1 \/ k ∈ first_name <$> List.filter (in_dups dups) asns).
Proof.
  intros H. revert d. induction H as [|asn asns Hp _ IH]; intros d.
  - exists d. simpl. repeat split; try done.
    + by rewrite (right_id_L [] (++)).
    + auto.
    + intros [?|?]; [done|]. by apply elem_of_nil in H.
  - cbn [collect_to_prune List.filter]. rewrite first_product_name_Ok by done.
    cbn [bind]. change (bool_decide (first_name asn ∈ dups)) with (in_dups dups asn).
    destruct (in_dups dups asn) eqn:E.
    + destruct (IH (defaultdict_append (first_name asn) asn d))
        as (d' & -> & Hnd & Hne & Hperm & Hk).
      exists d'. split; [done|]. split; [|split; [|split]].
      * intros Hd. apply Hnd. rewrite defaultdict_append_keys.
        destruct (bool_decide_reflect (first_name asn ∈ d.*1)); [done|].
        apply NoDup_app. repeat split; try done.
        -- intros x Hx Hx'%list_elem_of_singleton. congruence.
        -- apply NoDup_singleton.
      * intros Hd. by apply Hne, defaultdict_append_nonempty.
      * rewrite Hperm, defaultdict_append_values.
        rewrite <- (assoc_L (++)). done.
      * intros k. rewrite Hk, defaultdict_append_keys.
        rewrite fmap_cons, elem_of_cons.
        destruct (bool_decide_reflect (first_name asn ∈ d.*1)) as [Hin|Hin].
        -- split; [tauto|]. intros [?|[->|?]]; auto.
        -- rewrite elem_of_app, list_elem_of_singleton. tauto.
    + destruct (IH d) as (d' & -> & Hnd & Hne & Hperm & Hk).
      exists d'. done.
Qed.

Lemma occurrences_filter f n names :
  occurrences n (List.filter f names) =
    if f n then occurrences n names else 0.
Proof.
  induction names as [|m names IH].
  - by destruct (f n).
  - cbn [List.filter]. destruct (f m) eqn:Em; rewrite !occurrences_cons, ?IH.
    + destruct (String.eqb n m) eqn:E; [|done].
      apply String.eqb_eq in E as ->. by rewrite Em.
    + destruct (String.eqb n m) eqn:E; [|done].
      apply String.eqb_eq in E as ->. by rewrite Em.
Qed.

(** The distinct names are the names flagged as duplicates and the names
    that occur once. *)
Lemma distinct_names names :
  length (List.filter (fun n => negb (bool_decide (n ∈ duplicates names))) names)
    + length (duplicates names)
  = size (list_to_set names : gset string).
Proof.
  set (D := duplicates names).
  set (U := List.filter (fun n => negb (bool_decide (n ∈ D))) names).
  assert (NoDup U) as HU.
  { apply occurrences_NoDup. intros n. unfold U. rewrite occurrences_filter.
    case_bool_decide as Hn; simpl; [lia|].
    unfold D in Hn. rewrite elem_of_duplicates in Hn. lia. }
  assert ((list_to_set names : gset string) = list_to_set D ∪ list_to_set U) as ->.
  { apply set_eq. intros n.
    rewrite elem_of_union, !elem_of_list_to_set. unfold U.
    rewrite (list_elem_of_In (List.filter _ _) n), filter_In, <- list_elem_of_In.
    rewrite negb_true_iff, bool_decide_eq_false. split.
    - intros Hn. destruct (decide (n ∈ D)); auto.
    - intros [Hn|[Hn _]]; [|done]. unfold D in Hn.
      rewrite elem_of_duplicates in Hn. apply occurrences_pos. lia. }
  rewrite size_union.
  - rewrite !size_list_to_set; [lia|done|apply NoDup_duplicates].
  - intros n. rewrite !elem_of_list_to_set. unfold U.
    rewrite (list_elem_of_In (List.filter _ _) n), filter_In.
    rewrite negb_true_iff, bool_decide_eq_false. tauto.
Qed.

Lemma sublist_List_filter {A} (f : A -> bool) l : sublist (List.filter f l) l.
Proof.
  induction l as [|a l IH]; [done|].
  simpl. destruct (f a); [by apply sublist_skip|by apply sublist_cons].
Qed.

Lemma filter_fmap_length {A B} (f : A -> B) (g : B -> bool) l :
  length (List.filter (fun a => g (f a)) l) = length (List.filter g (f <$> l)).
Proof.
  induction l as [|x l IH]; [done|]. simpl.
  destruct (g (f x)); simpl; by rewrite IH.
Qed.

(** X12.  [prune_duplicate_products] raises [IndexError] when an
    association has no product.  Otherwise it completes: [remove] never
    fails, the result is the input with some associations taken out, the
    others in their order, and as many associations are kept as there are
    distinct first product names.  When these names are distinct to begin
    with, the input is returned as it is. *)
Theorem prune_duplicate_products_total (asns : list association) :
  (Exists (fun asn => products asn = []) asns ->
   prune_duplicate_products asns = Raise IndexError)
  /\ (Forall (fun asn => products asn <> []) asns ->
      exists pruned,
        prune_duplicate_products asns = Ok pruned
        /\ sublist pruned asns
        /\ length pruned = size (list_to_set (first_name <$> asns) : gset string)
        /\ (NoDup (first_name <$> asns) -> pruned = asns)).
Proof.
  unfold prune_duplicate_products, get_product_names. split.
  - intros H. by rewrite first_product_names_IndexError.
  - intros H. rewrite first_product_names_Ok by done. cbn [bind].
    change (fst <$> List.filter _ (Counter ?l)) with (duplicates l).
    set (names := first_name <$> asns).
    destruct (duplicates names) as [|n0 D0] eqn:ED.
    { exists asns. repeat split; try done.
      rewrite size_list_to_set; [by unfold names; rewrite length_fmap|].
      by apply duplicates_nil. }
    rewrite <- ED.
    destruct (collect_to_prune_Ok (duplicates names) asns [] H)
      as (d & -> & Hnd & Hne & Hperm & Hk).
    cbn [bind]. simpl in Hperm.
    destruct (prune_groups_Ok d asns) as (r & -> & Hs & Hl).
    { intros c. etrans; [apply like_count_removals|].
      rewrite (like_count_Permutation c _ _ Hperm).
      apply like_count_sublist, sublist_List_filter. }
    exists r. split; [done|]. split; [done|]. split.
    + assert (length d = length (duplicates names)) as Hd.
      { rewrite <- (length_fmap fst d). apply Permutation_length.
        apply NoDup_Permutation; [apply Hnd, NoDup_nil_2|apply NoDup_duplicates|].
        intros k. rewrite Hk, elem_of_nil, list_elem_of_fmap. split.
        - intros [[]|(a & -> & Ha)].
          apply list_elem_of_In, filter_In in Ha as [_ Ha].
          by apply bool_decide_eq_true in Ha.
        - intros Hin. right.
          assert (k ∈ names) as (a & -> & Ha)%list_elem_of_fmap.
          { apply occurrences_pos. apply elem_of_duplicates in Hin. lia. }
          exists a. split; [done|]. apply list_elem_of_In, filter_In.
          split; [by apply list_elem_of_In|]. by apply bool_decide_eq_true. }
      pose proof (length_removals d (Hne (Forall_nil_2 _))) as Hrem.
      rewrite (Permutation_length Hperm) in Hrem.
      pose proof (List.filter_length (in_dups (duplicates names)) asns) as Hsplit.
      rewrite <- distinct_names.
      unfold in_dups in Hsplit.
      pose proof (filter_fmap_length first_name
                    (fun n => negb (bool_decide (n ∈ duplicates names))) asns) as Hf.
      cbv beta in Hf. fold names in Hf. unfold in_dups in Hrem. lia.
    + intros Hn%duplicates_nil. fold names in Hn. congruence.
Qed.

Lemma prune_duplicate_products_total_witness :
  exists pruned,
    prune_duplicate_products [prune_other; prune_o001; prune_c002] = Ok pruned
    /\ sublist pruned [prune_other; prune_o001; prune_c002]
    /\ length pruned =
         size (list_to_set (first_name <$> [prune_other; prune_o001; prune_c002])
                 : gset string).
Proof.
  destruct (proj2 (prune_duplicate_products_total [prune_other; prune_o001; prune_c002]))
    as (pruned & Hp & Hs & Hl & _).
  - repeat (apply Forall_cons_2; [discriminate|]). apply Forall_nil_2.
  - exists pruned. repeat split; assumption.
Defined.

(** ** Pruning associations that [==] tells apart *)

Lemma list_remove_exact x l :
  x ∈ l -> (forall y, y ∈ l -> asn_eq y x = true -> y = x) ->
  exists l', list_remove asn_eq x l = Some l' /\ sublist l' l
    /\ (NoDup l -> forall z, z ∈ l' <-> z ∈ l /\ z <> x).
Proof.
  induction l as [|y l IH]; intros Hin Hinj.
  - by apply elem_of_nil in Hin.
  - cbn [list_remove]. destruct (asn_eq y x) eqn:E.
    + assert (y = x) as -> by (apply Hinj; [apply elem_of_cons; auto|done]).
      exists l. split; [done|]. split; [by apply sublist_cons|].
      intros [Hx Hl]%NoDup_cons z. rewrite elem_of_cons. split.
      * intros Hz. split; [auto|]. by intros ->.
      * by intros [[->|Hz] Hne].
    + assert (x ∈ l) as Hx.
      { apply elem_of_cons in Hin as [->|]; [|done].
        by rewrite asn_eq_refl in E. }
      destruct (IH Hx) as (l' & -> & Hs & Hz).
      { intros y' Hy'. apply Hinj, elem_of_cons. auto. }
      exists (y :: l'). split; [done|]. split; [by apply sublist_skip|].
      intros [Hy Hl]%NoDup_cons z. rewrite !elem_of_cons, (Hz Hl). split.
      * intros [->|[? ?]]; split; auto. intros ->. by rewrite asn_eq_refl in E.
      * intros [[->|?] ?]; auto.
Qed.

Lemma remove_all_exact R pruned :
  NoDup pruned -> NoDup R -> (forall x, x ∈ R -> x ∈ pruned) ->
  (forall a b, a ∈ pruned -> b ∈ pruned -> asn_eq a b = true -> a = b) ->
  exists p', remove_all R pruned = Ok p' /\ sublist p' pruned
    /\ forall z, z ∈ p' <-> z ∈ pruned /\ z ∉ R.
Proof.
  revert pruned. induction R as [|x R IH]; intros pruned Hnd HR Hsub Hinj.
  - exists pruned. split; [done|]. split; [done|]. intros z.
    split; [intros ?; split; [done|apply not_elem_of_nil]|tauto].
  - apply NoDup_cons in HR as [HxR HR].
    destruct (list_remove_exact x pruned) as (l' & Hr & Hs & Hz).
    { apply Hsub, elem_of_cons. auto. }
    { intros y Hy. apply Hinj; [done|]. apply Hsub, elem_of_cons. auto. }
    specialize (Hz Hnd).
    destruct (IH l') as (p' & Hp & Hs' & Hz').
    { exact (sublist_NoDup _ _ Hnd Hs). }
    { done. }
    { intros y Hy. apply Hz. split; [apply Hsub, elem_of_cons; auto|].
      by intros ->. }
    { intros a b Ha Hb. apply Hinj; by eapply elem_of_sublist. }
    exists p'. cbn [remove_all]. unfold remove_or_raise. rewrite Hr.
    split; [done|]. split; [by etrans|].
    intros z. rewrite Hz', Hz, elem_of_cons. tauto.
Qed.

Lemma prune_groups_exact d pruned :
  NoDup pruned -> NoDup (removals d) ->
  (forall x, x ∈ removals d -> x ∈ pruned) ->
  (forall a b, a ∈ pruned -> b ∈ pruned -> asn_eq a b = true -> a = b) ->
  exists r, prune_groups d pruned = Ok r /\ sublist r pruned
    /\ forall z, z ∈ r <-> z ∈ pruned /\ z ∉ removals d.
Proof.
  revert pruned. induction d as [|[n g] d IH]; intros pruned Hnd HR Hsub Hinj.
  - exists pruned. split; [done|]. split; [done|]. intros z.
    split; [intros ?; split; [done|apply not_elem_of_nil]|tauto].
  - rewrite removals_cons in HR, Hsub |- *.
    apply NoDup_app in HR as (HT & Hdisj & HR).
    destruct (remove_all_exact (tail (sort_by_candidate g)) pruned)
      as (p' & Hp & Hs & Hz); try done.
    { intros x Hx. apply Hsub, elem_of_app. auto. }
    destruct (IH p') as (r & Hr & Hs' & Hz').
    { exact (sublist_NoDup _ _ Hnd Hs). }
    { done. }
    { intros x Hx. apply Hz. split; [apply Hsub, elem_of_app; auto|].
      intros Hx'. by apply (Hdisj x). }
    { intros a b Ha Hb. apply Hinj; by eapply elem_of_sublist. }
    exists r. cbn [prune_groups]. rewrite Hp. split; [done|].
    split; [by etrans|].
    intros z. rewrite Hz', Hz, elem_of_app. tauto.
Qed.

Lemma sublist_tail_sorted g : sublist (tail (sort_by_candidate g)) (sort_by_candidate g).
Proof. destruct (sort_by_candidate g); [done|by apply sublist_cons]. Qed.

Lemma elem_of_tail_sorted x g : x ∈ tail (sort_by_candidate g) -> x ∈ g.
Proof.
  intros Hx. rewrite <- (sorted_Permutation asn_id g).
  eapply elem_of_sublist; [exact Hx|apply sublist_tail_sorted].
Qed.

Lemma elem_of_removals x d :
  x ∈ removals d <-> exists n g, (n, g) ∈ d /\ x ∈ tail (sort_by_candidate g).
Proof.
  unfold removals. rewrite list_elem_of_join. split.
  - intros (l & Hx & ([n g] & -> & Hg)%list_elem_of_fmap). by exists n, g.
  - intros (n & g & Hg & Hx). exists (tail (sort_by_candidate g)).
    split; [done|]. apply list_elem_of_fmap. by exists (n, g).
Qed.

Lemma dict_get_defaultdict_append {A} k n (v : A) d :
  dict_get k (defaultdict_append n v d) =
    if String.eqb n k then Some (default [] (dict_get n d) ++ [v])
    else dict_get k d.
Proof.
  induction d as [|[k' vs] d IH].
  - simpl. by destruct (String.eqb n k).
  - cbn [defaultdict_append dict_get]. destruct (String.eqb k' n) eqn:E.
    + apply String.eqb_eq in E as ->. cbn [dict_get].
      by destruct (String.eqb n k).
    + cbn [dict_get]. rewrite IH. destruct (String.eqb k' k) eqn:E'; [|done].
      apply String.eqb_eq in E' as ->. rewrite String.eqb_sym in E.
      by rewrite E.
Qed.

Lemma collect_to_prune_get dups asns d d' k :
  collect_to_prune dups asns d = Ok d' ->
  dict_get k d' =
    match dict_get k d,
          List.filter (fun a => in_dups dups a && first_named k a) asns with
    | None, [] => None
    | v, l => Some (default [] v ++ l)
    end.
Proof.
  revert d. induction asns as [|asn asns IH]; intros d.
  - simpl. intros [= <-]. destruct (dict_get k d); [|done].
    simpl. by rewrite (right_id_L [] (++)).
  - cbn [collect_to_prune List.filter].
    destruct (products asn) as [|p ps] eqn:Ep.
    { unfold first_product_name. by rewrite Ep. }
    rewrite first_product_name_Ok by (by rewrite Ep). cbn [bind].
    change (bool_decide (first_name asn ∈ dups)) with (in_dups dups asn).
    change (first_named k asn) with (String.eqb (first_name asn) k).
    destruct (in_dups dups asn) eqn:E; cbn [andb].
    + intros ->%IH. rewrite dict_get_defaultdict_append.
      destruct (String.eqb (first_name asn) k) eqn:Ek; [|done].
      apply String.eqb_eq in Ek as <-.
      destruct (dict_get (first_name asn) d); cbn [default id app].
      * by rewrite <- (assoc_L (++)).
      * done.
    + intros ->%IH. done.
Qed.

Lemma occurrences_first_named n asns :
  occurrences n (first_name <$> asns) = length (List.filter (first_named n) asns).
Proof.
  induction asns as [|a asns IH]; [done|].
  rewrite fmap_cons, occurrences_cons, IH. cbn [List.filter].
  change (first_named n a) with (String.eqb (first_name a) n).
  rewrite (String.eqb_sym n).
  by destruct (String.eqb (first_name a) n).
Qed.

Lemma elem_of_List_filter {A} (f : A -> bool) l x :
  x ∈ List.filter f l <-> x ∈ l /\ f x = true.
Proof. by rewrite !list_elem_of_In, filter_In. Qed.

Lemma NoDup_List_filter {A} (f : A -> bool) l : NoDup l -> NoDup (List.filter f l).
Proof. intros H. eapply sublist_NoDup; [exact H|apply sublist_List_filter]. Qed.

(** Two associations of one first product name that is not flagged: they
    are one. *)
Lemma unflagged_unique asns a b :
  a ∈ asns -> b ∈ asns -> first_name a = first_name b ->
  first_name a ∉ duplicates (first_name <$> asns) -> NoDup asns -> a = b.
Proof.
  intros Ha Hb Hab Hn Hnd. rewrite elem_of_duplicates in Hn.
  rewrite occurrences_first_named in Hn.
  assert (a ∈ List.filter (first_named (first_name a)) asns) as Ha'.
  { apply elem_of_List_filter. split; [done|]. apply String.eqb_refl. }
  assert (b ∈ List.filter (first_named (first_name a)) asns) as Hb'.
  { apply elem_of_List_filter. split; [done|]. by apply String.eqb_eq. }
  destruct (List.filter (first_named (first_name a)) asns) as [|x [|y l]];
    [by apply elem_of_nil in Ha'| |simpl in Hn; lia].
  apply list_elem_of_singleton in Ha', Hb'. congruence.
Qed.

Lemma collect_to_prune_products dups asns d d' :
  collect_to_prune dups asns d = Ok d' ->
  Forall (fun asn => products asn <> []) asns.
Proof.
  revert d. induction asns as [|a l IH]; intros d; [done|].
  cbn [collect_to_prune]. unfold first_product_name.
  destruct (products a) eqn:E; [done|]. cbn [bind].
  intros H. apply Forall_cons_2; [by rewrite E|].
  destruct (bool_decide _) in H; by eapply IH.
Qed.

(** The groups [prune_duplicate_products] collects: one for every flagged
    name, holding the associations of this name in their order. *)
Lemma collect_to_prune_groups asns d :
  collect_to_prune (duplicates (first_name <$> asns)) asns [] = Ok d ->
  NoDup d.*1
  /\ forall n g, (n, g) ∈ d <->
       n ∈ duplicates (first_name <$> asns)
       /\ g = List.filter (first_named n) asns.
Proof.
  intros Hd. set (D := duplicates (first_name <$> asns)) in *.
  pose proof (collect_to_prune_products _ _ _ _ Hd) as Hp.
  destruct (collect_to_prune_Ok D asns [] Hp) as (d' & Hd' & Hnd & _).
  assert (d' = d) as -> by congruence.
  specialize (Hnd (NoDup_nil_2 (A:=string))). split; [done|].
  intros n g. rewrite (dict_get_elem_of n g d Hnd).
  rewrite (collect_to_prune_get _ _ _ _ n Hd). cbn [dict_get default app].
  assert (n ∈ D ->
          List.filter (fun a => in_dups D a && first_named n a) asns =
          List.filter (first_named n) asns) as Hsame.
  { intros Hn. apply filter_ext_in. intros a _. unfold in_dups, first_named.
    destruct (String.eqb (first_name a) n) eqn:E; [|by rewrite andb_false_r].
    apply String.eqb_eq in E as ->. by rewrite bool_decide_eq_true_2. }
  split.
  - destruct (List.filter _ asns) as [|a l] eqn:E; [done|].
    intros [= <-].
    assert (a ∈ List.filter (fun a => in_dups D a && first_named n a) asns)
      as [_ [Hin Hn]%andb_true_iff]%elem_of_List_filter
      by (rewrite E; apply elem_of_cons; auto).
    apply String.eqb_eq in Hn as <-. apply bool_decide_eq_true in Hin.
    split; [done|]. by apply Hsame.
  - intros [Hn ->]. rewrite (Hsame Hn).
    destruct (List.filter (first_named n) asns) eqn:E; [|done].
    unfold D in Hn. rewrite elem_of_duplicates, occurrences_first_named, E in Hn.
    simpl in Hn. lia.
Qed.

Lemma sorted_cons_inv {A} (key : A -> string) l :
  l <> [] -> exists h t, sorted key l = h :: t.
Proof.
  intros Hl. destruct (sorted key l) as [|h t] eqn:E; [|by eauto].
  apply (f_equal length) in E.
  rewrite (Permutation_length (sorted_Permutation key l)) in E. by destruct l.
Qed.

(** Under the groups of [collect_to_prune_groups], an association is left
    in place exactly when its name is not flagged or it is the first of
    its name in candidate order. *)
Lemma kept_iff asns d a :
  NoDup asns -> a ∈ asns ->
  NoDup d.*1 ->
  (forall n g, (n, g) ∈ d <->
     n ∈ duplicates (first_name <$> asns) /\ g = List.filter (first_named n) asns) ->
  a ∉ removals d <->
  (first_name a ∉ duplicates (first_name <$> asns)
   \/ head (sort_by_candidate (List.filter (first_named (first_name a)) asns)) = Some a).
Proof.
  intros Hnd Ha Hkeys Hd. rewrite elem_of_removals.
  set (g := List.filter (first_named (first_name a)) asns).
  assert (a ∈ sort_by_candidate g) as Hag.
  { unfold sort_by_candidate. rewrite sorted_Permutation.
    apply elem_of_List_filter. split; [done|]. apply String.eqb_refl. }
  assert (NoDup (sort_by_candidate g)) as Hsg.
  { unfold sort_by_candidate. rewrite sorted_Permutation.
    by apply NoDup_List_filter. }
  split.
  - intros Hno.
    destruct (decide (first_name a ∈ duplicates (first_name <$> asns))) as [Hin|];
      [right|by left].
    destruct (sort_by_candidate g) as [|h t] eqn:E; [by apply elem_of_nil in Hag|].
    apply elem_of_cons in Hag as [->|Hat]; [done|].
    exfalso. apply Hno. exists (first_name a), g. split; [by apply Hd|].
    by rewrite E.
  - intros Hkept (n & g' & [Hn ->]%Hd & Hx).
    assert (first_name a = n) as Hna.
    { apply elem_of_tail_sorted, elem_of_List_filter in Hx as [_ Hx].
      by apply String.eqb_eq in Hx. }
    subst n. fold g in Hx. destruct Hkept as [Hkept|Hkept]; [done|].
    destruct (sort_by_candidate g) as [|h t]; [done|].
    injection Hkept as ->. simpl in Hx. by apply NoDup_cons in Hsg as [? _].
Qed.

Lemma NoDup_removals asns d :
  NoDup asns -> NoDup d.*1 ->
  (forall n g, (n, g) ∈ d -> g = List.filter (first_named n) asns) ->
  NoDup (removals d) /\ forall x, x ∈ removals d -> x ∈ asns.
Proof.
  intros Hnd Hkeys Hd. split.
  - induction d as [|[n g] d IH]; [apply NoDup_nil_2|].
    rewrite removals_cons. apply NoDup_cons in Hkeys as [Hn Hkeys].
    apply NoDup_app. split; [|split].
    + eapply sublist_NoDup; [|apply sublist_tail_sorted].
      unfold sort_by_candidate. rewrite sorted_Permutation.
      rewrite (Hd n g) by (apply elem_of_cons; auto).
      by apply NoDup_List_filter.
    + intros x Hx (n' & g' & Hg' & Hx')%elem_of_removals.
      apply elem_of_tail_sorted in Hx, Hx'.
      rewrite (Hd n g) in Hx by (apply elem_of_cons; auto).
      rewrite (Hd n' g') in Hx' by (apply elem_of_cons; auto).
      apply elem_of_List_filter in Hx as [_ Hx], Hx' as [_ Hx'].
      apply String.eqb_eq in Hx, Hx'. apply Hn.
      apply list_elem_of_fmap. exists (n', g'). split; [simpl; congruence|done].
    + apply IH; [done|]. intros n' g' Hg'. apply Hd, elem_of_cons. auto.
  - intros x (n & g & Hg & Hx)%elem_of_removals.
    apply elem_of_tail_sorted in Hx.
    rewrite (Hd n g Hg) in Hx. by apply elem_of_List_filter in Hx as [? _].
Qed.

Lemma distinct_under_eq_NoDup asns :
  distinct_under_eq asns ->
  NoDup asns
  /\ forall a b, a ∈ asns -> b ∈ asns -> asn_eq a b = true -> a = b.
Proof.
  intros H. split.
  - apply NoDup_alt. intros i j a Hi Hj. eapply H; [done..|apply asn_eq_refl].
  - intros a b [i Hi]%list_elem_of_lookup [j Hj]%list_elem_of_lookup Hab.
    assert (i = j) as -> by (by eapply H). congruence.
Qed.

Lemma prune_duplicate_products_unique asns :
  Forall (fun asn => products asn <> []) asns ->
  NoDup (first_name <$> asns) ->
  prune_duplicate_products asns = Ok asns.
Proof.
  intros H Hn. unfold prune_duplicate_products, get_product_names.
  rewrite first_product_names_Ok by done. cbn [bind].
  change (fst <$> List.filter _ (Counter ?l)) with (duplicates l).
  apply duplicates_nil in Hn. by rewrite Hn.
Qed.

(** X13.  When [==] tells all the associations of the list apart,
    [prune_duplicate_products] does what it is meant to: it keeps one
    association for every first product name, in the order of the input,
    namely the one whose [asn_id] comes first in the order of [str]; and
    pruning the result again changes nothing. *)
Theorem prune_duplicate_products_distinct (asns : list association) :
  Forall (fun asn => products asn <> []) asns ->
  distinct_under_eq asns ->
  exists pruned,
    prune_duplicate_products asns = Ok pruned
    /\ sublist pruned asns
    /\ NoDup (first_name <$> pruned)
    /\ (forall n, n ∈ first_name <$> pruned <-> n ∈ first_name <$> asns)
    /\ (forall a b, a ∈ pruned -> b ∈ asns -> first_name a = first_name b ->
                    String.leb (asn_id a) (asn_id b) = true)
    /\ prune_duplicate_products pruned = Ok pruned.
Proof.
  intros H [Hnd Hinj]%distinct_under_eq_NoDup.
  set (names := first_name <$> asns).
  assert (exists pruned,
            prune_duplicate_products asns = Ok pruned /\ sublist pruned asns
            /\ forall z, z ∈ pruned <->
                 z ∈ asns
                 /\ (first_name z ∉ duplicates names
                     \/ head (sort_by_candidate
                                (List.filter (first_named (first_name z)) asns))
                        = Some z)) as (pruned & Hp & Hs & Hz).
  { unfold prune_duplicate_products, get_product_names.
    rewrite first_product_names_Ok by done. cbn [bind].
    change (fst <$> List.filter _ (Counter ?l)) with (duplicates l). fold names.
    destruct (duplicates names) as [|n0 D0] eqn:ED.
    { exists asns. split; [done|]. split; [done|]. intros z.
      split; [|tauto]. intros Hin. split; [done|]. left. apply not_elem_of_nil. }
    rewrite <- ED.
    destruct (collect_to_prune_Ok (duplicates names) asns [] H) as (d & Hd & _).
    rewrite Hd. cbn [bind].
    apply collect_to_prune_groups in Hd as [Hkeys Hd].
    destruct (NoDup_removals asns d Hnd Hkeys) as [HR Hsub].
    { intros n g Hg. by apply Hd in Hg as [_ ?]. }
    destruct (prune_groups_exact d asns Hnd HR Hsub Hinj) as (r & -> & Hs & Hz).
    exists r. split; [done|]. split; [done|].
    intros z. rewrite Hz. split.
    - intros [Hin Hno]. split; [done|]. by apply (kept_iff asns d z).
    - intros [Hin Hk]. split; [done|]. by apply (kept_iff asns d z). }
  assert (forall a b, a ∈ pruned -> b ∈ asns -> first_name a = first_name b ->
                      String.leb (asn_id a) (asn_id b) = true) as Hfirst.
  { intros a b [Ha Hk]%Hz Hb Hab. destruct Hk as [Hk|Hk].
    - assert (a = b) as <- by (by eapply unflagged_unique).
      apply string_leb_refl.
    - set (g := List.filter (first_named (first_name a)) asns) in *.
      assert (b ∈ sort_by_candidate g) as Hbg.
      { unfold sort_by_candidate. rewrite sorted_Permutation.
        apply elem_of_List_filter. split; [done|]. by apply String.eqb_eq. }
      pose proof (sorted_ascending asn_id g) as Hasc.
      unfold sort_by_candidate in *.
      destruct (sorted asn_id g) as [|h t]; [done|].
      injection Hk as ->.
      apply elem_of_cons in Hbg as [->|Hbt]; [apply string_leb_refl|].
      destruct Hasc as [Hasc _]. rewrite Forall_forall in Hasc.
      apply Hasc, list_elem_of_fmap. by exists b. }
  assert (forall a b, a ∈ pruned -> b ∈ pruned -> first_name a = first_name b ->
                      a = b) as Hone.
  { intros a b [Ha Hk]%Hz [Hb Hk']%Hz Hab. destruct Hk as [Hk|Hk].
    - by eapply unflagged_unique.
    - destruct Hk' as [Hk'|Hk'].
      + symmetry. by eapply unflagged_unique.
      + rewrite <- Hab, Hk in Hk'. by injection Hk'. }
  exists pruned. split; [done|]. split; [done|].
  assert (NoDup (first_name <$> pruned)) as Hnames.
  { apply NoDup_fmap_2_strong; [|by eapply sublist_NoDup].
    intros a b Ha Hb Hab. by apply Hone. }
  split; [done|]. split; [|split].
  - intros n. split.
    + intros (a & -> & Ha)%list_elem_of_fmap. apply list_elem_of_fmap.
      exists a. split; [done|]. by eapply elem_of_sublist.
    + intros (a & -> & Ha)%list_elem_of_fmap.
      destruct (decide (first_name a ∈ duplicates names)) as [Hin|Hno].
      * set (g := List.filter (first_named (first_name a)) asns).
        destruct (sorted_cons_inv asn_id g) as (h & t & E).
        { intros Hg. assert (a ∈ g) as Hag; [|by rewrite Hg in Hag; apply elem_of_nil in Hag].
          apply elem_of_List_filter. split; [done|]. apply String.eqb_refl. }
        assert (h ∈ g) as [Hh Hhn%String.eqb_eq]%elem_of_List_filter.
        { rewrite <- (sorted_Permutation asn_id g), E. apply elem_of_cons. auto. }
        apply list_elem_of_fmap. exists h. split; [done|].
        apply Hz. split; [done|]. right. rewrite Hhn. fold g.
        unfold sort_by_candidate. by rewrite E.
      * apply list_elem_of_fmap. exists a. split; [done|]. apply Hz. auto.
  - intros a b Ha Hb Hab. by apply (Hfirst a b).
  - apply prune_duplicate_products_unique; [|done].
    rewrite Forall_forall in H |- *. intros a Ha. apply H.
    by eapply elem_of_sublist.
Qed.

Lemma prune_duplicate_products_distinct_witness :
  exists pruned,
    prune_duplicate_products [prune_o001; prune_c002_more] = Ok pruned
    /\ NoDup (first_name <$> pruned)
    /\ prune_duplicate_products pruned = Ok pruned.
Proof.
  destruct (prune_duplicate_products_distinct [prune_o001; prune_c002_more])
    as (pruned & Hp & _ & Hn & _ & _ & Hagain).
  - repeat (apply Forall_cons_2; [discriminate|]). apply Forall_nil_2.
  - intros [|[|i]] [|[|j]] a b; simpl; intros Ha Hb;
      try discriminate; injection Ha as <-; injection Hb as <-;
      vm_compute; intros; try discriminate; reflexivity.
  - exists pruned. repeat split; assumption.
Defined.

(** * Renaming a level-1b name *)

Lemma strip_prefix_uncal_no_underscore c s :
  Ascii.eqb c "_"%char = false -> strip_prefix "_uncal." (String c s) = None.
Proof.
  intros H. cbn [strip_prefix]. rewrite Ascii.eqb_sym. by rewrite H.
Qed.

Lemma match_type_extension_no_underscore c s :
  Ascii.eqb c "_"%char = false -> match_type_extension (String c s) = None.
Proof.
  intros H. unfold match_type_extension.
  by rewrite strip_prefix_uncal_no_underscore.
Qed.

(** Without an underscore after the first character there is no match. *)
Lemma re_match_LEVEL1B_no_underscore s c :
  no_underscore s = true -> re_match_LEVEL1B (String c s) = None.
Proof.
  revert c. induction s as [|c' s IH]; intros c.
  - intros _. cbn [re_match_LEVEL1B]. by destruct (is_dot c).
  - cbn [no_underscore]. intros [Hc Hs]%andb_true_iff.
    apply negb_true_iff in Hc.
    change (re_match_LEVEL1B (String c (String c' s))) with
      (if is_dot c then
         match re_match_LEVEL1B (String c' s) with
         | Some (path, type, extension) => Some (String c path, type, extension)
         | None =>
             match match_type_extension (String c' s) with
             | Some (type, extension) => Some (String c EmptyString, type, extension)
             | None => None
             end
         end
       else None).
    rewrite (IH c' Hs), (match_type_extension_no_underscore c' s Hc).
    by destruct (is_dot c).
Qed.

Lemma dot_star_all_dot e : all_dot e = true -> dot_star e = e.
Proof.
  induction e as [|c e IH]; [done|]. cbn [all_dot dot_star].
  intros [-> He]%andb_true_iff. by rewrite IH.
Qed.

Lemma match_type_extension_uncal e :
  e <> EmptyString -> all_dot e = true ->
  match_type_extension ("_uncal." +:+ e) = Some ("_uncal", String "." e).
Proof.
  intros He Hd. unfold match_type_extension.
  rewrite strip_prefix_app, dot_star_all_dot by done. by destruct e.
Qed.

Lemma re_match_LEVEL1B_last path e :
  path <> EmptyString -> all_dot path = true ->
  e <> EmptyString -> all_dot e = true -> no_underscore e = true ->
  re_match_LEVEL1B (path +:+ "_uncal." +:+ e) = Some (path, "_uncal", String "." e).
Proof.
  intros Hp Hdp He Hde Hu.
  induction path as [|c path IH]; [done|].
  cbn [all_dot] in Hdp. apply andb_true_iff in Hdp as [Hc Hdp].
  rewrite append_cons.
  destruct path as [|c' path'].
  - change (EmptyString +:+ "_uncal." +:+ e) with ("_uncal." +:+ e).
    cbn [re_match_LEVEL1B]. rewrite Hc.
    change ("_uncal." +:+ e) with (String "_" ("uncal." +:+ e)) at 1.
    rewrite re_match_LEVEL1B_no_underscore by (simpl; exact Hu).
    change (String "_" ("uncal." +:+ e)) with ("_uncal." +:+ e).
    by rewrite match_type_extension_uncal.
  - cbn [re_match_LEVEL1B]. rewrite Hc, IH by done. done.
Qed.

(** X14.  A name made of a path, ["_uncal"], a dot and an extension that
    holds no underscore (and no newline anywhere) is renamed by replacing
    ["_uncal"] with ["_rate"], or with ["_rateints"] for integrations; path
    and extension are kept. *)
Theorem rename_to_level2a_renames (path e : string) (use_integrations : bool) :
  path <> EmptyString -> all_dot path = true ->
  e <> EmptyString -> all_dot e = true -> no_underscore e = true ->
  rename_to_level2a (path +:+ "_uncal." +:+ e) use_integrations =
    path +:+ (if use_integrations then "_rateints." else "_rate.") +:+ e.
Proof.
  intros Hp Hdp He Hde Hu. unfold rename_to_level2a.
  rewrite re_match_LEVEL1B_last by done. cbn [negb String.eqb Ascii.eqb Bool.eqb].
  by destruct use_integrations.
Qed.

Lemma rename_to_level2a_renames_witness :
  rename_to_level2a "jw00001001001_01101_00001_nrca1_uncal.fits" true =
    "jw00001001001_01101_00001_nrca1_rateints.fits".
Proof.
  apply (rename_to_level2a_renames "jw00001001001_01101_00001_nrca1" "fits" true);
    first [reflexivity | discriminate].
Defined.

(** * Members by type, candidates and the product name *)

Lemma lower_lower s : lower (lower s) = lower s.
Proof.
  induction s as [|c s IH]; [done|]. cbn [lower]. rewrite IH. f_equal.
  unfold ascii_lower.
  destruct ((65 <=? N_of_ascii c)%N && (N_of_ascii c <=? 90)%N) eqn:E.
  - apply andb_true_iff in E as [H1%N.leb_le H2%N.leb_le].
    rewrite N_ascii_embedding by lia.
    replace ((65 <=? N_of_ascii c + 32)%N && (N_of_ascii c + 32 <=? 90)%N)
      with false; [done|].
    symmetry. apply andb_false_iff. right. apply N.leb_gt. lia.
  - by rewrite E.
Qed.

Lemma elem_of_members_by_type t self m :
  m ∈ members_by_type t self <->
  exists p, current_product self = Some p /\ m ∈ members p
            /\ lower (exptype m) = lower t.
Proof.
  unfold members_by_type. destruct (current_product self) as [p|].
  - rewrite elem_of_List_filter, String.eqb_eq. split.
    + intros [Hm Ht]. by exists p.
    + intros (p' & [= <-] & Hm & Ht). done.
  - split; [by intros ?%elem_of_nil|]. by intros (p & ? & _).
Qed.

(** X15.  [members_by_type] tells the types apart without regard to case,
    in its argument as in the members; [has_science] holds exactly when
    the current product has a member whose type reads "science";
    [validate_candidates] holds exactly when the candidate type reads
    "observation", or reads "background" while the current product has a
    background member. *)
Theorem members_by_type_case (self : association) (member_type : string) :
  members_by_type member_type self = members_by_type (lower member_type) self
  /\ (forall m, m ∈ members_by_type member_type self <->
        exists p, current_product self = Some p /\ m ∈ members p
                  /\ lower (exptype m) = lower member_type)
  /\ (has_science self = true <->
        exists p m, current_product self = Some p /\ m ∈ members p
                    /\ lower (exptype m) = "science")
  /\ (validate_candidates self = true <->
        lower (acid_type (acid self)) = "observation"
        \/ (lower (acid_type (acid self)) = "background"
            /\ members_by_type "background" self <> [])).
Proof.
  split; [|split; [|split]].
  - unfold members_by_type. by rewrite lower_lower.
  - intros m. apply elem_of_members_by_type.
  - unfold has_science. rewrite Nat.leb_le. split.
    + intros Hl. destruct (members_by_type "science" self) as [|m l] eqn:E;
        [simpl in Hl; lia|].
      assert (m ∈ members_by_type "science" self) as Hm
        by (rewrite E; apply elem_of_cons; auto).
      apply elem_of_members_by_type in Hm as (p & Hp & Hm & Ht). by exists p, m.
    + intros (p & m & Hp & Hm & Ht).
      assert (m ∈ members_by_type "science" self) as Hin.
      { apply elem_of_members_by_type. by exists p. }
      destruct (members_by_type "science" self);
        [by apply elem_of_nil in Hin|simpl; lia].
  - unfold validate_candidates, members_by_type.
    destruct (String.eqb (lower (acid_type (acid self))) "observation") eqn:Eo.
    { apply String.eqb_eq in Eo. split; auto. }
    apply String.eqb_neq in Eo.
    destruct (String.eqb (lower (acid_type (acid self))) "background") eqn:Eb.
    + apply String.eqb_eq in Eb. destruct (current_product self) as [p|].
      * rewrite existsb_exists. split.
        -- intros (m & Hm & Ht). right. split; [done|].
           intros Hnil.
           assert (In m (List.filter
                           (fun m => String.eqb (lower "background") (lower (exptype m)))
                           (members p))) as Hin; [|by rewrite Hnil in Hin].
           apply filter_In. split; [done|]. by rewrite String.eqb_sym.
        -- intros [?|[_ Hne]]; [done|].
           destruct (List.filter _ (members p)) as [|m l] eqn:E; [done|].
           assert (In m (m :: l)) as Hin by (by left).
           rewrite <- E in Hin. apply filter_In in Hin as [Hm Ht].
           exists m. split; [done|]. by rewrite String.eqb_sym.
      * split; [done|]. by intros [?|[_ ?]].
    + apply String.eqb_neq in Eb. split; [done|]. by intros [?|[? _]].
Qed.

Lemma members_by_type_case_witness :
  has_science nod_sample = true.
Proof.
  apply (proj1 (proj2 (proj2 (members_by_type_case nod_sample "science")))).
  exists {| name := "jw001_nod1";
            members := [exposure "jw001_nod1" "science";
                        exposure "jw001_acq" "target_acquisition";
                        exposure "jw001_nod2" "science";
                        exposure "jw001_nod3" "science"] |},
         (exposure "jw001_nod1" "science").
  split; [reflexivity|]. split; [apply elem_of_cons; auto|reflexivity].
Defined.

Lemma members_by_type_append_member t m ps p asn :
  members_by_type t (append_member m (set_products (ps ++ [p]) asn)) =
    members_by_type t (set_products (ps ++ [p]) asn)
      ++ (if String.eqb (lower t) (lower (exptype m)) then [m] else []).
Proof.
  rewrite append_member_snoc. unfold members_by_type.
  rewrite !current_product_snoc. cbn [members].
  rewrite List.filter_app. done.
Qed.

Lemma products_snoc asn :
  products asn <> [] ->
  exists ps p, asn = set_products (ps ++ [p]) asn /\ products asn = ps ++ [p].
Proof.
  intros H. destruct (products asn) as [|q qs] eqn:E using rev_ind; [done|].
  exists qs, q. split; [|done]. rewrite <- E. by rewrite set_products_id.
Qed.

Section Level2_further.

Variable splitext : string -> string * string.
Variable path_split : string -> string * string.
Variable remove_suffix : string -> string * string.
Variable PRODUCT_NAME_DEFAULT : string.
Variable is_valid : association -> bool.

(** X16.  The product name is the default name as long as the current
    product has no science member.  Once it has one, the name is read off
    the first science member alone: members appended later, and a change of
    the product's name, leave it as it is. *)
Theorem dms_product_name_first_science (self : association) (m : member) (n : string) :
  (has_science self = false ->
   dms_product_name splitext remove_suffix PRODUCT_NAME_DEFAULT self =
     PRODUCT_NAME_DEFAULT)
  /\ (has_science self = true ->
      dms_product_name splitext remove_suffix PRODUCT_NAME_DEFAULT
        (append_member m self) =
      dms_product_name splitext remove_suffix PRODUCT_NAME_DEFAULT self)
  /\ dms_product_name splitext remove_suffix PRODUCT_NAME_DEFAULT
       (set_current_name n self) =
     dms_product_name splitext remove_suffix PRODUCT_NAME_DEFAULT self.
Proof.
  split; [|split].
  - unfold has_science, dms_product_name.
    destruct (members_by_type "science" self); [done|]. simpl. discriminate.
  - intros Hs.
    assert (products self <> []) as Hp.
    { intros Hp. unfold has_science, members_by_type, current_product in Hs.
      by rewrite Hp in Hs. }
    destruct (products_snoc self Hp) as (ps & p & Hself & _).
    rewrite Hself in Hs |- *. unfold dms_product_name.
    rewrite members_by_type_append_member.
    unfold has_science in Hs.
    destruct (members_by_type "science" (set_products (ps ++ [p]) self));
      [simpl in Hs; discriminate|done].
  - unfold dms_product_name, members_by_type.
    assert (members <$> current_product (set_current_name n self) =
            members <$> current_product self) as Hm.
    { destruct (decide (products self = [])) as [Hp|Hp].
      - unfold set_current_name, update_current. by rewrite Hp.
      - destruct (products_snoc self Hp) as (ps & p & Hself & _).
        rewrite Hself. unfold set_current_name.
        by rewrite update_current_snoc, !current_product_snoc. }
    destruct (current_product (set_current_name n self)) as [p|],
             (current_product self) as [q|]; try done.
    simpl in Hm. injection Hm as ->. done.
Qed.

End Level2_further.

Lemma dms_product_name_first_science_witness :
  dms_product_name no_extension no_extension "undefined"
    (append_member (exposure "late" "science") nod_sample) =
  dms_product_name no_extension no_extension "undefined" nod_sample.
Proof.
  apply (proj1 (proj2 (dms_product_name_first_science no_extension no_extension "undefined" nod_sample
                         (exposure "late" "science") "any"))).
  reflexivity.
Defined.

(** * Nod splitting and bulk add, for any number of exposures *)

Lemma filter_partition_Permutation {A} (f : A -> bool) l :
  List.filter f l ++ List.filter (fun x => negb (f x)) l ≡ₚ l.
Proof.
  induction l as [|x l IH]; [done|]. cbn [List.filter].
  destruct (f x); cbn [negb app].
  - by rewrite IH.
  - rewrite <- Permutation_middle. by rewrite IH.
Qed.

Lemma filter_others_Permutation (s : member) l :
  NoDup (expnames l) -> s ∈ l ->
  s :: List.filter (fun other => negb (String.eqb (expname other) (expname s))) l ≡ₚ l.
Proof.
  induction l as [|x l IH]; [by intros _ ?%elem_of_nil|].
  unfold expnames. rewrite fmap_cons. intros [Hx Hnd]%NoDup_cons Hin.
  cbn [List.filter]. apply elem_of_cons in Hin as [->|Hin].
  - rewrite String.eqb_refl. cbn [negb]. f_equiv.
    rewrite forallb_filter_id; [done|].
    apply forallb_forall. intros y Hy. apply negb_true_iff, String.eqb_neq.
    intros Heq. apply Hx. rewrite <- Heq. apply list_elem_of_fmap.
    exists y. split; [done|]. by apply list_elem_of_In.
  - destruct (String.eqb (expname x) (expname s)) eqn:E.
    + apply String.eqb_eq in E. exfalso. apply Hx. rewrite E.
      apply list_elem_of_fmap. by exists s.
    + cbn [negb]. rewrite Permutation_swap. f_equiv. by apply IH.
Qed.

Lemma expnames_now_background l : expnames (now_background <$> l) = expnames l.
Proof. unfold expnames. rewrite <- list_fmap_compose. done. Qed.

Lemma filter_science_split s others non :
  exptype s = "science" ->
  Forall (fun m => String.eqb (exptype m) "science" = false) non ->
  List.filter (fun m => String.eqb (exptype m) "science")
    (s :: (now_background <$> others) ++ non) = [s].
Proof.
  intros Hs Hnon. cbn [List.filter]. rewrite Hs, String.eqb_refl. f_equal.
  rewrite List.filter_app.
  assert (forall l : list member,
            Forall (fun m => String.eqb (exptype m) "science" = false) l ->
            List.filter (fun m => String.eqb (exptype m) "science") l = []) as Hnone.
  { induction 1 as [|x l Hx _ IH]; [done|]. cbn [List.filter]. by rewrite Hx. }
  rewrite !Hnone; [done|done|].
  apply Forall_fmap, Forall_forall. done.
Qed.

Section Nod_and_bulk.

Variable splitext : string -> string * string.
Variable path_split : string -> string * string.
Variable remove_suffix : string -> string * string.
Variable PRODUCT_NAME_DEFAULT : string.
Variable is_valid : association -> bool.

Local Abbreviation nod_splits := (make_nod_asns splitext path_split remove_suffix is_valid).

(** X17.  [make_nod_asns] yields [None] for an association without
    products.  Otherwise it splits the first product only, whatever
    follows it: no more associations come out than the product has
    science members, and exactly as many when every split is valid.  Each
    one keeps the type, the id and the candidate and has a single product,
    which opens with a science member of the original.  When the science
    members carry distinct exposure names, this member is its only science
    member, and the product holds the exposure names of the original, each
    once more. *)
Theorem make_nod_asns_each_science (self : association) :
  (products self = [] -> nod_splits self = None)
  /\ (forall prod rest, products self = prod :: rest ->
      let science_exps :=
        List.filter (fun m => String.eqb (exptype m) "science") (members prod) in
      exists out,
        nod_splits self = Some out
        /\ nod_splits (set_products [prod] self) = Some out
        /\ length out <= length science_exps
        /\ ((forall asn, is_valid asn = true) -> length out = length science_exps)
        /\ Forall (fun asn =>
                     asn_type asn = asn_type self /\ asn_id asn = asn_id self
                     /\ acid asn = acid self
                     /\ exists s others,
                          products asn =
                            [ {| name := nod_product_name splitext path_split
                                           remove_suffix s;
                                 members := s :: others |} ]
                          /\ s ∈ science_exps
                          /\ (NoDup (expnames science_exps) ->
                              List.filter
                                (fun m => String.eqb (exptype m) "science")
                                (s :: others) = [s]
                              /\ expnames (s :: others) ≡ₚ expnames (members prod)))
                  out).
Proof.
  split.
  - intros Hp. unfold make_nod_asns. by rewrite Hp.
  - intros prod rest Hp science_exps.
    rewrite (make_nod_asns_filter _ _ _ _ self prod rest Hp).
    rewrite (make_nod_asns_filter _ _ _ _ (set_products [prod] self) prod [] eq_refl).
    cbv zeta. fold science_exps.
    set (nonscience_exps :=
           List.filter (fun m => negb (String.eqb (exptype m) "science")) (members prod)).
    eexists. split; [reflexivity|]. split; [|split; [|split]].
    + reflexivity.
    + etrans; [apply List.filter_length_le|]. by rewrite length_fmap.
    + intros Hv. rewrite forallb_filter_id; [by rewrite length_fmap|].
      apply forallb_forall. auto.
    + apply Forall_forall. intros asn [Hin _]%elem_of_List_filter.
      apply list_elem_of_fmap in Hin as (s & -> & Hs).
      rewrite nod_asn_members. repeat split; try done.
      eexists s, _. split; [reflexivity|]. split; [done|].
      intros Hnd. split.
      * apply filter_science_split.
        -- apply elem_of_List_filter in Hs as [_ Hs]. by apply String.eqb_eq.
        -- apply Forall_forall. intros m [_ Hm]%elem_of_List_filter.
           by apply negb_true_iff.
      * set (F := List.filter
                    (fun other => negb (String.eqb (expname other) (expname s)))
                    science_exps).
        assert (expnames (s :: (now_background <$> F) ++ nonscience_exps) =
                expnames ((s :: F) ++ nonscience_exps)) as ->.
        { unfold expnames. cbn [app]. rewrite !fmap_cons, !fmap_app.
          by rewrite <- list_fmap_compose. }
        unfold expnames. apply fmap_Permutation. unfold F.
        rewrite (filter_others_Permutation s science_exps Hnd Hs).
        apply filter_partition_Permutation.
Qed.

(** X18.  After [_add_items] accepted a non-empty list of items, the
    association has a science member in its current product.  Under an
    observation candidate (an id that starts with "o") its candidates are
    valid; under a background candidate (an id that starts with "c") they
    are not, as every member that was added is a science member. *)
Theorem _add_items_candidates (items : list string) (meta : list (string * string))
    (product_name_func : option (string -> nat -> option string))
    (acid_id : string) (self : association) :
  items <> [] ->
  let r := snd (_add_items splitext remove_suffix PRODUCT_NAME_DEFAULT
                  items meta product_name_func acid_id self) in
  (String.prefix "o" acid_id = true ->
   has_science r = true /\ validate_candidates r = true)
  /\ (String.prefix "o" acid_id = false -> String.prefix "c" acid_id = true ->
      has_science r = true /\ validate_candidates r = false).
Proof.
  intros Hitems r.
  assert (forall ac_type,
            r = data_update meta
                  (add_items_from splitext remove_suffix PRODUCT_NAME_DEFAULT
                     product_name_func 1 items
                     (set_acid {| acid_id := acid_id; acid_type := ac_type |} self)) ->
            exists n item,
              current_product r =
                Some {| name := n;
                        members := [ {| expname := item; exptype := "science";
                                        exposerr := None |} ] |}
              /\ acid_type (acid r) = ac_type) as Hcur.
  { intros ac_type ->. unfold current_product.
    destruct (products_data_update meta
                (add_items_from splitext remove_suffix PRODUCT_NAME_DEFAULT
                   product_name_func 1 items
                   (set_acid {| acid_id := acid_id; acid_type := ac_type |} self)))
      as [-> ->].
    rewrite add_items_from_products. cbn [products acid set_products set_acid acid_type].
    destruct items as [|item items _] using rev_ind; [done|].
    rewrite imap_app, (assoc_L (++)). cbn [imap]. rewrite last_snoc.
    eexists _, item. split; reflexivity. }
  unfold r, _add_items in *. split.
  - intros Ho. rewrite Ho in *. cbn [snd] in *.
    destruct (Hcur "observation" eq_refl) as (n & item & Hc & Ht).
    unfold has_science, members_by_type, validate_candidates.
    rewrite Hc, Ht. done.
  - intros Ho Hc'. rewrite Ho, Hc' in *. cbn [snd] in *.
    destruct (Hcur "background" eq_refl) as (n & item & Hc & Ht).
    unfold has_science, members_by_type, validate_candidates.
    rewrite Hc, Ht. done.
Qed.

End Nod_and_bulk.

Lemma make_nod_asns_each_science_witness :
  exists out,
    make_nod_asns no_extension no_directory no_extension (fun _ => true) nod_sample =
      Some out
    /\ length out = 3.
Proof.
  destruct (proj2 (make_nod_asns_each_science no_extension no_directory no_extension
                     (fun _ => true) nod_sample) _ [] eq_refl)
    as (out & Ho & _ & _ & Hl & _).
  exists out. split; [exact Ho|]. apply Hl. reflexivity.
Defined.

Lemma _add_items_candidates_witness :
  let r := snd (_add_items no_extension no_extension "undefined"
                  ["jw001_a"; "jw001_b"] [] None "c1000" nod_sample) in
  has_science r = true /\ validate_candidates r = false.
Proof.
  apply (proj2 (_add_items_candidates no_extension no_extension "undefined"
                  ["jw001_a"; "jw001_b"] [] None "c1000" nod_sample
                  ltac:(discriminate)));
    reflexivity.
Defined.

(** * _merge_asns on any list *)

Lemma exposure_in_member_ids e asn :
  e ∈ member_ids asn <-> exposure_in e (products asn).
Proof. apply elem_of_member_ids. Qed.

Lemma exposure_in_nil e : ~ exposure_in e [].
Proof. by intros (p & m & ?%elem_of_nil & _). Qed.

Lemma exposure_in_cons e p ps :
  exposure_in e (p :: ps) <-> e ∈ expnames (members p) \/ exposure_in e ps.
Proof.
  unfold exposure_in, expnames. split.
  - intros (q & m & [->|Hq]%elem_of_cons & Hm & He).
    + left. apply list_elem_of_fmap. by exists m.
    + right. by exists q, m.
  - intros [(m & -> & Hm)%list_elem_of_fmap|(q & m & Hq & Hm & He)].
    + exists p, m. split; [apply elem_of_cons; auto|done].
    + exists q, m. split; [apply elem_of_cons; auto|done].
Qed.

Lemma exposure_in_app e ps qs :
  exposure_in e (ps ++ qs) <-> exposure_in e ps \/ exposure_in e qs.
Proof.
  induction ps as [|p ps IH]; cbn [app].
  - split; [auto|]. intros [H|H]; [destruct (exposure_in_nil e H)|done].
  - rewrite !exposure_in_cons, IH. tauto.
Qed.

Lemma expnames_merge_members e p cp :
  e ∈ expnames (members (merge_members p cp)) <->
  e ∈ expnames (members cp) \/ e ∈ expnames (members p).
Proof. rewrite merge_members_new. cbn [members]. apply expnames_merged. Qed.

(** Merging a product into the current ones adds its exposures and
    nothing else. *)
Lemma exposure_in_merge_product e cps p :
  exposure_in e (merge_product cps p) <->
  exposure_in e cps \/ e ∈ expnames (members p).
Proof.
  unfold merge_product. rewrite merge_into_fmap.
  set (f := fun cp => if String.eqb (name p) (name cp) then merge_members p cp else cp).
  assert (exposure_in e (f <$> cps) -> exposure_in e cps \/ e ∈ expnames (members p))
    as Hsound.
  { induction cps as [|cp cps IH];
      [rewrite fmap_nil; intros H; destruct (exposure_in_nil e H)|].
    rewrite fmap_cons, !exposure_in_cons. intros [H|H].
    - unfold f in H. destruct (String.eqb (name p) (name cp)); [|auto].
      apply expnames_merge_members in H. tauto.
    - apply IH in H. tauto. }
  assert (exposure_in e cps -> exposure_in e (f <$> cps)) as Hkeep.
  { clear Hsound. induction cps as [|cp cps IH]; [done|].
    rewrite fmap_cons, !exposure_in_cons. intros [H|H]; [left|right; by apply IH].
    unfold f. destruct (String.eqb (name p) (name cp)); [|done].
    apply expnames_merge_members. auto. }
  destruct (existsb _ cps) eqn:E.
  - split; [done|]. intros [H|H]; [by apply Hkeep|].
    apply existsb_exists in E as (cp & Hcp & Hn). clear Hsound Hkeep.
    induction cps as [|cp' cps IH]; [done|].
    rewrite fmap_cons, exposure_in_cons. destruct Hcp as [->|Hcp]; [left|right; auto].
    unfold f. rewrite Hn. apply expnames_merge_members. auto.
  - rewrite exposure_in_app, exposure_in_cons. split.
    + intros [H|[H|H]]; [by apply Hsound|auto|destruct (exposure_in_nil e H)].
    + intros [H|H]; [left; by apply Hkeep|auto].
Qed.

Lemma exposure_in_foldl_merge_product e ps cps :
  exposure_in e (foldl merge_product cps ps) <->
  exposure_in e cps \/ exposure_in e ps.
Proof.
  revert cps. induction ps as [|p ps IH]; intros cps; cbn [foldl].
  - split; [auto|]. intros [H|H]; [done|destruct (exposure_in_nil e H)].
  - rewrite IH, exposure_in_merge_product, exposure_in_cons. tauto.
Qed.

Lemma exposure_in_lookup e ps i p :
  ps !! i = Some p -> e ∈ expnames (members p) -> exposure_in e ps.
Proof.
  intros Hp (m & -> & Hm)%list_elem_of_fmap. exists p, m.
  split; [by eapply list_elem_of_lookup_2|done].
Qed.

(** A product that meets a like-named product of its own association
    brings nothing the association did not have. *)
Lemma exposure_in_self_merge_step e i j ps :
  exposure_in e (self_merge_step i j ps) <-> exposure_in e ps.
Proof.
  unfold self_merge_step.
  destruct (ps !! i) as [prod|] eqn:Ei; [|done].
  destruct (ps !! j) as [cur|] eqn:Ej; [|done].
  destruct (String.eqb (name prod) (name cur)); [|done].
  rewrite <- (take_drop_middle ps j cur Ej) at 2.
  rewrite insert_take_drop by (by eapply lookup_lt_Some).
  rewrite !exposure_in_app, !exposure_in_cons, expnames_merge_members.
  split; [|tauto]. intros [H|[[H|H]|H]]; auto.
  pose proof (exposure_in_lookup e ps i prod Ei H) as Hin.
  rewrite <- (take_drop_middle ps j cur Ej) in Hin.
  by rewrite exposure_in_app, exposure_in_cons in Hin.
Qed.

Lemma exposure_in_self_merge e ps :
  exposure_in e (self_merge ps) <-> exposure_in e ps.
Proof.
  unfold self_merge. generalize (seq 0 (length ps)). intros outer.
  revert ps. induction outer as [|i outer IH]; intros ps; [done|].
  cbn [foldl]. rewrite IH. generalize (seq 0 (length ps)). intros inner.
  revert ps. induction inner as [|j inner IH']; intros ps; [done|].
  cbn [foldl]. by rewrite IH', exposure_in_self_merge_step.
Qed.

(** ** The dictionary of merged associations *)

Lemma dict_set_keys {A} k (v : A) d :
  (dict_set k v d).*1 = if bool_decide (k ∈ d.*1) then d.*1 else d.*1 ++ [k].
Proof.
  induction d as [|[k' v'] d IH]; [done|].
  cbn [dict_set]. destruct (String.eqb k' k) eqn:E.
  - apply String.eqb_eq in E as ->.
    rewrite bool_decide_eq_true_2 by (rewrite fmap_cons; apply elem_of_cons; auto).
    done.
  - apply String.eqb_neq in E. rewrite !fmap_cons, IH. cbn [fst].
    destruct (bool_decide_reflect (k ∈ d.*1)) as [Hin|Hin].
    + rewrite bool_decide_eq_true_2 by (apply elem_of_cons; auto). done.
    + rewrite bool_decide_eq_false_2; [done|].
      intros [?|?]%elem_of_cons; [congruence|done].
Qed.

Lemma dict_get_dict_set {A} k k' (v : A) d :
  dict_get k' (dict_set k v d) = if String.eqb k k' then Some v else dict_get k' d.
Proof.
  induction d as [|[k0 v0] d IH].
  - simpl. by destruct (String.eqb k k').
  - cbn [dict_set dict_get]. destruct (String.eqb k0 k) eqn:E.
    + apply String.eqb_eq in E as ->. cbn [dict_get].
      by destruct (String.eqb k k').
    + cbn [dict_get]. rewrite IH. destruct (String.eqb k0 k') eqn:E'; [|done].
      apply String.eqb_eq in E' as ->. rewrite String.eqb_sym in E. by rewrite E.
Qed.

Lemma dict_get_Some_key {A} k (v : A) d : dict_get k d = Some v -> k ∈ d.*1.
Proof.
  induction d as [|[k' v'] d IH]; [done|]. cbn [dict_get]. rewrite fmap_cons.
  destruct (String.eqb k' k) eqn:E.
  - apply String.eqb_eq in E as ->. intros _. apply elem_of_cons. auto.
  - intros H. apply elem_of_cons. auto.
Qed.

Lemma dict_get_is_Some_key {A} k (d : list (string * A)) :
  k ∈ d.*1 -> exists v, dict_get k d = Some v.
Proof.
  induction d as [|[k' v'] d IH]; [by intros ?%elem_of_nil|].
  rewrite fmap_cons. cbn [dict_get fst]. destruct (String.eqb k' k) eqn:E.
  - intros _. by exists v'.
  - apply String.eqb_neq in E. intros [?|?]%elem_of_cons; [congruence|auto].
Qed.

Lemma first_seen_acc_elem (keys seen : list string) (k : string) :
  k ∈ foldl (fun seen k => if bool_decide (k ∈ seen) then seen else seen ++ [k])
        seen keys
  <-> k ∈ seen \/ k ∈ keys.
Proof.
  revert seen. induction keys as [|k' keys IH]; intros seen; cbn [foldl].
  - rewrite elem_of_nil. tauto.
  - rewrite IH, elem_of_cons. case_bool_decide as Hin.
    + split; [tauto|]. intros [?|[->|?]]; auto.
    + rewrite elem_of_app, list_elem_of_singleton. tauto.
Qed.

Lemma first_seen_acc_NoDup (keys seen : list string) :
  NoDup seen ->
  NoDup (foldl (fun seen k => if bool_decide (k ∈ seen) then seen else seen ++ [k])
           seen keys).
Proof.
  revert seen. induction keys as [|k' keys IH]; intros seen Hnd; cbn [foldl]; [done|].
  apply IH. case_bool_decide as Hin; [done|].
  apply NoDup_app. repeat split; [done| |apply NoDup_singleton].
  intros x Hx Hx'%list_elem_of_singleton. congruence.
Qed.

Lemma elem_of_first_seen keys k : k ∈ first_seen keys <-> k ∈ keys.
Proof. unfold first_seen. rewrite first_seen_acc_elem, elem_of_nil. tauto. Qed.

Lemma NoDup_first_seen keys : NoDup (first_seen keys).
Proof. apply first_seen_acc_NoDup, NoDup_nil_2. Qed.

Lemma first_seen_snoc keys k :
  first_seen (keys ++ [k]) =
    if bool_decide (k ∈ first_seen keys) then first_seen keys
    else first_seen keys ++ [k].
Proof. unfold first_seen. by rewrite foldl_app. Qed.

Lemma keyed_snoc k asns x :
  keyed k (asns ++ [x]) =
    keyed k asns ++ (if String.eqb (merge_idx x) k then [x] else []).
Proof. unfold keyed. by rewrite List.filter_app. Qed.

Lemma elem_of_keyed k asns a :
  a ∈ keyed k asns <-> a ∈ asns /\ merge_idx a = k.
Proof. unfold keyed. by rewrite elem_of_List_filter, String.eqb_eq. Qed.

Lemma keyed_nil k asns : k ∉ merge_idx <$> asns -> keyed k asns = [].
Proof.
  intros Hk. destruct (keyed k asns) as [|a l] eqn:E; [done|].
  assert (a ∈ keyed k asns) as [Ha Hka]%elem_of_keyed
    by (rewrite E; apply elem_of_cons; auto).
  exfalso. apply Hk, list_elem_of_fmap. by exists a.
Qed.

(** What the dictionary holds after the associations were taken in: the
    keys in order of first appearance; under each key the first
    association of this key, with the exposures of all of them. *)
Lemma foldl_merge_asn_inv asns :
  let merged := foldl merge_asn [] asns in
  merged.*1 = first_seen (merge_idx <$> asns)
  /\ forall k v, dict_get k merged = Some v ->
       exists a, head (keyed k asns) = Some a
         /\ asn_type v = asn_type a /\ asn_id v = asn_id a /\ acid v = acid a
         /\ forall e, exposure_in e (products v) <->
                      exists a', a' ∈ keyed k asns /\ exposure_in e (products a').
Proof.
  induction asns as [|x asns IH] using rev_ind; [done|].
  cbv zeta in *. rewrite foldl_app. cbn [foldl].
  set (merged := foldl merge_asn [] asns) in *. destruct IH as [Hkeys Hvals].
  set (idx := merge_idx x).
  assert (exists v', merge_asn merged x = dict_set idx v' merged
            /\ match dict_get idx merged with
               | Some cur =>
                   v' = set_products
                          (foldl merge_product (products cur) (products x)) cur
               | None => v' = set_products (self_merge (products x)) x
               end) as (v' & -> & Hv').
  { unfold merge_asn. fold idx. destruct (dict_get idx merged); by eexists. }
  split.
  - rewrite dict_set_keys, Hkeys, fmap_app.
    change (merge_idx <$> [x]) with [idx]. by rewrite first_seen_snoc.
  - intros k v. rewrite dict_get_dict_set, keyed_snoc. fold idx.
    destruct (String.eqb idx k) eqn:Ek.
    + apply String.eqb_eq in Ek as <-. intros [= <-].
      destruct (dict_get idx merged) as [cur|] eqn:Eg.
      * destruct (Hvals idx cur Eg) as (a & Ha & Ht & Hi & Hc & He). subst v'.
        exists a. split; [by destruct (keyed idx asns)|].
        split; [done|]. split; [done|]. split; [done|].
        intros e. cbn [products set_products].
        rewrite exposure_in_foldl_merge_product, He. split.
        -- intros [(a' & Ha' & He')|Hx].
           ++ exists a'. split; [apply elem_of_app; auto|done].
           ++ exists x. split; [|done]. apply elem_of_app. right.
              by apply list_elem_of_singleton.
        -- intros (a' & [Ha'|Ha']%elem_of_app & He').
           ++ left. by exists a'.
           ++ apply list_elem_of_singleton in Ha' as ->. by right.
      * subst v'.
        assert (keyed idx asns = []) as ->.
        { apply keyed_nil. rewrite <- elem_of_first_seen, <- Hkeys.
          intros (v0 & Hv0)%dict_get_is_Some_key. congruence. }
        exists x. split; [done|]. split; [done|]. split; [done|]. split; [done|].
        intros e. cbn [products set_products app].
        rewrite exposure_in_self_merge. split.
        -- intros He. exists x. split; [by apply list_elem_of_singleton|done].
        -- intros (a' & Ha' & He'). by apply list_elem_of_singleton in Ha' as ->.
    + intros Hg. destruct (Hvals k v Hg) as (a & Ha & Hrest).
      rewrite (right_id_L [] (++)). by exists a.
Qed.

Lemma keys_of_values (d : list (string * association)) :
  (forall k v, (k, v) ∈ d -> merge_idx v = k) -> merge_idx <$> d.*2 = d.*1.
Proof.
  induction d as [|[k v] d IH]; [done|]. intros H. rewrite !fmap_cons. f_equal.
  - apply H, elem_of_cons. auto.
  - apply IH. intros k' v' Hin. apply H, elem_of_cons. auto.
Qed.

Lemma head_Some_elem_of {A} (l : list A) x : head l = Some x -> x ∈ l.
Proof. destruct l; [done|]. intros [= ->]. apply elem_of_cons. auto. Qed.

(** X19.  [_merge_asns] returns one association for every key
    [asn_type + '_' + asn_id], in the order in which the keys first appear.
    Each carries the type, the id and the candidate of the first
    association of its key, and its products hold the exposures of all the
    associations of this key, no more and no fewer. *)
Theorem _merge_asns_by_key (asns : list association) :
  merge_idx <$> _merge_asns asns = first_seen (merge_idx <$> asns)
  /\ NoDup (merge_idx <$> _merge_asns asns)
  /\ Forall (fun r =>
               exists a,
                 head (keyed (merge_idx r) asns) = Some a
                 /\ asn_type r = asn_type a /\ asn_id r = asn_id a
                 /\ acid r = acid a
                 /\ forall e, e ∈ member_ids r <->
                      exists a', a' ∈ asns /\ merge_idx a' = merge_idx r
                                 /\ e ∈ member_ids a')
            (_merge_asns asns).
Proof.
  unfold _merge_asns. destruct (foldl_merge_asn_inv asns) as [Hkeys Hvals].
  set (merged := foldl merge_asn [] asns) in *.
  assert (NoDup merged.*1) as Hnd by (rewrite Hkeys; apply NoDup_first_seen).
  assert (forall k v, (k, v) ∈ merged -> merge_idx v = k) as Hidx.
  { intros k v Hin%(dict_get_elem_of k v merged Hnd).
    destruct (Hvals k v Hin) as (a & Ha & Ht & Hi & _).
    apply head_Some_elem_of, elem_of_keyed in Ha as [_ <-].
    unfold merge_idx. by rewrite Ht, Hi. }
  rewrite (keys_of_values merged Hidx). split; [done|]. split; [done|].
  apply Forall_forall. intros r ([k v] & -> & Hin)%list_elem_of_fmap. cbn [snd].
  rewrite (Hidx k v Hin).
  apply (dict_get_elem_of k v merged Hnd) in Hin.
  destruct (Hvals k v Hin) as (a & Ha & Ht & Hi & Hc & He).
  exists a. split; [done|]. split; [done|]. split; [done|]. split; [done|].
  intros e. rewrite exposure_in_member_ids, He. split.
  - intros (a' & [Ha' Hk]%elem_of_keyed & He'). exists a'.
    by rewrite exposure_in_member_ids.
  - intros (a' & Ha' & Hk & He'). exists a'. split; [by apply elem_of_keyed|].
    by apply exposure_in_member_ids.
Qed.

Lemma _merge_asns_by_key_witness :
  merge_idx <$> _merge_asns [role_left; prune_c002; role_right] =
    ["image2_o001"; "spec2_c002"].
Proof.
  exact (proj1 (_merge_asns_by_key [role_left; prune_c002; role_right])).
Defined.

(** * Lists of associations: transitivity, and an association against itself *)

Lemma compare_asns_passes_trans a b c :
  passes (compare_asns a b) = true -> passes (compare_asns b c) = true ->
  passes (compare_asns a c) = true.
Proof.
  rewrite !compare_asns_classes.
  intros (Ht & (ch & x & y & Ha & Hb) & Hm) (Ht' & (ch' & x' & y' & Hb' & Hc) & Hm').
  repeat split; [congruence| |].
  - rewrite Hb in Hb'. injection Hb' as <- <-. by exists ch, x, y'.
  - intros k. eapply Forall2_members_match_trans; [apply Hm|apply Hm'].
Qed.

(** X20.  The comparison of lists is transitive, in whatever order the
    names are visited: when [A] compares equal to [B] and [B] to [C], then
    [A] compares equal to [C]. *)
Theorem compare_asn_lists_transitive
    (set_order set_order' set_order'' : gset string -> list string)
    (A B C : list association) :
  visits_each_once set_order -> visits_each_once set_order' ->
  visits_each_once set_order'' ->
  passes (compare_asn_lists_in set_order A B) = true ->
  passes (compare_asn_lists_in set_order' B C) = true ->
  passes (compare_asn_lists_in set_order'' A C) = true.
Proof.
  intros Ho Ho' Ho''.
  rewrite !compare_asn_lists_in_passes by done.
  intros (HA & HB & NA & NB & Hset & Hall) (_ & HC & _ & NC & Hset' & Hall').
  repeat split; try done.
  - intros Hn. by apply Hset', Hset.
  - intros Hn. by apply Hset, Hset'.
  - intros a c Ha Hc Hac.
    assert (first_name a ∈ first_name <$> B) as (b & Hab & Hb)%list_elem_of_fmap.
    { apply Hset, list_elem_of_fmap. by exists a. }
    apply (compare_asns_passes_trans a b c).
    + by apply Hall.
    + apply Hall'; [done..|congruence].
Qed.

Lemma compare_asn_lists_transitive_witness :
  passes (compare_asn_lists [diff_left; merge_left] [diff_left; merge_left]) = true.
Proof.
  apply (compare_asn_lists_transitive elements elements elements
           [diff_left; merge_left] [merge_left; diff_right] [diff_left; merge_left]);
    try (intros X; reflexivity); vm_compute; reflexivity.
Defined.

Lemma first_name_separate_products asn :
  first_name <$> separate_products asn = name <$> products asn.
Proof.
  unfold separate_products. rewrite <- list_fmap_compose. by apply list_fmap_ext.
Qed.

(** X21.  An association split into its products compares equal to itself,
    as [compare_asn_files] would compare a file with itself, exactly when
    its products have distinct names and, if it has any product, its
    candidate id is not empty. *)
Theorem separate_products_compares_to_itself
    (set_order : gset string -> list string) (asn : association) :
  visits_each_once set_order ->
  passes (compare_asn_lists_in set_order (separate_products asn)
            (separate_products asn)) = true
  <-> NoDup (name <$> products asn)
      /\ (products asn = [] \/ asn_id asn <> EmptyString).
Proof.
  intros Ho. rewrite compare_asn_lists_in_passes by done.
  rewrite first_name_separate_products.
  assert (forall x, x ∈ separate_products asn ->
                    products x <> [] /\ asn_id x = asn_id asn) as Hx.
  { intros x (p & -> & Hp)%list_elem_of_fmap. done. }
  split.
  - intros (_ & _ & Hnd & _ & _ & Hall). split; [done|].
    destruct (products asn) as [|p ps] eqn:Ep; [by left|right].
    set (x := set_products [p] asn).
    assert (x ∈ separate_products asn) as Hin.
    { unfold separate_products. rewrite Ep, fmap_cons. apply elem_of_cons. auto. }
    specialize (Hall x x Hin Hin eq_refl).
    destruct (compare_asns_reflexive_helper x) as [_ Hr]. rewrite Hr in Hall.
    change (asn_id x) with (asn_id asn) in Hall. by destruct (asn_id asn).
  - intros [Hnd Hid]. split; [|split; [|split; [done|split; [done|split; [done|]]]]].
    + apply Forall_forall. intros x Hin. by apply Hx.
    + apply Forall_forall. intros x Hin. by apply Hx.
    + intros a b Ha Hb Hab.
      assert (a = b) as <-.
      { eapply (NoDup_fmap_eq first_name); [|exact Ha|exact Hb|exact Hab].
        by rewrite first_name_separate_products. }
      destruct (compare_asns_reflexive_helper a) as [_ ->].
      destruct (Hx a Ha) as [_ Hida]. rewrite Hida.
      destruct Hid as [Hp|Hid]; [|by destruct (asn_id asn)].
      unfold separate_products in Ha. rewrite Hp in Ha. by apply elem_of_nil in Ha.
Qed.

Lemma separate_products_compares_to_itself_witness :
  passes (compare_asn_lists (separate_products merge_like_named)
            (separate_products merge_like_named)) = true
  <-> NoDup (name <$> products merge_like_named)
      /\ (products merge_like_named = [] \/ asn_id merge_like_named <> EmptyString).
Proof.
  apply (separate_products_compares_to_itself elements merge_like_named).
  intros X. reflexivity.
Defined.

(** * Merging what was merged *)

Lemma names_self_merge_step i j ps :
  name <$> self_merge_step i j ps = name <$> ps.
Proof.
  unfold self_merge_step.
  destruct (ps !! i) as [prod|] eqn:Ei; [|done].
  destruct (ps !! j) as [cur|] eqn:Ej; [|done].
  destruct (String.eqb (name prod) (name cur)); [|done].
  rewrite list_fmap_insert, name_merge_members.
  apply list_insert_id. by rewrite list_lookup_fmap, Ej.
Qed.

Lemma like_at_lookup ps i k :
  like_at ps i k <->
  exists p q, ps !! i = Some p /\ ps !! k = Some q /\ name p = name q.
Proof.
  unfold like_at. rewrite !list_lookup_fmap. split.
  - intros (n & Hi & Hk).
    destruct (ps !! i) as [p|]; [|done]. destruct (ps !! k) as [q|]; [|done].
    simpl in *. exists p, q. repeat split; congruence.
  - intros (p & q & -> & -> & Hn). exists (name p). simpl. by rewrite Hn.
Qed.

Lemma like_at_trans ps i j k : like_at ps i j -> like_at ps j k -> like_at ps i k.
Proof.
  intros (n & Hi & Hj) (n' & Hj' & Hk). exists n. split; [done|]. congruence.
Qed.

Lemma like_at_sym ps i k : like_at ps i k -> like_at ps k i.
Proof. intros (n & Hi & Hk). by exists n. Qed.

Lemma like_at_lt ps i k : like_at ps i k -> k < length ps.
Proof.
  intros (n & _ & Hk). apply lookup_lt_Some in Hk. by rewrite length_fmap in Hk.
Qed.

Lemma exposure_at_self_merge_step i j ps k e :
  exposure_at (self_merge_step i j ps) k e <->
  exposure_at ps k e \/ (k = j /\ like_at ps i j /\ exposure_at ps i e).
Proof.
  unfold self_merge_step.
  destruct (ps !! i) as [prod|] eqn:Ei.
  2: { split; [auto|]. intros [?|(_ & _ & p & Hp & _)]; [done|congruence]. }
  destruct (ps !! j) as [cur|] eqn:Ej.
  2: { split; [auto|].
       intros [?|(_ & (p & q & _ & Hq & _)%like_at_lookup & _)]; [done|congruence]. }
  destruct (String.eqb (name prod) (name cur)) eqn:En.
  2: { split; [auto|].
       intros [?|(_ & (p & q & Hp & Hq & Hn)%like_at_lookup & _)]; [done|].
       apply String.eqb_neq in En. congruence. }
  apply String.eqb_eq in En. unfold exposure_at.
  destruct (decide (k = j)) as [->|Hkj].
  - rewrite list_lookup_insert_eq by (by eapply lookup_lt_Some). split.
    + intros (p & [= <-] & He). apply expnames_merge_members in He as [He|He].
      * left. by exists cur.
      * right. split; [done|]. split; [|by exists prod].
        apply like_at_lookup. by exists prod, cur.
    + intros [(p & Hp & He)|(_ & _ & p & Hp & He)].
      * exists (merge_members prod cur). split; [done|].
        apply expnames_merge_members. left. congruence.
      * exists (merge_members prod cur). split; [done|].
        apply expnames_merge_members. right. congruence.
  - rewrite list_lookup_insert_ne by done. split; [auto|].
    intros [?|(? & _)]; done.
Qed.

(** One product against all the products: every like-named product takes
    its exposures. *)
Lemma exposure_at_inner i js ps :
  let ps' := foldl (fun ps j => self_merge_step i j ps) ps js in
  name <$> ps' = name <$> ps
  /\ forall k e, exposure_at ps' k e <->
       exposure_at ps k e \/ (k ∈ js /\ like_at ps i k /\ exposure_at ps i e).
Proof.
  revert ps. induction js as [|j js IH]; intros ps; cbn [foldl].
  - split; [done|]. intros k e. split; [auto|].
    intros [?|(?%elem_of_nil & _)]; done.
  - destruct (IH (self_merge_step i j ps)) as [Hn He]. cbv zeta in *.
    split; [by rewrite Hn, names_self_merge_step|].
    intros k e. rewrite He.
    assert (forall a b, like_at (self_merge_step i j ps) a b <-> like_at ps a b) as Hl.
    { intros a b. unfold like_at. by rewrite names_self_merge_step. }
    rewrite Hl, !exposure_at_self_merge_step, elem_of_cons. split.
    + intros [[H|(-> & H1 & H2)]|(Hk & Hlk & [H|(_ & _ & H)])]; auto 6.
    + intros [H|([->|Hk] & Hlk & H)]; auto 6.
Qed.

(** After the pass of an association over its own products, every product
    that was visited is held by the products of its name. *)
Lemma exposure_at_outer outer ps :
  let ps' := foldl (fun ps i =>
                      foldl (fun ps j => self_merge_step i j ps) ps
                            (seq 0 (length ps)))
                   ps outer in
  name <$> ps' = name <$> ps
  /\ forall i k e, i ∈ outer -> like_at ps i k ->
       exposure_at ps' i e -> exposure_at ps' k e.
Proof.
  induction outer as [|i outer IH] using rev_ind; cbv zeta in *.
  - split; [done|]. by intros i k e ?%elem_of_nil.
  - rewrite foldl_app. cbn [foldl]. destruct IH as [Hn IH].
    set (ps1 := foldl _ ps outer) in *.
    destruct (exposure_at_inner i (seq 0 (length ps1)) ps1) as [Hn' He].
    cbv zeta in *. split; [congruence|].
    assert (forall a b, like_at ps1 a b <-> like_at ps a b) as Hl.
    { intros a b. unfold like_at. by rewrite Hn. }
    intros i0 k e Hi0 Hlk. rewrite !He.
    assert (k ∈ seq 0 (length ps1)) as Hk.
    { apply elem_of_seq. apply Hl, like_at_lt in Hlk. lia. }
    apply elem_of_app in Hi0 as [Hi0|Hi0%list_elem_of_singleton]; [|subst i0].
    + intros [H|(_ & Hli & H)].
      * left. by apply (IH i0).
      * right. split; [done|]. split; [|done].
        eapply like_at_trans; [exact Hli|by apply Hl].
    + intros [H|(_ & _ & H)]; right; (split; [done|]); (split; [by apply Hl|done]).
Qed.

Lemma like_named_agree_self_merge ps : like_named_agree (self_merge ps).
Proof.
  destruct (exposure_at_outer (seq 0 (length ps)) ps) as [Hn He]. cbv zeta in *.
  fold (self_merge ps) in *. set (ps' := self_merge ps) in *.
  assert (forall a b p q e, ps' !! a = Some p -> ps' !! b = Some q ->
            name p = name q -> e ∈ expnames (members p) ->
            e ∈ expnames (members q)) as Hone.
  { intros a b p q e Ha Hb Hpq Hp.
    assert (like_at ps a b) as Hl.
    { unfold like_at. rewrite <- Hn, !list_lookup_fmap, Ha, Hb. simpl.
      exists (name p). by rewrite Hpq. }
    destruct (He a b e) as (q' & Hq' & Hq); [|done|by exists p|congruence].
    apply elem_of_seq. apply like_at_sym, like_at_lt in Hl. lia. }
  intros p q [a Ha]%list_elem_of_lookup [b Hb]%list_elem_of_lookup Hpq e.
  split; [by apply (Hone a b)|by apply (Hone b a)].
Qed.

Lemma existsb_false_fmap p cps :
  existsb (fun cp => String.eqb (name p) (name cp)) cps = false ->
  (fun cp => if String.eqb (name p) (name cp) then merge_members p cp else cp) <$> cps
  = cps.
Proof.
  induction cps as [|cp cps IH]; [done|]. cbn [existsb].
  intros [Hc Hr]%orb_false_iff. rewrite fmap_cons, Hc. by rewrite IH.
Qed.

Lemma like_named_agree_merge_product cps p :
  like_named_agree cps -> like_named_agree (merge_product cps p).
Proof.
  intros HJ. unfold merge_product. rewrite merge_into_fmap.
  destruct (existsb _ cps) eqn:E.
  - intros p1 q1 (c1 & -> & Hc1)%list_elem_of_fmap (c2 & -> & Hc2)%list_elem_of_fmap.
    assert (forall c, name (if String.eqb (name p) (name c)
                            then merge_members p c else c) = name c) as Hname.
    { intros c. by destruct (String.eqb (name p) (name c)). }
    rewrite !Hname. intros Hn e.
    rewrite Hn. destruct (String.eqb (name p) (name c2)).
    + rewrite !expnames_merge_members, (HJ c1 c2 Hc1 Hc2 Hn e). done.
    + by apply HJ.
  - rewrite existsb_false_fmap by done.
    intros p1 q1 [H1|H1%list_elem_of_singleton]%elem_of_app
                 [H2|H2%list_elem_of_singleton]%elem_of_app Hn e.
    + by apply HJ.
    + subst q1. exfalso.
      assert (existsb (fun cp => String.eqb (name p) (name cp)) cps = true);
        [|congruence].
      apply existsb_exists. exists p1. split; [by apply list_elem_of_In|].
      by apply String.eqb_eq.
    + subst p1. exfalso.
      assert (existsb (fun cp => String.eqb (name p) (name cp)) cps = true);
        [|congruence].
      apply existsb_exists. exists q1. split; [by apply list_elem_of_In|].
      by apply String.eqb_eq.
    + by subst.
Qed.

Lemma like_named_agree_foldl ps cps :
  like_named_agree cps -> like_named_agree (foldl merge_product cps ps).
Proof.
  revert cps. induction ps as [|p ps IH]; intros cps H; [done|].
  cbn [foldl]. by apply IH, like_named_agree_merge_product.
Qed.

Lemma merge_members_agree prod cur :
  (forall e, e ∈ expnames (members prod) -> e ∈ expnames (members cur)) ->
  merge_members prod cur = cur.
Proof.
  intros H. rewrite merge_members_new.
  assert (new_members (members cur) (members prod) = []) as ->.
  { unfold new_members.
    induction (members prod) as [|m ms IH]; [done|]. cbn [List.filter].
    rewrite bool_decide_eq_false_2.
    - apply IH. intros e He. apply H. unfold expnames. rewrite fmap_cons.
      apply elem_of_cons. auto.
    - intros Hno. apply Hno, H. unfold expnames. rewrite fmap_cons.
      apply elem_of_cons. auto. }
  rewrite (right_id_L [] (++)). by destruct cur.
Qed.

Lemma self_merge_step_agree i j ps :
  like_named_agree ps -> self_merge_step i j ps = ps.
Proof.
  intros HJ. unfold self_merge_step.
  destruct (ps !! i) as [prod|] eqn:Ei; [|done].
  destruct (ps !! j) as [cur|] eqn:Ej; [|done].
  destruct (String.eqb (name prod) (name cur)) eqn:En; [|done].
  apply String.eqb_eq in En.
  rewrite merge_members_agree; [by apply list_insert_id|].
  intros e. apply HJ; [by eapply list_elem_of_lookup_2..|done].
Qed.

Lemma self_merge_agree ps : like_named_agree ps -> self_merge ps = ps.
Proof.
  intros HJ. unfold self_merge.
  assert (forall i js, foldl (fun ps j => self_merge_step i j ps) ps js = ps) as Hin.
  { intros i js. induction js as [|j js IH]; [done|]. simpl.
    by rewrite self_merge_step_agree. }
  generalize (seq 0 (length ps)) as outer.
  intros outer. induction outer as [|i outer IH]; [done|]. simpl.
  by rewrite Hin.
Qed.

Lemma foldl_merge_asn_agree asns merged :
  NoDup (merged.*1 ++ (merge_idx <$> asns)) ->
  Forall (fun asn => like_named_agree (products asn)) asns ->
  foldl merge_asn merged asns = merged ++ ((fun asn => (merge_idx asn, asn)) <$> asns).
Proof.
  revert merged. induction asns as [|asn asns IH]; intros merged Hnd Hall; simpl.
  - by rewrite app_nil_r.
  - apply Forall_cons in Hall as [Hasn Hall].
    apply NoDup_app in Hnd as (Hm & Hdis & Hrest).
    apply NoDup_cons in Hrest as [Hfresh Hrest].
    assert (merge_asn merged asn = merged ++ [(merge_idx asn, asn)]) as ->.
    { unfold merge_asn. rewrite dict_get_None, dict_set_new.
      - by rewrite self_merge_agree, set_products_id.
      - intros Hin. apply (Hdis _ Hin). apply elem_of_cons. auto.
      - intros Hin. apply (Hdis _ Hin). apply elem_of_cons. auto. }
    rewrite IH; [by rewrite <- app_assoc| |done].
    rewrite fmap_app. simpl. rewrite <- app_assoc. simpl.
    apply NoDup_app. split; [done|]. split; [|by apply NoDup_cons].
    intros k Hin. by apply Hdis.
Qed.

Lemma dict_set_values {A} (P : A -> Prop) k v (d : list (string * A)) :
  P v -> Forall P d.*2 -> Forall P (dict_set k v d).*2.
Proof.
  intros Hv. induction d as [|[k' v'] d IH]; intros Hd.
  - apply Forall_cons_2; [done|apply Forall_nil_2].
  - rewrite fmap_cons in Hd. apply Forall_cons in Hd as [Hv' Hd].
    cbn [dict_set]. destruct (String.eqb k' k); rewrite fmap_cons.
    + by apply Forall_cons_2.
    + apply Forall_cons_2; [done|by apply IH].
Qed.

Lemma dict_get_values {A} (P : A -> Prop) k v (d : list (string * A)) :
  Forall P d.*2 -> dict_get k d = Some v -> P v.
Proof.
  induction d as [|[k' v'] d IH]; [done|]. rewrite fmap_cons.
  intros [Hv' Hd]%Forall_cons. cbn [dict_get].
  destruct (String.eqb k' k); [by intros [= <-]|by apply IH].
Qed.

Lemma merge_asn_agree merged asn :
  Forall (fun v => like_named_agree (products v)) merged.*2 ->
  Forall (fun v => like_named_agree (products v)) (merge_asn merged asn).*2.
Proof.
  intros H. unfold merge_asn.
  destruct (dict_get (merge_idx asn) merged) as [cur|] eqn:E.
  - apply dict_set_values; [|done]. cbn [products set_products].
    apply like_named_agree_foldl.
    by apply (dict_get_values _ (merge_idx asn) cur merged H).
  - apply dict_set_values; [|done]. cbn [products set_products].
    apply like_named_agree_self_merge.
Qed.

Lemma _merge_asns_agree asns :
  Forall (fun v => like_named_agree (products v)) (_merge_asns asns).
Proof.
  unfold _merge_asns.
  assert (forall merged,
            Forall (fun v => like_named_agree (products v)) merged.*2 ->
            Forall (fun v => like_named_agree (products v))
                   (foldl merge_asn merged asns).*2) as H.
  { induction asns as [|a asns IH]; intros merged Hm; [done|].
    cbn [foldl]. by apply IH, merge_asn_agree. }
  apply H, Forall_nil_2.
Qed.

Lemma _merge_asns_keys asns :
  merge_idx <$> _merge_asns asns = first_seen (merge_idx <$> asns).
Proof.
  unfold _merge_asns. destruct (foldl_merge_asn_inv asns) as [Hkeys Hvals].
  set (merged := foldl merge_asn [] asns) in *.
  assert (NoDup merged.*1) as Hnd by (rewrite Hkeys; apply NoDup_first_seen).
  rewrite keys_of_values; [done|].
  intros k v Hin%(dict_get_elem_of k v merged Hnd).
  destruct (Hvals k v Hin) as (a & Ha & Ht & Hi & _).
  apply head_Some_elem_of, elem_of_keyed in Ha as [_ <-].
  unfold merge_idx. by rewrite Ht, Hi.
Qed.

(** X22.  Merging is idempotent: in what [_merge_asns] returns, the
    like-named products of an association hold the same exposure names,
    and merging it again gives it back as it is. *)
Theorem _merge_asns_idempotent (asns : list association) :
  Forall (fun r => like_named_agree (products r)) (_merge_asns asns)
  /\ _merge_asns (_merge_asns asns) = _merge_asns asns.
Proof.
  split; [apply _merge_asns_agree|].
  unfold _merge_asns at 1.
  rewrite foldl_merge_asn_agree.
  - cbn [app]. rewrite <- list_fmap_compose. apply list_fmap_id.
  - cbn [fmap list_fmap app]. rewrite _merge_asns_keys. apply NoDup_first_seen.
  - apply _merge_asns_agree.
Qed.
